(** * htmlToFigma: the conversion engine, embedded in Rocq

    A shallow embedding of the conversion engine of the repository:
    - [base-converter.ts]   (class [FigmaConverter]: cascade, layout mapping,
                             colour parsing, the recursive tree builder),
    - [selector-matcher.ts] (class [SelectorMatcher]),
    - [svg-converter.ts]    (class [SvgConverter]),
    - [font-manager.ts]     (class [FontManager]),
    - the image processor   (class [ImageProcessor]: data addresses and the
                             hash that names a saved file),
    - [h2d-format.ts]       (the validator of captured pages and the default
                             file),
    - the converter of code (class [CodeToFigmaConverter]: the document made
                             from HTML and CSS),
    - the capture script    ([getMimeType]).

    Conventions of the embedding.
    - A JavaScript string is a [string]; a character is one code unit in the
      range 0..255.
    - A JavaScript number is a [num]: [NaN], an infinity or a rational.
      The sizes read by [parseSize] are doubles, rounded as the engine
      rounds them; elsewhere arithmetic is exact, and [parseInt] and
      [parseFloat] read no infinity.
    - A plain object used as a dictionary (a style map, the declarations of a
      rule) is a [gmap string string], on which an assignment to the key
      [__proto__] sets nothing; an insertion-ordered [Map] is an association
      list with unique keys.
    - [null] and [undefined] are [None].
    - A table written as an object literal is the list of its own entries;
      where a table is indexed by text of the input, the names every object
      inherits ([constructor], [__proto__]) are excluded by a hypothesis.
    - External libraries (the HTML parser, css-select, css-tree, svg-parser)
      are not part of the repository: their results are inputs of the model
      (a DOM tree, a matcher oracle, a selection oracle for tag names that
      are no plain names, a list of parsed rules, a parse oracle). *)

From Stdlib Require Import QArith Qround ZArith Ascii String List Bool Lia Lqa.
From Stdlib Require Floats.SpecFloat.
From stdpp Require Import gmap strings list fin_maps.

Local Open Scope string_scope.

#[local] Set Warnings "-register-all".

(** ** JavaScript primitives used by the converters *)

Module Js.

(** *** Numbers *)

Inductive num : Type :=
| NaN : num
| Num : Q -> num
| Infinity (negative : bool) : num.

Definition ofZ (z : Z) : num := Num (inject_Z z).

(** ToBoolean on a number: [NaN] and [0] are falsy. *)
Definition truthyNum (n : num) : bool :=
  match n with
  | NaN => false
  | Num q => negb (Qeq_bool q 0)
  | Infinity _ => true
  end.

(** [a || b] on numbers. *)
Definition orNum (a b : num) : num := if truthyNum a then a else b.

Definition isNegative (q : Q) : bool := (Qnum q <? 0)%Z.

(** An infinity times a finite number: [NaN] when the number is zero. *)
Definition scaleInfinity (negative : bool) (y : Q) : num :=
  if Qeq_bool y 0 then NaN else Infinity (xorb negative (isNegative y)).

Definition mul (a b : num) : num :=
  match a, b with
  | Num x, Num y => Num (Qred (x * y))
  | Infinity s, Num y => scaleInfinity s y
  | Num x, Infinity s => scaleInfinity s x
  | Infinity s, Infinity t => Infinity (xorb s t)
  | _, _ => NaN
  end.

Definition sub (a b : num) : num :=
  match a, b with
  | Num x, Num y => Num (Qred (x - y))
  | Infinity s, Num _ => Infinity s
  | Num _, Infinity s => Infinity (negb s)
  | Infinity s, Infinity t => if Bool.eqb s t then NaN else Infinity s
  | _, _ => NaN
  end.

(** Division by a non-zero literal of the source ([/ 255], [/ 100]). *)
Definition divLit (a : num) (c : Z) : num :=
  match a with
  | Num x => Num (Qred (x / inject_Z c))
  | NaN => NaN
  | Infinity s => Infinity (xorb s (c <? 0)%Z)
  end.

(** [x < y] on finite numbers. *)
Definition lessThan (x y : Q) : bool := negb (Qle_bool y x).

(** [Math.round]: the nearest integer, halves rounded up. *)
Definition mathRound (q : Q) : Z := Qfloor (q + (1 # 2)).


(** *** Doubles

    The results of [parseSize] are followed to the last bit: a number is
    then a double, and every operation yields the double nearest to the
    exact result, ties going to the even mantissa. *)

(** The binary exponent of a positive rational [n/d]: the [k] with
    [2^k <= n/d < 2^(k+1)]. *)
Definition binaryExponent (n d : positive) : Z :=
  let k := (Z.log2 (Zpos n) - Z.log2 (Zpos d))%Z in
  if (Zpos n * 2 ^ Z.max 0 (- k) <? Zpos d * 2 ^ Z.max 0 k)%Z
  then (k - 1)%Z else k.

(** The mantissa [m] and the exponent [e] of the double nearest to [n/d]:
    the double is [m * 2^e], with 53 bits of mantissa for a normal number
    and the exponent held at [-1074] for a subnormal one. *)
Definition nearestDouble (n d : positive) : Z * Z :=
  let e := Z.max (binaryExponent n d - 52) (-1074) in
  let scaledN := (Zpos n * 2 ^ Z.max 0 (- e))%Z in
  let scaledD := (Zpos d * 2 ^ Z.max 0 e)%Z in
  let q := (scaledN / scaledD)%Z in
  let r := (scaledN mod scaledD)%Z in
  let m := match (2 * r ?= scaledD)%Z with
           | Lt => q
           | Gt => (q + 1)%Z
           | Eq => if Z.even q then q else (q + 1)%Z
           end in
  (m, e).

(** Past the largest double, [(2^53 - 1) * 2^971], rounding gives an
    infinity. *)
Definition overflows (m e : Z) : bool :=
  (971 <? e)%Z || ((e =? 971)%Z && (2 ^ 53 <=? m)%Z).

(** [m * 2^e] as a fraction. *)
Definition scaled (m e : Z) : Q :=
  (m * 2 ^ Z.max 0 e)%Z # Z.to_pos (2 ^ Z.max 0 (- e)).

Definition roundPositive (negative : bool) (n d : positive) : num :=
  let '(m, e) := nearestDouble n d in
  if overflows m e then Infinity negative
  else Num (Qred (if negative then - scaled m e else scaled m e)).

Definition roundDouble (q : Q) : num :=
  match Qnum q with
  | Z0 => Num 0
  | Zpos n => roundPositive false n (Qden q)
  | Zneg n => roundPositive true n (Qden q)
  end.

(** The double that an exact result is stored as. *)
Definition toDouble (n : num) : num :=
  match n with
  | Num q => roundDouble q
  | _ => n
  end.

(** *** Characters *)

Definition code (c : ascii) : nat := nat_of_ascii c.

(** The class [\s] restricted to code units below 256. *)
Definition isSpace (c : ascii) : bool :=
  let n := code c in
  ((9 <=? n) && (n <=? 13))%nat || (n =? 32)%nat || (n =? 160)%nat.

Definition isDigit (c : ascii) : bool :=
  let n := code c in ((48 <=? n) && (n <=? 57))%nat.

(** [[a-z]] under the [i] flag. *)
Definition isLetter (c : ascii) : bool :=
  let n := code c in
  ((65 <=? n) && (n <=? 90))%nat || ((97 <=? n) && (n <=? 122))%nat.

Definition digitValue (c : ascii) : Z := (Z.of_nat (code c) - 48)%Z.

(** The value of a hexadecimal digit, if it is one. *)
Definition hexValue (c : ascii) : option Z :=
  let n := code c in
  if ((48 <=? n) && (n <=? 57))%nat then Some (Z.of_nat n - 48)%Z
  else if ((65 <=? n) && (n <=? 70))%nat then Some (Z.of_nat n - 55)%Z
  else if ((97 <=? n) && (n <=? 102))%nat then Some (Z.of_nat n - 87)%Z
  else None.

Definition lowerChar (c : ascii) : ascii :=
  let n := code c in
  if ((65 <=? n) && (n <=? 90))%nat then ascii_of_nat (n + 32)
  else if ((192 <=? n) && (n <=? 222))%nat && negb (n =? 215)%nat
       then ascii_of_nat (n + 32)
  else c.

Definition upperChar (c : ascii) : ascii :=
  let n := code c in
  if ((97 <=? n) && (n <=? 122))%nat then ascii_of_nat (n - 32)
  else if ((224 <=? n) && (n <=? 254))%nat && negb (n =? 247)%nat
       then ascii_of_nat (n - 32)
  else c.

(** *** Strings *)

Fixpoint mapString (f : ascii -> ascii) (s : string) : string :=
  match s with
  | EmptyString => EmptyString
  | String c r => String (f c) (mapString f r)
  end.

Definition toLowerCase : string -> string := mapString lowerChar.
Definition toUpperCase : string -> string := mapString upperChar.

Definition isEmpty (s : string) : bool :=
  match s with EmptyString => true | _ => false end.

(** ToBoolean on a string. *)
Definition truthy (s : string) : bool := negb (isEmpty s).

(** ToBoolean on a possibly undefined string. *)
Definition truthyOpt (o : option string) : bool :=
  match o with Some s => truthy s | None => false end.

(** [o === s] where [o] is a possibly undefined string. *)
Definition sameOpt (o : option string) (s : string) : bool :=
  match o with Some v => String.eqb v s | None => false end.

(** A field that is set only under a condition. *)
Definition when {A : Type} (c : bool) (v : A) : option A :=
  if c then Some v else None.

(** [o || d] where [o] is a possibly undefined string. *)
Definition orDefault (o : option string) (d : string) : string :=
  match o with
  | Some s => if truthy s then s else d
  | None => d
  end.

Fixpoint reverseOnto (s acc : string) : string :=
  match s with
  | EmptyString => acc
  | String c r => reverseOnto r (String c acc)
  end.

Definition reverse (s : string) : string := reverseOnto s EmptyString.

Fixpoint trimStart (s : string) : string :=
  match s with
  | String c r => if isSpace c then trimStart r else s
  | EmptyString => EmptyString
  end.

Definition trimEnd (s : string) : string := reverse (trimStart (reverse s)).

Definition trim (s : string) : string := trimEnd (trimStart s).

Definition startsWith (s p : string) : bool := String.prefix p s.

Definition endsWith (s p : string) : bool :=
  String.prefix (reverse p) (reverse s).

(** [s.slice(a, b)] for [0 <= a <= b]. *)
Definition slice (s : string) (a b : nat) : string :=
  String.substring a (b - a) s.

(** [s.slice(a)] for [0 <= a]. *)
Fixpoint sliceFrom (s : string) (a : nat) : string :=
  match a, s with
  | O, _ => s
  | S a', String _ r => sliceFrom r a'
  | S _, EmptyString => EmptyString
  end.

(** [s.includes(p)]. *)
Fixpoint includes (s p : string) : bool :=
  String.prefix p s ||
  match s with
  | EmptyString => false
  | String _ r => includes r p
  end.

(** [s.split(sep)] for a one-character separator, and more generally for a
    separator that is one character of a class: the pieces between the
    separators, in order; never the empty list. *)
Fixpoint splitOn (isSep : ascii -> bool) (s : string) : list string :=
  match s with
  | EmptyString => [EmptyString]
  | String c r =>
      if isSep c then EmptyString :: splitOn isSep r
      else match splitOn isSep r with
           | piece :: pieces => String c piece :: pieces
           | [] => [String c EmptyString]
           end
  end.

Definition split (sep : ascii) (s : string) : list string :=
  splitOn (fun c => Ascii.eqb c sep) s.

(** [s.split(/\s+|,/)] when [comma] is set, [s.split(/\s+/)] otherwise: a
    separator is a maximal run of white space or (when allowed) one comma.
    [skipping] is set while a run of white space is being consumed. *)
Fixpoint splitRuns (comma : bool) (skipping : bool) (s : string) : list string :=
  match s with
  | EmptyString => [EmptyString]
  | String c r =>
      if isSpace c then
        if skipping then splitRuns comma true r
        else EmptyString :: splitRuns comma true r
      else if comma && Ascii.eqb c ","%char then
        EmptyString :: splitRuns comma false r
      else match splitRuns comma false r with
           | piece :: pieces => String c piece :: pieces
           | [] => [String c EmptyString]
           end
  end.

Definition splitSpaces (s : string) : list string := splitRuns false false s.
Definition splitSpacesOrComma (s : string) : list string := splitRuns true false s.

(** The longest prefix of characters satisfying [p], and the rest. *)
Fixpoint span (p : ascii -> bool) (s : string) : string * string :=
  match s with
  | String c r =>
      if p c then let '(a, b) := span p r in (String c a, b)
      else (EmptyString, s)
  | EmptyString => (EmptyString, EmptyString)
  end.

(** [s.match(/\d+/g)]: the maximal runs of digits, in order; the empty
    list stands for [null].  [run] is the run being read, reversed. *)
Fixpoint digitRuns (run : string) (s : string) : list string :=
  match s with
  | EmptyString => if isEmpty run then [] else [reverse run]
  | String c r =>
      if isDigit c then digitRuns (String c run) r
      else if isEmpty run then digitRuns EmptyString r
      else reverse run :: digitRuns EmptyString r
  end.

Definition matchDigits (s : string) : list string := digitRuns EmptyString s.

(** [s.match(re)] counted, for a one-character class [re] with flag [g]. *)
Fixpoint countChars (p : ascii -> bool) (s : string) : nat :=
  match s with
  | EmptyString => O
  | String c r => (if p c then 1 else 0) + countChars p r
  end.

(** *** parseInt and parseFloat *)

Fixpoint decimalValue (acc : Z) (s : string) : Z :=
  match s with
  | EmptyString => acc
  | String c r => decimalValue (10 * acc + digitValue c)%Z r
  end.

(** Reads hexadecimal digits as far as they go; [None] when there is none. *)
Fixpoint hexDigits (acc : option Z) (s : string) : option Z :=
  match s with
  | EmptyString => acc
  | String c r =>
      match hexValue c with
      | Some d => hexDigits (Some (16 * default 0 acc + d)%Z) r
      | None => acc
      end
  end.

Definition readSign (s : string) : bool * string :=
  match s with
  | String "-"%char r => (true, r)
  | String "+"%char r => (false, r)
  | _ => (false, s)
  end.

Definition signed (negative : bool) (z : Z) : Z := if negative then (- z)%Z else z.

Definition has0x (s : string) : bool :=
  String.prefix "0x" s || String.prefix "0X" s.

(** [parseInt(s, 16)] when [radix16] is set, [parseInt(s)] otherwise. Both
    strip a [0x] prefix and then read hexadecimal digits. *)
Definition parseInt (radix16 : bool) (s : string) : num :=
  let '(negative, body) := readSign (trimStart s) in
  if has0x body || radix16 then
    let body' := if has0x body then sliceFrom body 2 else body in
    match hexDigits None body' with
    | Some z => ofZ (signed negative z)
    | None => NaN
    end
  else
    let '(digits, _) := span isDigit body in
    if isEmpty digits then NaN else ofZ (signed negative (decimalValue 0%Z digits)).

Definition isExponentMark (c : ascii) : bool :=
  Ascii.eqb c "e"%char || Ascii.eqb c "E"%char.

(** The exponent part [e[+-]digits] at the head of [s], 0 when absent or
    incomplete. *)
Definition readExponent (s : string) : Z :=
  match s with
  | String c r =>
      if isExponentMark c then
        let '(negative, r') := readSign r in
        let '(digits, _) := span isDigit r' in
        if isEmpty digits then 0%Z else signed negative (decimalValue 0%Z digits)
      else 0%Z
  | EmptyString => 0%Z
  end.

(** [parseFloat(s)]: the longest prefix that is a decimal literal. *)
Definition parseFloat (s : string) : num :=
  let '(negative, body) := readSign (trimStart s) in
  let '(intPart, rest) := span isDigit body in
  let '(fracPart, rest') :=
    match rest with
    | String "."%char r => span isDigit r
    | _ => (EmptyString, rest)
    end in
  if isEmpty intPart && isEmpty fracPart then NaN
  else
    let mantissa :=
      (inject_Z (decimalValue 0%Z intPart)
       + inject_Z (decimalValue 0%Z fracPart)
         / inject_Z (10 ^ Z.of_nat (String.length fracPart))%Z)%Q in
    let scaled := (mantissa * Qpower 10 (readExponent rest'))%Q in
    Num (Qred (if negative then - scaled else scaled)).

(** [parseFloat(s)] as a double: the literal [Infinity] with its sign, and
    otherwise the double nearest to the decimal literal. *)
Definition parseFloatDouble (s : string) : num :=
  let '(negative, body) := readSign (trimStart s) in
  if String.prefix "Infinity" body then Infinity negative
  else toDouble (parseFloat s).

(** [parseFloat(x)] where [x] is a possibly undefined string:
    [parseFloat(undefined)] is [NaN]. *)
Definition parseFloatOpt (o : option string) : num :=
  match o with Some s => parseFloat s | None => NaN end.

End Js.

(** ** The parsed document, as cheerio exposes it *)

Module Dom.

(** A node of the parsed markup.  An element carries its tag name as the
    parser reports it, its attributes and its child nodes. *)
Inductive DomNode : Type :=
| Element (tagName : string) (attribs : list (string * string))
          (childNodes : list DomNode)
| TextNode (data : string)
| CommentNode (data : string).

(** The [type] field of a node.  The DOM implementation behind cheerio
    gives the elements named [script] and [style] a type of their own. *)
Inductive NodeKind : Type := KTag | KScript | KStyle | KText | KComment.

Definition kindOf (n : DomNode) : NodeKind :=
  match n with
  | Element t _ _ =>
      if String.eqb t "script" then KScript
      else if String.eqb t "style" then KStyle
      else KTag
  | TextNode _ => KText
  | CommentNode _ => KComment
  end.

Definition isTagKind (n : DomNode) : bool :=
  match kindOf n with KTag => true | _ => false end.

Definition isElement (n : DomNode) : bool :=
  match n with Element _ _ _ => true | _ => false end.

Definition tagNameOf (n : DomNode) : string :=
  match n with Element t _ _ => t | _ => EmptyString end.

Definition childNodesOf (n : DomNode) : list DomNode :=
  match n with Element _ _ cs => cs | _ => [] end.

(** [$el.children()]: the child nodes that are elements. *)
Definition children (n : DomNode) : list DomNode :=
  List.filter isElement (childNodesOf n).

Fixpoint assoc {A : Type} (k : string) (l : list (string * A)) : option A :=
  match l with
  | [] => None
  | (k', v) :: r => if String.eqb k k' then Some v else assoc k r
  end.

(** [$el.attr(name)]; [undefined] when the attribute is missing. *)
Definition attr (n : DomNode) (name : string) : option string :=
  match n with
  | Element _ attribs _ => assoc name attribs
  | _ => None
  end.

(** [$el.text()]: the text of all descendants, comments left out (the
    content of [script] and [style] elements counts as text). *)
Fixpoint text (n : DomNode) : string :=
  match n with
  | Element _ _ cs =>
      (fix texts (l : list DomNode) : string :=
         match l with
         | [] => EmptyString
         | c :: r => text c ++ texts r
         end) cs
  | TextNode d => d
  | CommentNode _ => EmptyString
  end.

(** A position below the element the search starts from: the indexes, among
    element children, that lead to the node. *)
Definition Path : Type := list nat.

(** A name that, read as a selector, is a type selector and nothing else:
    a lower-case letter followed by lower-case letters, digits, [-] and
    [_]. *)
Definition isNameStart (c : ascii) : bool :=
  let n := Js.code c in ((97 <=? n) && (n <=? 122))%nat.

Definition isNameChar (c : ascii) : bool :=
  isNameStart c || Js.isDigit c || Ascii.eqb c "-"%char || Ascii.eqb c "_"%char.

Fixpoint allChars (p : ascii -> bool) (s : string) : bool :=
  match s with
  | EmptyString => true
  | String c r => p c && allChars p r
  end.

Definition isPlainName (tag : string) : bool :=
  match tag with
  | String c r => isNameStart c && allChars isNameChar r
  | EmptyString => false
  end.

(** [$el.find(tag).first()] for a plain name [tag]: the first descendant
    element, in document order, whose tag name is [tag], with its
    position. *)
Fixpoint findFirstIn (tag : string) (here : Path) (n : DomNode)
  : option (Path * DomNode) :=
  match n with
  | Element _ _ cs =>
      (fix scan (l : list DomNode) (i : nat) : option (Path * DomNode) :=
         match l with
         | [] => None
         | c :: r =>
             match c with
             | Element t _ _ =>
                 if String.eqb t tag then Some ((here ++ [i])%list, c)
                 else match findFirstIn tag (here ++ [i])%list c with
                      | Some hit => Some hit
                      | None => scan r (S i)
                      end
             | _ => scan r i
             end
         end) cs O
  | _ => None
  end.

Definition findFirst (tag : string) (root : DomNode) : option (Path * DomNode) :=
  findFirstIn tag [] root.

(** [$el.find(tag)]: all descendant elements named [tag], in document
    order. *)
Fixpoint findAll (tag : string) (n : DomNode) : list DomNode :=
  match n with
  | Element _ _ cs =>
      (fix scan (l : list DomNode) : list DomNode :=
         match l with
         | [] => []
         | c :: r =>
             ((if isElement c && String.eqb (tagNameOf c) tag then [c] else [])
              ++ findAll tag c ++ scan r)%list
         end) cs
  | _ => []
  end.

(** [$el.hasClass(name)]: [name] is one of the white-space separated words
    of the [class] attribute. *)
Definition hasClass (n : DomNode) (name : string) : bool :=
  match attr n "class" with
  | Some cls =>
      Js.truthy cls && Js.truthy name
      && existsb (String.eqb name) (Js.splitOn Js.isSpace cls)
  | None => false
  end.

End Dom.

(** ** selector-matcher.ts *)

Module SelectorMatcher.
Import Dom.

(** The call [selectOne(selector, [element], {adapter})] of css-select, for
    the document under conversion: [Some b] when it returns, [b] telling
    whether the result is non-null, and [None] when it throws.  The element
    is given with its position in the document, since a selector may look
    at ancestors and siblings. *)
Definition SelectOne : Type := Path -> DomNode -> string -> option bool.

(** The class [[\s,>+~[.:]] that ends an identifier in the fallback. *)
Definition isDelimiter (c : ascii) : bool :=
  Js.isSpace c
  || existsb (Ascii.eqb c) [","; ">"; "+"; "~"; "["; "."; ":"]%char.

(** [s.split(/[\s,>+~[.:]/)[0]]. *)
Definition leadingName (s : string) : string :=
  fst (Js.span (fun c => negb (isDelimiter c)) s).

(** [/^[a-z]+$/i] *)
Definition isBareTag (s : string) : bool :=
  Js.truthy s && (Js.countChars (fun c => negb (Js.isLetter c)) s =? 0)%nat.

Definition isQuote (c : ascii) : bool :=
  (Js.code c =? 34)%nat || Ascii.eqb c "'"%char.

Fixpoint removeQuotes (s : string) : string :=
  match s with
  | EmptyString => EmptyString
  | String c r => if isQuote c then removeQuotes r else String c (removeQuotes r)
  end.

(** The group of [/^\[([^\]]+)\]$/], when the selector has that shape. *)
Definition bracketBody (s : string) : option string :=
  match s with
  | String "["%char r =>
      match Js.reverse r with
      | String "]"%char inner =>
          if Js.truthy inner
             && (Js.countChars (fun c => Ascii.eqb c "]"%char) inner =? 0)%nat
          then Some (Js.reverse inner) else None
      | _ => None
      end
  | _ => None
  end.

(** [simpleMatch]: the restricted matcher used when css-select throws. *)
Definition simpleMatch (element : DomNode) (selector : string) : bool :=
  if Js.startsWith selector "#" then
    Js.sameOpt (attr element "id") (leadingName (Js.sliceFrom selector 1))
  else if Js.startsWith selector "." then
    hasClass element (leadingName (Js.sliceFrom selector 1))
  else if isBareTag selector then
    isElement element && String.eqb (tagNameOf element) (Js.toLowerCase selector)
  else
    match bracketBody selector with
    | Some body =>
        if Js.includes body "=" then
          match List.map (fun s => removeQuotes (Js.trim s))
                         (Js.split "="%char body) with
          | name :: value :: _ => Js.sameOpt (attr element name) value
          | _ => false
          end
        else
          match attr element body with Some _ => true | None => false end
    | None => false
    end.

(** [matches]: css-select first, the fallback on an exception. *)
Definition matches (selectOne : SelectOne) (position : Path)
           (element : DomNode) (selector : string) : bool :=
  match selectOne position element selector with
  | Some found => found
  | None => simpleMatch element selector
  end.

(** The class [[\s>+~]] of the look-behind in the tag pattern. *)
Definition isBoundary (c : ascii) : bool :=
  Js.isSpace c || existsb (Ascii.eqb c) [">"; "+"; "~"]%char.

(** The number of matches of [/^[a-z]+|(?<=[\s>+~])[a-z]+/gi]: the runs of
    letters that begin the selector or follow a boundary character.
    [atStart] tells whether a run may begin at the head of [s]. *)
Fixpoint countTags (atStart : bool) (s : string) : nat :=
  match s with
  | EmptyString => O
  | String c r =>
      (if atStart && Js.isLetter c then 1 else 0) + countTags (isBoundary c) r
  end.

Definition isHash (c : ascii) : bool := Ascii.eqb c "#"%char.

(** The class [[.:\[]]. *)
Definition isClassLike (c : ascii) : bool :=
  existsb (Ascii.eqb c) ["."; ":"; "["]%char.

(** [getSelectorSpecificity] *)
Definition getSelectorSpecificity (selector : string) : nat :=
  Js.countChars isHash selector * 1000
  + Js.countChars isClassLike selector * 100
  + countTags true selector.

End SelectorMatcher.

(** ** The output document *)

Module Figma.
Import Js.

Record RGBA : Type := mkRGBA { r : num; g : num; b : num; a : num }.

Inductive Paint : Type :=
| Solid (color : RGBA)
| ImageFill (imageHash : string) (scaleMode : string).

Inductive NodeType : Type := FRAME | TEXT | RECTANGLE | VECTOR | GROUP.

Inductive LayoutMode : Type := HORIZONTAL | VERTICAL.

Inductive SizingMode : Type := AUTO.

Inductive LengthUnit : Type := UNIT_AUTO | PIXELS | PERCENT.

Record Measure : Type := mkMeasure { unit : LengthUnit; value : option num }.

Record TextStyle : Type := mkTextStyle {
  fontFamily : string;
  fontSize : num;
  fontWeight : num;
  fontStyle : string;
  lineHeight : Measure;
  letterSpacing : Measure
}.

(** A value of an attribute of parsed vector markup: svg-parser turns
    numeric attribute values into numbers and valueless attributes into
    [true]. *)
Inductive PropValue : Type :=
| PString (s : string)
| PNumber (q : Q)
| PTrue.

Record VectorPath : Type := mkVectorPath { path : PropValue; windingRule : string }.

(** The fields of an output node other than its children.  A field that is
    [None] is absent from the object. *)
Record NodeFields : Type := mkFields {
  name : option string;
  type : NodeType;
  x : option num;
  y : option num;
  width : option num;
  height : option num;
  opacity : option num;
  cornerRadius : option num;
  fills : option (list Paint);
  strokes : option (list Paint);
  strokeWeight : option num;
  layoutMode : option LayoutMode;
  primaryAxisSizingMode : option SizingMode;
  counterAxisSizingMode : option SizingMode;
  itemSpacing : option num;
  paddingTop : option num;
  paddingRight : option num;
  paddingBottom : option num;
  paddingLeft : option num;
  characters : option string;
  style : option TextStyle;
  vectorPaths : option (list VectorPath)
}.

Inductive DesignNode : Type :=
| Node (fields : NodeFields) (children : option (list DesignNode)).

Definition fieldsOf (n : DesignNode) : NodeFields :=
  match n with Node f _ => f end.

Definition childrenOf (n : DesignNode) : list DesignNode :=
  match n with Node _ (Some cs) => cs | Node _ None => [] end.


(** The [characters] carried by the nodes of a tree, in pre-order. *)
Fixpoint textsOf (n : DesignNode) : list string :=
  match n with
  | Node f cs =>
      (match characters f with Some s => [s] | None => [] end)
      ++ match cs with
         | Some l =>
             (fix go (l : list DesignNode) : list string :=
                match l with
                | [] => []
                | c :: r => textsOf c ++ go r
                end) l
         | None => []
         end
  end%list.

End Figma.

(** ** font-manager.ts *)

Module FontManager.
Import Js.

Record FontInfo : Type := mkFontInfo {
  family : string;
  weight : num;
  style : string;
  size : num
}.

Record FigmaFontMapping : Type := mkMapping {
  figmaFamily : string;
  figmaWeight : num;
  figmaStyle : string
}.

(** The table as it is initialised, in the order of its entries. *)
Definition FONT_MAPPING : list (string * string) :=
  [ ("arial", "Arial"); ("helvetica", "Helvetica");
    ("times", "Times New Roman"); ("times new roman", "Times New Roman");
    ("courier", "Courier New"); ("courier new", "Courier New");
    ("verdana", "Verdana"); ("georgia", "Georgia");
    ("palatino", "Palatino"); ("garamond", "Garamond");
    ("bookman", "Bookman"); ("comic sans ms", "Comic Sans MS");
    ("trebuchet ms", "Trebuchet MS"); ("arial black", "Arial Black");
    ("impact", "Impact");
    ("roboto", "Roboto"); ("open sans", "Open Sans"); ("lato", "Lato");
    ("montserrat", "Montserrat"); ("raleway", "Raleway");
    ("poppins", "Poppins"); ("source sans pro", "Source Sans Pro");
    ("oswald", "Oswald"); ("ubuntu", "Ubuntu");
    ("playfair display", "Playfair Display");
    ("merriweather", "Merriweather"); ("pt sans", "PT Sans");
    ("pt serif", "PT Serif"); ("droid sans", "Droid Sans");
    ("droid serif", "Droid Serif");
    ("microsoft yahei", "Microsoft YaHei"); ("simsun", "SimSun");
    ("simhei", "SimHei"); ("kaiti", "KaiTi"); ("fangsong", "FangSong");
    ("pingfang sc", "PingFang SC"); ("hiragino sans gb", "Hiragino Sans GB");
    ("wenquanyi micro hei", "WenQuanYi Micro Hei") ].

Definition FIGMA_FONTS : list string :=
  [ "Arial"; "Helvetica"; "Times New Roman"; "Courier New"; "Verdana";
    "Georgia"; "Roboto"; "Open Sans"; "Lato"; "Montserrat"; "Inter";
    "Poppins"; "Source Sans Pro" ].

(** [fuzzyMatchFont] *)
Definition fuzzyMatchFont (family : string) : option string :=
  match List.find (fun entry => includes family (fst entry)
                                || includes (fst entry) family) FONT_MAPPING with
  | Some (_, figmaFont) => Some figmaFont
  | None =>
      List.find (fun figmaFont =>
                   includes (toLowerCase family) (toLowerCase figmaFont))
                FIGMA_FONTS
  end.

(** The weight computed by [mapToFigmaFont]: clamp, then round to a
    multiple of 100.  Every comparison with [NaN] is false and
    [Math.round(NaN)] is [NaN]. *)
Definition normalizeWeight (w : num) : num :=
  match w with
  | NaN => NaN
  | Num q =>
      let q1 := if lessThan q 100 then 100%Q else q in
      let q2 := if lessThan 900 q1 then 900%Q else q1 in
      Num (inject_Z (mathRound (q2 / 100) * 100))
  | Infinity negative => ofZ (if negative then 100 else 900)
  end.

(** [mapToFigmaFont] *)
Definition mapToFigmaFont (fontInfo : FontInfo) : FigmaFontMapping :=
  let normalizedFamily := trim (toLowerCase (family fontInfo)) in
  let direct :=
    match Dom.assoc normalizedFamily FONT_MAPPING with
    | Some f => if truthy f then Some f else None
    | None => None
    end in
  let fuzzy :=
    match direct with
    | Some f => Some f
    | None => fuzzyMatchFont normalizedFamily
    end in
  {| figmaFamily := orDefault fuzzy "Inter";
     figmaWeight := normalizeWeight (weight fontInfo);
     figmaStyle := if String.eqb (style fontInfo) "italic" then "italic" else "normal" |}.

End FontManager.

(** ** Exceptions

    Code that may throw returns an [Outcome]; [try]/[catch] is a match on
    it. *)

Module Exn.

Inductive Outcome (A : Type) : Type :=
| Returned (a : A)
| Thrown.
Arguments Returned {A} a.
Arguments Thrown {A}.

Definition bind {A B : Type} (c : Outcome A) (k : A -> Outcome B) : Outcome B :=
  match c with
  | Returned a => k a
  | Thrown => Thrown
  end.

Definition tryCatch {A : Type} (c : Outcome A) (handler : A) : A :=
  match c with
  | Returned a => a
  | Thrown => handler
  end.

(** A callback run on the elements of a list, in order; the first
    exception ends the run. *)
Fixpoint mapAll {A B : Type} (f : A -> Outcome B) (items : list A)
  : Outcome (list B) :=
  match items with
  | [] => Returned []
  | a :: rest =>
      bind (f a) (fun b => bind (mapAll f rest) (fun bs => Returned (b :: bs)))
  end.

End Exn.

Notation "'let!' x ':=' c 'in' k" := (Exn.bind c (fun x => k))
  (at level 10, x name, c at level 100, k at level 200).

(** ** svg-converter.ts *)

Module SvgConverter.
Import Js Dom Figma Exn.

(** A node of the tree svg-parser returns.  Only nodes whose [type] is
    ['element'] are looked at. *)
Inductive SvgAst : Type :=
| SvgElement (tagName : option string) (properties : list (string * PropValue))
             (children : list SvgAst)
| SvgOther.

(** The call [parseSVG('<svg>' + $svg.html() + '</svg>')] for an element of
    the document: the [children] of the parsed root, or an exception. *)
Definition ParseSvg : Type := DomNode -> Outcome (list SvgAst).

(** [isSvgElement] *)
Definition isSvgElement (tagName : string) : bool :=
  String.eqb (toLowerCase tagName) "svg".

(** [parseLength] *)
Definition parseLength (value : string) : option num :=
  if isEmpty value then None
  else match parseFloat value with
       | NaN => None
       | Num q => if includes value "%" then None else Some (Num q)
       | Infinity s => if includes value "%" then None else Some (Infinity s)
       end.

Definition namedColors : list (string * RGBA) :=
  [ ("black", mkRGBA (ofZ 0) (ofZ 0) (ofZ 0) (ofZ 1));
    ("white", mkRGBA (ofZ 1) (ofZ 1) (ofZ 1) (ofZ 1));
    ("red", mkRGBA (ofZ 1) (ofZ 0) (ofZ 0) (ofZ 1));
    ("green", mkRGBA (ofZ 0) (ofZ 1) (ofZ 0) (ofZ 1));
    ("blue", mkRGBA (ofZ 0) (ofZ 0) (ofZ 1) (ofZ 1)) ].

(** [match[i]] parsed by [parseInt]; a missing element is [undefined]. *)
Definition intAt (runs : list string) (i : nat) : num :=
  match nth_error runs i with
  | Some s => parseInt false s
  | None => NaN
  end.

(** [parseColor] on a string. *)
Definition parseColorString (color : string) : RGBA :=
  let black := mkRGBA (ofZ 0) (ofZ 0) (ofZ 0) (ofZ 1) in
  if startsWith color "#" then
    let hex := sliceFrom color 1 in
    mkRGBA (divLit (parseInt true (slice hex 0 2)) 255)
           (divLit (parseInt true (slice hex 2 4)) 255)
           (divLit (parseInt true (slice hex 4 6)) 255)
           (if (String.length hex =? 8)%nat
            then divLit (parseInt true (slice hex 6 8)) 255 else ofZ 1)
  else
    match (if startsWith color "rgb" then matchDigits color else []) with
    | (_ :: _) as runs =>
        mkRGBA (divLit (intAt runs 0) 255)
               (divLit (intAt runs 1) 255)
               (divLit (intAt runs 2) 255)
               (match nth_error runs 3 with
                | Some s => parseFloat s
                | None => ofZ 1
                end)
    | [] =>
        match assoc (toLowerCase color) namedColors with
        | Some c => c
        | None => black
        end
    end.

(** [parseColor] on a property of parsed markup: a value that is not a
    string has no method [startsWith], and the call throws. *)
Definition parseColor (color : PropValue) : Outcome RGBA :=
  match color with
  | PString s => Returned (parseColorString s)
  | _ => Thrown
  end.

(** ToBoolean on a property that may be missing. *)
Definition truthyProp (p : option PropValue) : bool :=
  match p with
  | Some (PString s) => truthy s
  | Some (PNumber q) => negb (Qeq_bool q 0)
  | Some PTrue => true
  | None => false
  end.

(** [parseFloat] on a property: the value is first turned into a string. *)
Definition parseFloatProp (p : PropValue) : num :=
  match p with
  | PString s => parseFloat s
  | PNumber q => Num (Qred q)
  | PTrue => NaN
  end.

(** [p ? parseFloat(p) : d] *)
Definition floatOr (p : option PropValue) (d : num) : num :=
  match p with
  | Some v => if truthyProp p then parseFloatProp v else d
  | None => d
  end.

Definition isNone (p : PropValue) : bool :=
  match p with PString s => String.eqb s "none" | _ => false end.

(** The paint set for [fill] or [stroke]: present when the property is
    truthy and is not ['none']. *)
Definition paintOf (p : option PropValue) : Outcome (option (list Paint)) :=
  match p with
  | Some v =>
      if truthyProp p && negb (isNone v)
      then let! c := parseColor v in Returned (Some [Solid c])
      else Returned None
  | None => Returned None
  end.

(** [pathToVectorPath] *)
Definition pathToVectorPath (pathData : PropValue) : VectorPath :=
  mkVectorPath pathData "NONZERO".

(** The fields [convertSvgChildElement] sets on the node of an element, from
    its lower-cased tag name, its properties and the paints found for
    [fill] and [stroke]. *)
Definition childFields (tagName : string) (props : list (string * PropValue))
           (fillPaints strokePaints : option (list Paint)) : NodeFields :=
  let prop := fun k => assoc k props in
  let isRect := String.eqb tagName "rect" in
  let isCircle := String.eqb tagName "circle" in
  let radius := floatOr (prop "r") (ofZ 0) in
  {| name := Some (toUpperCase tagName);
     type := if String.eqb tagName "g" then GROUP else VECTOR;
     x := if isCircle then Some (sub (floatOr (prop "cx") (ofZ 0)) radius)
          else when isRect (floatOr (prop "x") (ofZ 0));
     y := if isCircle then Some (sub (floatOr (prop "cy") (ofZ 0)) radius)
          else when isRect (floatOr (prop "y") (ofZ 0));
     width := if isCircle then Some (mul radius (ofZ 2))
              else when isRect (floatOr (prop "width") (ofZ 0));
     height := if isCircle then Some (mul radius (ofZ 2))
               else when isRect (floatOr (prop "height") (ofZ 0));
     opacity := match prop "opacity" with
                | Some v => when (truthyProp (Some v)) (parseFloatProp v)
                | None => None
                end;
     cornerRadius := None;
     fills := fillPaints;
     strokes := strokePaints;
     strokeWeight := match strokePaints with
                     | Some _ => Some (floatOr (prop "stroke-width") (ofZ 1))
                     | None => None
                     end;
     layoutMode := None;
     primaryAxisSizingMode := None;
     counterAxisSizingMode := None;
     itemSpacing := None;
     paddingTop := None; paddingRight := None;
     paddingBottom := None; paddingLeft := None;
     characters := None;
     style := None;
     vectorPaths := match prop "d" with
                    | Some d => when (String.eqb tagName "path" && truthyProp (Some d))
                                     [pathToVectorPath d]
                    | None => None
                    end |}.

(** [convertSvgChildElement], with the loop of [convertSvgChildren] over
    the children of the element. *)
Fixpoint convertSvgChildElement (element : SvgAst) : Outcome (option DesignNode) :=
  match element with
  | SvgOther => Returned None
  | SvgElement rawTag props kids =>
      let tagName := match rawTag with Some t => toLowerCase t | None => EmptyString end in
      if isEmpty tagName then Returned None
      else
        let! fillPaints := paintOf (assoc "fill" props) in
        let! strokePaints := paintOf (assoc "stroke" props) in
        let fields := childFields tagName props fillPaints strokePaints in
        match kids with
        | [] => Returned (Some (Node fields None))
        | _ :: _ =>
            let! converted :=
              (fix convertSvgChildren (l : list SvgAst) : Outcome (list DesignNode) :=
                 match l with
                 | [] => Returned []
                 | child :: rest =>
                     let! node := convertSvgChildElement child in
                     let! others := convertSvgChildren rest in
                     Returned (match node with
                               | Some n => n :: others
                               | None => others
                               end)
                 end) kids in
            Returned (Some (Node fields (Some converted)))
        end
  end.

(** [convertSvgChildren] *)
Fixpoint convertSvgChildren (l : list SvgAst) : Outcome (list DesignNode) :=
  match l with
  | [] => Returned []
  | child :: rest =>
      let! node := convertSvgChildElement child in
      let! others := convertSvgChildren rest in
      Returned (match node with
                | Some n => n :: others
                | None => others
                end)
  end.

(** [extractPaths]: the [d] attributes of the [path] descendants. *)
Definition extractPaths (svg : DomNode) : list VectorPath :=
  omap (fun el => match attr el "d" with
                  | Some d => when (truthy d) (pathToVectorPath (PString d))
                  | None => None
                  end)
       (findAll "path" svg).

(** [viewBox.split(/\s+|,/).map(parseFloat)], destructured as
    [[x, y, w, h]]; a missing element is [undefined]. *)
Definition viewBoxNumbers (viewBox : string) : list num :=
  List.map parseFloat (splitSpacesOrComma viewBox).

Definition numAt (l : list num) (i : nat) : num :=
  match nth_error l i with Some n => n | None => NaN end.

(** The node returned when the conversion throws. *)
Definition placeholder : DesignNode :=
  Node {| name := Some "SVG"; type := VECTOR;
          x := None; y := None;
          width := Some (ofZ 100); height := Some (ofZ 100);
          opacity := None; cornerRadius := None;
          fills := Some [Solid (mkRGBA (Num (4 # 5)) (Num (4 # 5)) (Num (4 # 5)) (ofZ 1))];
          strokes := None; strokeWeight := None;
          layoutMode := None; primaryAxisSizingMode := None;
          counterAxisSizingMode := None; itemSpacing := None;
          paddingTop := None; paddingRight := None;
          paddingBottom := None; paddingLeft := None;
          characters := None; style := None; vectorPaths := None |}
       None.

(** The body of the [try] block of [convertSvgElement]. *)
Definition convertSvgBody (parseSVG : ParseSvg) (svg : DomNode) : Outcome DesignNode :=
  let! parsed := parseSVG svg in
  let width := parseLength (orDefault (attr svg "width") "100") in
  let height := parseLength (orDefault (attr svg "height") "100") in
  let sized :=
    match width, height with
    | Some w, Some h => truthyNum w && truthyNum h
    | _, _ => false
    end in
  let box :=
    match attr svg "viewBox" with
    | Some vb => if truthy vb then viewBoxNumbers vb else []
    | None => []
    end in
  let boxed := truthyNum (numAt box 2) && truthyNum (numAt box 3) in
  let stroke := attr svg "stroke" in
  let stroked := truthyOpt stroke && negb (String.eqb (default "" stroke) "none") in
  let fill := orDefault (attr svg "fill") "#000000" in
  let! kids := match parsed with
               | [] => Returned []
               | _ :: _ => convertSvgChildren parsed
               end in
  let paths := extractPaths svg in
  Returned
    (Node {| name := Some "SVG"; type := VECTOR;
             x := when boxed (orNum (numAt box 0) (ofZ 0));
             y := when boxed (orNum (numAt box 1) (ofZ 0));
             width := if boxed then Some (numAt box 2)
                      else if sized then width else None;
             height := if boxed then Some (numAt box 3)
                       else if sized then height else None;
             opacity := match attr svg "opacity" with
                        | Some o => when (truthy o) (parseFloat o)
                        | None => None
                        end;
             cornerRadius := None;
             fills := when (negb (String.eqb fill "none"))
                           [Solid (parseColorString fill)];
             strokes := when stroked [Solid (parseColorString (default "" stroke))];
             strokeWeight :=
               when stroked
                    (match attr svg "stroke-width" with
                     | Some sw => if truthy sw then parseFloat sw else ofZ 1
                     | None => ofZ 1
                     end);
             layoutMode := None; primaryAxisSizingMode := None;
             counterAxisSizingMode := None; itemSpacing := None;
             paddingTop := None; paddingRight := None;
             paddingBottom := None; paddingLeft := None;
             characters := None; style := None;
             vectorPaths := match paths with [] => None | _ :: _ => Some paths end |}
          (Some kids)).

(** [convertSvgElement]: [null] for an element that is not [svg]; otherwise
    the converted node, or the placeholder when the body throws. *)
Definition convertSvgElement (parseSVG : ParseSvg) (svg : DomNode) : option DesignNode :=
  if negb (isElement svg && String.eqb (toLowerCase (tagNameOf svg)) "svg") then None
  else Some (tryCatch (convertSvgBody parseSVG svg) placeholder).

End SvgConverter.

(** ** Parsed style sheets

    What css-tree's [parse] returns, as far as [parseCssRules] reads it.
    The [children] of a node are objects of css-tree's class [List], which
    has [forEach] and [map] (the latter giving a [List] again) and no
    [join]. *)

Module CssTree.
Import Exn.

(** The fields [name] and [value] of a node, as strings when present. *)
Record Leaf : Type := mkLeaf { leafName : option string; leafValue : option string }.

(** A child of a rule's prelude: a [Selector] with its children, or any
    other node. *)
Inductive PreludeItem : Type :=
| Selector (parts : list Leaf)
| OtherItem (leaf : Leaf).

(** The [value] of a declaration: a node with [children], or a raw node. *)
Inductive DeclValue : Type :=
| ValueList (items : list Leaf)
| RawValue (leaf : Leaf).

Inductive BlockItem : Type :=
| Declaration (property : string) (value : DeclValue)
| OtherBlockItem.

(** A child of the style sheet: a [Rule], whose prelude may lack [children]
    and whose block may be missing, or any other node. *)
Inductive TopItem : Type :=
| Rule (prelude : option (list PreludeItem)) (block : option (list BlockItem))
| OtherTopItem.

(** The outcome of [parseCss(css)]: the children of the style sheet, when
    it has any, or an exception. *)
Definition Parsed : Type := Outcome (option (list TopItem)).

End CssTree.

(** ** Resources handed to the converter *)

Module Resources.
Import Js.

Inductive ImageData : Type :=
| TextData (base64 : string)
| BufferData (encoded : string).   (* the buffer, by its base64 encoding *)

Record ImageResource : Type := mkImage {
  url : string;
  data : ImageData;
  mimeType : string;
  width : option num;
  height : option num
}.

(** [ImageProcessor.imageToBase64] *)
Definition imageToBase64 (image : ImageResource) : string :=
  match data image with
  | TextData s =>
      if startsWith s "data:" then s
      else "data:" ++ mimeType image ++ ";base64," ++ s
  | BufferData encoded => "data:" ++ mimeType image ++ ";base64," ++ encoded
  end.

Record Viewport : Type := mkViewport { viewportWidth : num; viewportHeight : num }.

End Resources.

(** ** base-converter.ts *)

Module FigmaConverter.
Import Js Dom Figma Exn.

(** A style object: property name to raw value. *)
Abbreviation Styles := (gmap string string).

(** The rule map, in iteration order: selector to declarations. *)
Abbreviation CssRules := (list (string * gmap string string)).

(** [$el.find(selector).first()] for a selector that is not a plain name,
    as css-select answers it: the first selected descendant with its
    position, nothing, or the exception raised for a selector it cannot
    read. *)
Definition SelectFirst : Type :=
  DomNode -> string -> Outcome (option (Path * DomNode)).

(** The state of a converter object during a conversion: the matcher and
    the selection engine of the loaded document, the vector-markup parser,
    and the resources set by [setImageProcessor], [setImages] and
    [setFonts].  [fonts] answers [this.fonts.get(key)] for the key built
    from a family, a weight and a style. *)
Record Converter : Type := mkConverter {
  selectOne : SelectorMatcher.SelectOne;
  selectFirst : SelectFirst;
  parseSVG : SvgConverter.ParseSvg;
  imageProcessor : bool;
  images : gmap string Resources.ImageResource;
  fonts : string -> num -> string -> option FontManager.FontInfo
}.

Record Padding : Type := mkPadding {
  top : num; right : num; bottom : num; left : num
}.

(** The object built by [getLayoutProperties]. *)
Record LayoutProperties : Type := mkLayout {
  propsWidth : option num;
  propsHeight : option num;
  propsLayoutMode : option LayoutMode;
  propsPrimaryAxisSizingMode : option SizingMode;
  propsCounterAxisSizingMode : option SizingMode;
  propsItemSpacing : option num;
  propsPadding : option Padding
}.

(** *** Style sheet to rule map *)

(** [c.name || c.value || ''] *)
Definition nameOrValue (l : CssTree.Leaf) : string :=
  orDefault (CssTree.leafName l) (orDefault (CssTree.leafValue l) "").

(** [c.value || c.name || ''] *)
Definition valueOrName (l : CssTree.Leaf) : string :=
  orDefault (CssTree.leafValue l) (orDefault (CssTree.leafName l) "").

(** [pieces.join(sep)] *)
Fixpoint join (sep : string) (pieces : list string) : string :=
  match pieces with
  | [] => ""
  | [p] => p
  | p :: rest => p ++ sep ++ join sep rest
  end.

(** [list.join(sep)] on a [List] of css-tree: the class has no [join], so
    the call raises a [TypeError], whatever the list holds. *)
Definition listJoin (pieces : list string) (sep : string) : Outcome string :=
  Thrown.

(** [selectorToString] *)
Definition selectorToString (prelude : option (list CssTree.PreludeItem))
  : Outcome string :=
  match prelude with
  | Some items =>
      let! pieces :=
        mapAll (fun item =>
                  match item with
                  | CssTree.Selector parts =>
                      let! names := mapAll (fun c => Returned (nameOrValue c)) parts in
                      listJoin names ""
                  | CssTree.OtherItem l => Returned (nameOrValue l)
                  end) items in
      listJoin pieces " "
  | None => Returned ""
  end.

(** [valueToString] *)
Definition valueToString (value : CssTree.DeclValue) : Outcome string :=
  match value with
  | CssTree.ValueList items =>
      let! pieces := mapAll (fun c => Returned (valueOrName c)) items in
      listJoin pieces " "
  | CssTree.RawValue l => Returned (valueOrName l)
  end.

(** [object[key] = value] for a string [value] on a plain object: the key
    [__proto__] names the prototype, which a string cannot replace, so the
    assignment sets nothing. *)
Definition setProperty (key value : string) (object : Styles) : Styles :=
  if String.eqb key "__proto__" then object else <[key := value]> object.

(** The loop over the children of a block: [declarations[property] = value]
    for each declaration. *)
Fixpoint declare (items : list CssTree.BlockItem) (declarations : Styles)
  : Outcome Styles :=
  match items with
  | [] => Returned declarations
  | CssTree.Declaration property value :: rest =>
      let! text := valueToString value in
      declare rest (setProperty property text declarations)
  | CssTree.OtherBlockItem :: rest => declare rest declarations
  end.

(** The declarations object of one rule. *)
Definition declarationsOf (block : option (list CssTree.BlockItem))
  : Outcome Styles :=
  match block with
  | Some items => declare items ∅
  | None => Returned ∅
  end.

(** [rules.set(selector, declarations)] on an insertion-ordered map: an
    existing key keeps its place and takes the new value. *)
Fixpoint mapSet (selector : string) (declarations : Styles) (rules : CssRules)
  : CssRules :=
  match rules with
  | [] => [(selector, declarations)]
  | (s, d) :: rest =>
      if String.eqb s selector then (s, declarations) :: rest
      else (s, d) :: mapSet selector declarations rest
  end.

(** The body of the callback of [ast.children.forEach] for a [Rule]. *)
Definition addRule (prelude : option (list CssTree.PreludeItem))
           (block : option (list CssTree.BlockItem)) (rules : CssRules)
  : Outcome CssRules :=
  let! selector := selectorToString prelude in
  let! declarations := declarationsOf block in
  Returned (if truthy selector then mapSet selector declarations rules
            else rules).

(** The loop of [parseCssRules] inside its [try]: an exception ends the
    loop, and the map is returned as it stands. *)
Fixpoint addRules (items : list CssTree.TopItem) (rules : CssRules) : CssRules :=
  match items with
  | [] => rules
  | CssTree.Rule prelude block :: rest =>
      match addRule prelude block rules with
      | Returned rules' => addRules rest rules'
      | Thrown => rules
      end
  | CssTree.OtherTopItem :: rest => addRules rest rules
  end.

(** [parseCssRules]: an exception of the parser leaves the map empty. *)
Definition parseCssRules (parsed : CssTree.Parsed) : CssRules :=
  match parsed with
  | Returned (Some items) => addRules items []
  | Returned None => []
  | Thrown => []
  end.

(** *** The cascade *)

(** [matchesSelector] *)
Definition matchesSelector (this : Converter) (position : Path)
           (element : DomNode) (selector : string) : bool :=
  SelectorMatcher.matches (selectOne this) position element selector.

(** One piece of an inline style: [rule.split(':').map(s => s.trim())],
    kept when both the property and the value are non-empty. *)
Definition inlineDeclaration (rule : string) : option (string * string) :=
  match List.map trim (split ":"%char rule) with
  | property :: value :: _ =>
      if truthy property && truthy value then Some (property, value) else None
  | _ => None
  end.

(** The declarations of an inline style, in order. *)
Definition inlineDeclarations (inlineStyle : string) : list (string * string) :=
  omap inlineDeclaration (split ";"%char inlineStyle).

(** [Object.assign(styles, declarations)] for each matching rule, in the
    order of the rule map. *)
Definition applyRules (this : Converter) (position : Path) (element : DomNode)
           (cssRules : CssRules) (styles : Styles) : Styles :=
  fold_left (fun (acc : Styles) rule =>
               if matchesSelector this position element (fst rule)
               then snd rule ∪ acc else acc)
            cssRules styles.

(** [styles[property] = value] for each inline declaration, in order. *)
Definition applyInline (declarations : list (string * string)) (styles : Styles)
  : Styles :=
  fold_left (fun (acc : Styles) d => setProperty (fst d) (snd d) acc)
            declarations styles.

(** [computeStyles] *)
Definition computeStyles (this : Converter) (position : Path) (element : DomNode)
           (cssRules : CssRules) (parentStyles : Styles) : Styles :=
  let styles := applyRules this position element cssRules parentStyles in
  match attr element "style" with
  | Some inlineStyle =>
      if truthy inlineStyle then applyInline (inlineDeclarations inlineStyle) styles
      else styles
  | None => styles
  end.

(** *** Sizes, padding, colours *)

(** [parseSize] *)
Definition parseSize (value : string) (maxSize : num) : num :=
  if endsWith value "px" then parseFloatDouble value
  else if endsWith value "%"
  then toDouble (mul (toDouble (divLit (parseFloatDouble value) 100)) maxSize)
  else if endsWith value "rem" || endsWith value "em"
  then toDouble (mul (parseFloatDouble value) (ofZ 16))
  else orNum (parseFloatDouble value) (ofZ 0).

(** [padding.split(/\s+/).map((v) => parseFloat(v))] *)
Definition paddingValues (padding : string) : list num :=
  List.map parseFloat (splitSpaces padding).

(** [parsePadding] *)
Definition parsePadding (padding : string) : Padding :=
  match paddingValues padding with
  | [v0] => mkPadding v0 v0 v0 v0
  | [v0; v1] => mkPadding v0 v1 v0 v1
  | [v0; v1; v2; v3] => mkPadding v0 v1 v2 v3
  | _ => mkPadding (ofZ 0) (ofZ 0) (ofZ 0) (ofZ 0)
  end.

(** [colorToFigma] *)
Definition colorToFigma (color : string) : RGBA :=
  if startsWith color "#" then
    let hex := sliceFrom color 1 in
    mkRGBA (divLit (parseInt true (slice hex 0 2)) 255)
           (divLit (parseInt true (slice hex 2 4)) 255)
           (divLit (parseInt true (slice hex 4 6)) 255)
           (if (String.length hex =? 8)%nat
            then divLit (parseInt true (slice hex 6 8)) 255 else ofZ 1)
  else
    match (if startsWith color "rgb" then matchDigits color else []) with
    | (_ :: _) as found =>
        mkRGBA (divLit (SvgConverter.intAt found 0) 255)
               (divLit (SvgConverter.intAt found 1) 255)
               (divLit (SvgConverter.intAt found 2) 255)
               (match nth_error found 3 with
                | Some s => parseFloat s
                | None => ofZ 1
                end)
    | [] => mkRGBA (ofZ 0) (ofZ 0) (ofZ 0) (ofZ 1)
    end.

(** *** Layout *)

(** [getLayoutProperties] *)
Definition getLayoutProperties (styles : Styles) (viewport : Resources.Viewport)
  : LayoutProperties :=
  let flex := String.eqb (orDefault (styles !! "display") "block") "flex" in
  {| propsWidth :=
       match styles !! "width" with
       | Some w => when (truthy w) (parseSize w (Resources.viewportWidth viewport))
       | None => None
       end;
     propsHeight :=
       match styles !! "height" with
       | Some h => when (truthy h) (parseSize h (Resources.viewportHeight viewport))
       | None => None
       end;
     propsLayoutMode :=
       when flex
         (if sameOpt (styles !! "flexDirection") "column"
          then VERTICAL else HORIZONTAL);
     propsPrimaryAxisSizingMode := when flex AUTO;
     propsCounterAxisSizingMode := when flex AUTO;
     propsItemSpacing :=
       match styles !! "gap" with
       | Some gap => when (flex && truthy gap) (parseFloat gap)
       | None => None
       end;
     propsPadding :=
       match styles !! "padding" with
       | Some p => when (truthy p) (parsePadding p)
       | None => None
       end |}.

(** [getElementType] *)
Definition getElementType (tagName : string) : NodeType :=
  if SvgConverter.isSvgElement tagName then VECTOR
  else if existsb (String.eqb tagName)
                  ["h1"; "h2"; "h3"; "h4"; "h5"; "h6"; "p"; "span"; "a"; "label"]
       then TEXT
  else if String.eqb tagName "img" then RECTANGLE
  else FRAME.

(** *** Text style *)

(** [parseFontWeight] *)
Definition parseFontWeight (weight : option string) : num :=
  match weight with
  | Some w =>
      if isEmpty w then ofZ 400
      else match parseInt false w with
           | Num q => Num q
           | NaN =>
               match assoc (toLowerCase w)
                           [("normal", 400%Z); ("bold", 700%Z);
                            ("lighter", 300%Z); ("bolder", 700%Z)] with
               | Some z => ofZ z
               | None => ofZ 400
               end
           | Infinity s => Infinity s
           end
  | None => ofZ 400
  end.

(** [parseLineHeight] *)
Definition parseLineHeight (height : option string) : Measure :=
  match height with
  | Some h =>
      if isEmpty h || String.eqb h "normal" then mkMeasure UNIT_AUTO None
      else if endsWith h "px" then mkMeasure PIXELS (Some (parseFloat h))
      else mkMeasure PERCENT (Some (mul (parseFloat h) (ofZ 100)))
  | None => mkMeasure UNIT_AUTO None
  end.

(** [parseLetterSpacing] *)
Definition parseLetterSpacing (spacing : option string) : Measure :=
  match spacing with
  | Some s =>
      if isEmpty s then mkMeasure PIXELS (Some (ofZ 0))
      else mkMeasure PIXELS (Some (orNum (parseFloat s) (ofZ 0)))
  | None => mkMeasure PIXELS (Some (ofZ 0))
  end.

(** [getTextStyle] *)
Definition getTextStyle (this : Converter) (styles : Styles) : TextStyle :=
  let family := orDefault (styles !! "fontFamily") "Inter" in
  let weight := parseFontWeight (styles !! "fontWeight") in
  let slant := orDefault (styles !! "fontStyle") "normal" in
  let size := orNum (parseFloatOpt (styles !! "fontSize")) (ofZ 16) in
  let fontInfo :=
    match fonts this family weight slant with
    | Some known => known
    | None => FontManager.mkFontInfo family weight slant size
    end in
  let mapping := FontManager.mapToFigmaFont fontInfo in
  {| fontFamily := FontManager.figmaFamily mapping;
     fontSize := size;
     fontWeight := FontManager.figmaWeight mapping;
     fontStyle := FontManager.figmaStyle mapping;
     lineHeight := parseLineHeight (styles !! "lineHeight");
     letterSpacing := parseLetterSpacing (styles !! "letterSpacing") |}.

(** *** Images *)

(** [n || d] where [n] is a possibly undefined number. *)
Definition numOr (n : option num) (d : num) : num :=
  match n with Some v => orNum v d | None => d end.

(** [createImageNode] *)
Definition createImageNode (this : Converter) (img : DomNode)
           (image : Resources.ImageResource) (styles : Styles) (viewport : Resources.Viewport)
  : DesignNode :=
  let base64 := if imageProcessor this then Resources.imageToBase64 image else "" in
  Node {| name := Some (orDefault (attr img "alt") "Image");
          type := RECTANGLE;
          x := None; y := None;
          width := Some (numOr (Resources.width image)
                               (parseSize (orDefault (attr img "width") "100")
                                          (Resources.viewportWidth viewport)));
          height := Some (numOr (Resources.height image)
                                (parseSize (orDefault (attr img "height") "100")
                                           (Resources.viewportHeight viewport)));
          opacity := Some (match styles !! "opacity" with
                           | Some o => if truthy o then parseFloat o else ofZ 1
                           | None => ofZ 1
                           end);
          cornerRadius := None;
          fills := Some [ImageFill base64 "FILL"];
          strokes := None; strokeWeight := None;
          layoutMode := None; primaryAxisSizingMode := None;
          counterAxisSizingMode := None; itemSpacing := None;
          paddingTop := None; paddingRight := None;
          paddingBottom := None; paddingLeft := None;
          characters := None; style := None; vectorPaths := None |}
       None.

(** The image resource used for an [img] element, when its [src] is
    non-empty and known. *)
Definition imageFor (this : Converter) (element : DomNode) : option Resources.ImageResource :=
  match attr element "src" with
  | Some src => if truthy src then images this !! src else None
  | None => None
  end.

(** *** The tree builder *)

Definition skippedTags : list string :=
  ["script"; "style"; "meta"; "link"; "title"; "head"].

Definition isSkipped (tagName : string) : bool :=
  existsb (String.eqb tagName) skippedTags.

Definition isText (t : NodeType) : bool :=
  match t with TEXT => true | _ => false end.

(** The text node synthesized for an element without converted children. *)
Definition textChild (this : Converter) (content : string) (styles : Styles)
  : DesignNode :=
  Node {| name := None; type := TEXT;
          x := None; y := None; width := None; height := None;
          opacity := None; cornerRadius := None;
          fills := None; strokes := None; strokeWeight := None;
          layoutMode := None; primaryAxisSizingMode := None;
          counterAxisSizingMode := None; itemSpacing := None;
          paddingTop := None; paddingRight := None;
          paddingBottom := None; paddingLeft := None;
          characters := Some content;
          style := Some (getTextStyle this styles);
          vectorPaths := None |}
       None.

(** [children.filter((c) => c.type === 'TEXT').map((c) => c.characters).join('')] *)
Definition mergedCharacters (children : list DesignNode) : string :=
  join "" (List.map (fun c => default "" (characters (fieldsOf c)))
                    (List.filter (fun c => isText (type (fieldsOf c))) children)).

(** The node assembled at the end of [convertElement] from the tag name,
    the computed styles and the converted children. *)
Definition assemble (tagName : string) (styles : Styles) (viewport : Resources.Viewport)
           (children : list DesignNode) : DesignNode :=
  let nodeType := getElementType tagName in
  let props := getLayoutProperties styles viewport in
  let hasChildren := match children with [] => false | _ :: _ => true end in
  Node {| name := Some tagName;
          type := nodeType;
          x := None; y := None;
          width := propsWidth props;
          height := propsHeight props;
          opacity := match styles !! "opacity" with
                     | Some o => Some (parseFloat o)
                     | None => None
                     end;
          cornerRadius := match styles !! "borderRadius" with
                          | Some radius => when (truthy radius) (parseFloat radius)
                          | None => None
                          end;
          fills :=
            if truthyOpt (styles !! "color") && isText nodeType
            then Some [Solid (colorToFigma (default "" (styles !! "color")))]
            else if truthyOpt (styles !! "backgroundColor")
            then Some [Solid (colorToFigma (default "" (styles !! "backgroundColor")))]
            else None;
          strokes := None; strokeWeight := None;
          layoutMode := propsLayoutMode props;
          primaryAxisSizingMode := propsPrimaryAxisSizingMode props;
          counterAxisSizingMode := propsCounterAxisSizingMode props;
          itemSpacing := propsItemSpacing props;
          paddingTop := top <$> propsPadding props;
          paddingRight := right <$> propsPadding props;
          paddingBottom := bottom <$> propsPadding props;
          paddingLeft := left <$> propsPadding props;
          characters := when (hasChildren && isText nodeType)
                             (mergedCharacters children);
          style := None; vectorPaths := None |}
       (when (hasChildren && negb (isText nodeType)) children).

(** [{...svgNode, name: id || class || 'SVG'}] *)
Definition renamed (svgNode : DesignNode) (element : DomNode) : DesignNode :=
  match svgNode with
  | Node f cs =>
      let label := orDefault (attr element "id")
                             (orDefault (attr element "class") "SVG") in
      Node {| name := Some label; type := type f;
              x := x f; y := y f; width := width f; height := height f;
              opacity := opacity f; cornerRadius := cornerRadius f;
              fills := fills f; strokes := strokes f;
              strokeWeight := strokeWeight f;
              layoutMode := layoutMode f;
              primaryAxisSizingMode := primaryAxisSizingMode f;
              counterAxisSizingMode := counterAxisSizingMode f;
              itemSpacing := itemSpacing f;
              paddingTop := paddingTop f; paddingRight := paddingRight f;
              paddingBottom := paddingBottom f; paddingLeft := paddingLeft f;
              characters := characters f; style := Figma.style f;
              vectorPaths := vectorPaths f |} cs
  end.

(** [convertElement].  [position] is the place of the element in the
    document; the element children are visited in order, the [i]-th one at
    [position ++ [i]]. *)
Fixpoint convertElement (this : Converter) (cssRules : CssRules)
         (viewport : Resources.Viewport) (position : Path) (element : DomNode)
         (parentStyles : Styles) {struct element} : option DesignNode :=
  match element with
  | Element rawTag _ childNodes =>
      if negb (isTagKind element) then None
      else
        let tagName := toLowerCase rawTag in
        let computedStyles :=
          computeStyles this position element cssRules parentStyles in
        if isSkipped tagName then None
        else if SvgConverter.isSvgElement tagName then
          match SvgConverter.convertSvgElement (parseSVG this) element with
          | Some svgNode => Some (renamed svgNode element)
          | None => None
          end
        else
          match (if String.eqb tagName "img" then imageFor this element else None) with
          | Some image =>
              Some (createImageNode this element image computedStyles viewport)
          | None =>
              let converted :=
                (fix visit (l : list DomNode) (i : nat) : list DesignNode :=
                   match l with
                   | [] => []
                   | child :: rest =>
                       match child with
                       | Element _ _ _ =>
                           match convertElement this cssRules viewport
                                                (position ++ [i])%list child
                                                computedStyles with
                           | Some node => node :: visit rest (S i)
                           | None => visit rest (S i)
                           end
                       | _ => visit rest i
                       end
                   end) childNodes O in
              let content := trim (text element) in
              let children :=
                match converted with
                | [] => if truthy content
                        then [textChild this content computedStyles] else []
                | _ :: _ => converted
                end in
              Some (assemble tagName computedStyles viewport children)
          end
  | _ => None
  end.

(** The loop of [convertElement] over the element children, from index
    [i] on. *)
Fixpoint convertChildren (this : Converter) (cssRules : CssRules)
         (viewport : Resources.Viewport) (position : Path) (computedStyles : Styles)
         (l : list DomNode) (i : nat) : list DesignNode :=
  match l with
  | [] => []
  | child :: rest =>
      match child with
      | Element _ _ _ =>
          match convertElement this cssRules viewport (position ++ [i])%list
                               child computedStyles with
          | Some node =>
              node :: convertChildren this cssRules viewport position
                                      computedStyles rest (S i)
          | None =>
              convertChildren this cssRules viewport position computedStyles
                              rest (S i)
          end
      | _ => convertChildren this cssRules viewport position computedStyles rest i
      end
  end.

(** *** The document *)

(** [extractStyles]: one colour style per rule that declares a non-empty
    [color], keyed by the selector. *)
Definition extractStyles (cssRules : CssRules) : list (string * RGBA) :=
  omap (fun rule =>
          match snd rule !! "color" with
          | Some c => when (truthy c) (fst rule, colorToFigma c)
          | None => None
          end) cssRules.

(** What [htmlToFigma] returns, as far as it depends on the input: the
    children of the one canvas and the colour styles. *)
Record Document : Type := mkDocument {
  canvasChildren : list DesignNode;
  colorStyles : list (string * RGBA)
}.

(** [body.find(child.tagName)]: the tag name is read as a selector.  A
    plain name selects the descendants so named; any other name is left to
    the selection engine. *)
Definition findByTagName (this : Converter) (body : DomNode) (tagName : string)
  : Outcome (option (Path * DomNode)) :=
  if isPlainName tagName then Returned (findFirst tagName body)
  else selectFirst this body tagName.

(** The node pushed for one child of [body]: the conversion of
    [body.find(child.tagName).first()]. *)
Definition convertTopLevel (this : Converter) (cssRules : CssRules)
           (viewport : Resources.Viewport) (body child : DomNode)
  : Outcome (option DesignNode) :=
  if isTagKind child then
    let! hit := findByTagName this body (tagNameOf child) in
    Returned match hit with
             | Some (position, found) =>
                 convertElement this cssRules viewport position found ∅
             | None => None
             end
  else Returned None.

(** [htmlToFigma], from the loaded document on: [body] is the result of
    [$('body')], [None] when it is empty.  An exception of the selection
    engine is not caught. *)
Definition htmlToFigma (this : Converter) (body : option DomNode)
           (parsedCss : CssTree.Parsed) (viewport : Resources.Viewport)
  : Outcome Document :=
  let cssRules := parseCssRules parsedCss in
  let! pushed :=
    match body with
    | Some b => mapAll (convertTopLevel this cssRules viewport b) (children b)
    | None => Returned []
    end in
  Returned {| canvasChildren := omap id pushed;
              colorStyles := extractStyles cssRules |}.

End FigmaConverter.

(** ** The image processor (class [ImageProcessor]): data addresses and
    file names *)

Module ImageProcessor.
Import Js Resources.

(** The characters [.] does not match in a regular expression, among the
    code units below 256. *)
Definition isLineTerminator (c : ascii) : bool :=
  (code c =? 10)%nat || (code c =? 13)%nat.

(** [dataUrl.match(/^data:([^;]+);base64,(.+)$/)]: the two groups of the
    match.  The first group runs to the first semicolon, the second to the
    end of the string. *)
Definition matchDataUrl (dataUrl : string) : option (string * string) :=
  if startsWith dataUrl "data:" then
    let '(mimeType, rest) :=
      span (fun c => negb (Ascii.eqb c ";"%char)) (sliceFrom dataUrl 5) in
    if isEmpty mimeType then None
    else if startsWith rest ";base64," then
      let base64Data := sliceFrom rest 8 in
      if isEmpty base64Data then None
      else if (countChars isLineTerminator base64Data =? 0)%nat
           then Some (mimeType, base64Data)
           else None
    else None
  else None.

(** [processDataUrl] *)
Definition processDataUrl (dataUrl : string) : option ImageResource :=
  match matchDataUrl dataUrl with
  | Some (mimeType, base64Data) =>
      Some {| url := dataUrl; data := TextData base64Data;
              mimeType := mimeType; width := None; height := None |}
  | None => None
  end.

(** ToInt32 on an integer. *)
Definition toInt32 (z : Z) : Z := ((z + 2 ^ 31) mod 2 ^ 32 - 2 ^ 31)%Z.

(** One round of the loop of [hashUrl]:
    [hash = (hash << 5) - hash + char; hash = hash & hash]. *)
Definition hashStep (hash : Z) (char : ascii) : Z :=
  let shifted := toInt32 (Z.shiftl (toInt32 hash) 5) in
  toInt32 (shifted - hash + Z.of_nat (code char)).

Fixpoint hashLoop (hash : Z) (url : string) : Z :=
  match url with
  | EmptyString => hash
  | String char rest => hashLoop (hashStep hash char) rest
  end.

(** The digit of a value below 36, as [toString(36)] writes it. *)
Definition digit36 (d : Z) : ascii :=
  if (d <? 10)%Z then ascii_of_nat (48 + Z.to_nat d)
  else ascii_of_nat (87 + Z.to_nat d).

(** The digits of [n] in base 36 before [acc]; every round divides [n] by
    36, and [fuel] bounds the number of rounds. *)
Fixpoint toBase36 (fuel : nat) (n : Z) (acc : string) : string :=
  match fuel with
  | O => acc
  | S fuel' =>
      let acc' := String (digit36 (n mod 36)) acc in
      if (n <? 36)%Z then acc' else toBase36 fuel' (n / 36) acc'
  end.

(** [n.toString(36)] for an integer [n >= 0]: the number of binary digits
    of [n] is fuel enough. *)
Definition toString36 (n : Z) : string :=
  toBase36 (S (Z.to_nat (Z.log2 n))) n EmptyString.

(** [hashUrl] *)
Definition hashUrl (url : string) : string :=
  toString36 (Z.abs (hashLoop 0 url)).

End ImageProcessor.

(** ** h2d-format.ts: the captured-page format *)

Module H2DFormat.
Import Js Dom Exn.

(** A value as [JSON.parse] returns it.  The members of an object are its
    own properties. *)
Inductive Json : Type :=
| JNull
| JBool (b : bool)
| JNumber (n : num)
| JString (s : string)
| JArray (items : list Json)
| JObject (members : list (string * Json)).

(** [typeof v]; [None] is [undefined]. *)
Definition typeOf (v : option Json) : string :=
  match v with
  | None => "undefined"
  | Some JNull => "object"
  | Some (JBool _) => "boolean"
  | Some (JNumber _) => "number"
  | Some (JString _) => "string"
  | Some (JArray _) => "object"
  | Some (JObject _) => "object"
  end.

Definition isArray (v : option Json) : bool :=
  match v with Some (JArray _) => true | _ => false end.

(** [v.key] for one of the names the validator reads: a type error on
    [null] and [undefined], the own property of an object, and [undefined]
    on every other value. *)
Definition member (v : option Json) (key : string) : Outcome (option Json) :=
  match v with
  | None => Thrown
  | Some JNull => Thrown
  | Some (JObject members) => Returned (assoc key members)
  | Some _ => Returned None
  end.

(** [a && b] on conditions that may throw: [b] is evaluated only when [a]
    is true. *)
Definition andAlso (a b : Outcome bool) : Outcome bool :=
  let! x := a in if x then b else Returned false.

Infix "&&&" := andAlso (at level 40, left associativity).

(** [typeof v.key === type] *)
Definition memberHasType (v : option Json) (key type : string) : Outcome bool :=
  let! m := member v key in Returned (String.eqb (typeOf m) type).

(** [typeof v.outer.key === type] *)
Definition innerHasType (v : option Json) (outer key type : string) : Outcome bool :=
  let! o := member v outer in memberHasType o key type.

(** [Array.isArray(v.outer.key)] *)
Definition innerIsArray (v : option Json) (outer key : string) : Outcome bool :=
  let! o := member v outer in
  let! m := member o key in Returned (isArray m).

(** [validateH2DFile] *)
Definition validateH2DFile (data : Json) : Outcome bool :=
  let d := Some data in
  Returned (String.eqb (typeOf d) "object")
  &&& memberHasType d "version" "string"
  &&& memberHasType d "html" "string"
  &&& memberHasType d "css" "string"
  &&& memberHasType d "resources" "object"
  &&& memberHasType d "viewport" "object"
  &&& memberHasType d "metadata" "object"
  &&& innerIsArray d "resources" "images"
  &&& innerIsArray d "resources" "fonts"
  &&& innerHasType d "viewport" "width" "number"
  &&& innerHasType d "viewport" "height" "number"
  &&& innerHasType d "metadata" "url" "string"
  &&& innerHasType d "metadata" "timestamp" "string".

Record H2DViewport : Type := mkH2DViewport {
  viewportWidth : num;
  viewportHeight : num;
  deviceScaleFactor : option num
}.

Definition viewportJson (viewport : H2DViewport) : Json :=
  JObject ([("width", JNumber (viewportWidth viewport));
            ("height", JNumber (viewportHeight viewport))]
           ++ match deviceScaleFactor viewport with
              | Some f => [("deviceScaleFactor", JNumber f)]
              | None => []
              end).

(** [createDefaultH2DFile]; [timestamp] is the time of the call as
    [new Date().toISOString()] writes it. *)
Definition createDefaultH2DFile (url : string) (viewport : H2DViewport)
           (timestamp : string) : Json :=
  JObject
    [ ("version", JString "1.0");
      ("html", JString "");
      ("css", JString "");
      ("resources", JObject [ ("images", JArray []); ("fonts", JArray []);
                              ("stylesheets", JArray []); ("scripts", JArray []) ]);
      ("viewport", viewportJson viewport);
      ("metadata", JObject [ ("url", JString url);
                             ("timestamp", JString timestamp);
                             ("theme", JString "light") ]) ].

End H2DFormat.

(** ** The converter of code (class [CodeToFigmaConverter]) *)

Module CodeToFigmaConverter.
Import Js.

(** The line feed and the double quote of the template. *)
Definition newline : string := String (ascii_of_nat 10) EmptyString.
Definition quote : string := String (ascii_of_nat 34) EmptyString.

(** The first occurrence of [pattern] in [s]: what precedes it and what
    follows it. *)
Fixpoint findFirst (pattern s : string) : option (string * string) :=
  if String.prefix pattern s then Some (EmptyString, sliceFrom s (String.length pattern))
  else match s with
       | EmptyString => None
       | String c r =>
           match findFirst pattern r with
           | Some (before, after) => Some (String c before, after)
           | None => None
           end
       end.

(** The replacement text of [s.replace(pattern, replacement)] for a string
    pattern: [$$] is a dollar sign, [$&] the match, [$`] what precedes it
    and [$'] what follows it; every other character stands for itself. *)
Fixpoint substitute (replacement matched before after : string) : string :=
  match replacement with
  | EmptyString => EmptyString
  | String c tail =>
      if Ascii.eqb c "$"%char then
        match tail with
        | String d r =>
            if Ascii.eqb d "$"%char then String "$" (substitute r matched before after)
            else if Ascii.eqb d "&"%char then matched ++ substitute r matched before after
            else if Ascii.eqb d "`"%char then before ++ substitute r matched before after
            else if Ascii.eqb d "'"%char then after ++ substitute r matched before after
            else String c (substitute tail matched before after)
        | EmptyString => String c EmptyString
        end
      else String c (substitute tail matched before after)
  end.

(** [s.replace(pattern, replacement)] for a string pattern: the first
    occurrence only. *)
Definition replace (s pattern replacement : string) : string :=
  match findFirst pattern s with
  | Some (before, after) =>
      before ++ substitute replacement pattern before after ++ after
  | None => s
  end.

(** [combineHtmlAndCss] *)
Definition combineHtmlAndCss (html css : string) : string :=
  if includes html "<html" || includes html "<!DOCTYPE" then
    if truthy css && negb (includes html "<style>") then
      let styleTag := "<style>" ++ newline ++ css ++ newline ++ "</style>" in
      if includes html "<head>" then
        replace html "</head>" (styleTag ++ newline ++ "</head>")
      else
        replace html "<html" ("<html><head>" ++ styleTag ++ "</head>")
    else html
  else
    "<!DOCTYPE html>" ++ newline
    ++ "<html>" ++ newline
    ++ "<head>" ++ newline
    ++ "  <meta charset=" ++ quote ++ "UTF-8" ++ quote ++ ">" ++ newline
    ++ "  <style>" ++ newline
    ++ css ++ newline
    ++ "  </style>" ++ newline
    ++ "</head>" ++ newline
    ++ "<body>" ++ newline
    ++ html ++ newline
    ++ "</body>" ++ newline
    ++ "</html>".

End CodeToFigmaConverter.

(** ** The capture script of the extension *)

Module CaptureScript.
Import Js Dom.

(** The match of [/data:([^;]+);/] that begins at the head of [s]: its
    group. *)
Definition mimeAt (s : string) : option string :=
  if String.prefix "data:" s then
    let '(mimeType, rest) :=
      span (fun c => negb (Ascii.eqb c ";"%char)) (sliceFrom s 5) in
    if isEmpty mimeType then None
    else if String.prefix ";" rest then Some mimeType else None
  else None.

(** [url.match(/data:([^;]+);/)]: the group of the leftmost match. *)
Fixpoint firstMime (s : string) : option string :=
  match mimeAt s with
  | Some mimeType => Some mimeType
  | None =>
      match s with
      | EmptyString => None
      | String _ r => firstMime r
      end
  end.

Definition mimeTypes : list (string * string) :=
  [ ("jpg", "image/jpeg"); ("jpeg", "image/jpeg"); ("png", "image/png");
    ("gif", "image/gif"); ("svg", "image/svg+xml"); ("webp", "image/webp") ].

(** The names in lower case that the table, an object literal, inherits. *)
Definition inheritedNames : list string := ["constructor"; "__proto__"].

(** What [getMimeType] returns: a string, or the inherited member the
    table gives for an extension that is an inherited name. *)
Inductive MimeType : Type :=
| Text (mimeType : string)
| Inherited (name : string).

(** [url.split('.').pop()] *)
Definition lastPiece (url : string) : string :=
  List.last (split "."%char url) EmptyString.

(** [getMimeType] *)
Definition getMimeType (url : string) : MimeType :=
  if startsWith url "data:" then
    match firstMime url with
    | Some mimeType => Text mimeType
    | None => Text "image/png"
    end
  else
    let ext := toLowerCase (lastPiece url) in
    match assoc ext mimeTypes with
    | Some mimeType => Text mimeType
    | None =>
        if existsb (String.eqb ext) inheritedNames then Inherited ext
        else Text "image/png"
    end.

End CaptureScript.

(** * Statements

    The notions the properties below are stated with, and the inputs of
    their examples. *)

Module Statements.
Import Js Dom Figma Exn FigmaConverter SvgConverter.

(** The weight after the two guards of [mapToFigmaFont]. *)
Definition clampWeight (q : Q) : Q :=
  let q1 := if lessThan q 100 then 100%Q else q in
  if lessThan 900 q1 then 900%Q else q1.

(** A value of a shorthand: non-empty and free of white space. *)
Definition isValue (s : string) : bool :=
  truthy s && (countChars isSpace s =? 0)%nat.

(** The padding the shorthand rules give for a list of values. *)
Definition expand (values : list num) : Padding :=
  match values with
  | [all] => mkPadding all all all all
  | [vertical; horizontal] => mkPadding vertical horizontal vertical horizontal
  | [t; r; b; l] => mkPadding t r b l
  | _ => mkPadding (ofZ 0) (ofZ 0) (ofZ 0) (ofZ 0)
  end.

(** A run of white space, possibly empty. *)
Definition isBlank (s : string) : bool :=
  (countChars (fun c => negb (isSpace c)) s =? 0)%nat.

(** What separates two values: a run of white space that is not empty. *)
Definition isGap (s : string) : bool := truthy s && isBlank s.

(** The tabulator. *)
Definition tab : string := String "009"%char EmptyString.

(** A shorthand written out: the first value, and every further value
    after its gap. *)
Fixpoint spaced (first : string) (rest : list (string * string)) : string :=
  match rest with
  | [] => first
  | (gap, value) :: more => first ++ gap ++ spaced value more
  end.

(** The piece cut at an end of the shorthand: none when the text ends
    with a value, and otherwise an empty one. *)
Definition edgePiece (blank : string) : list string :=
  if isEmpty blank then [] else [EmptyString].

(** What is read at an end of the shorthand: nothing when the text ends
    with a value, and otherwise one more piece, which is empty and reads as
    [NaN]. *)
Definition edge (blank : string) : list num :=
  if isEmpty blank then [] else [NaN].

Definition opaqueBlack : RGBA := mkRGBA (ofZ 0) (ofZ 0) (ofZ 0) (ofZ 1).

(** The declarations of the element's own [style] attribute. *)
Definition inlineOf (element : DomNode) : list (string * string) :=
  match attr element "style" with
  | Some inlineStyle => inlineDeclarations inlineStyle
  | None => []
  end.

(** The reading of the cascade under which specificity decides: a matched
    rule that declares [p] and whose selector is strictly more specific
    than that of every other matched rule declaring [p] gives the resolved
    value of [p], unless the inline style declares [p]. *)
Definition specificityDecides (this : Converter) (position : Path)
           (element : DomNode) (cssRules : CssRules) (parentStyles : Styles)
  : Prop :=
  forall selector declarations p v,
    In (selector, declarations) cssRules ->
    matchesSelector this position element selector = true ->
    declarations !! p = Some v ->
    (forall selector' declarations' v',
        In (selector', declarations') cssRules ->
        matchesSelector this position element selector' = true ->
        declarations' !! p = Some v' ->
        selector' <> selector ->
        (SelectorMatcher.getSelectorSpecificity selector'
         < SelectorMatcher.getSelectorSpecificity selector)%nat) ->
    (forall v', ~ In (p, v') (inlineOf element)) ->
    computeStyles this position element cssRules parentStyles !! p = Some v.

(** A converter without resources, for which css-select throws on every
    selector, so that the restricted matcher decides.  On the selectors of
    the examples below (an id, a class, a tag name) css-select's own answer
    is the same; the tag names of the examples are plain names. *)
Definition plainConverter : Converter :=
  mkConverter (fun _ _ _ => None) (fun _ _ => Thrown) (fun _ => Thrown) false ∅
              (fun _ _ _ => None).

(** The element [<div id="a">] and the rules [#a {color: red}],
    [div {color: blue}], in that order. *)
Definition divA : DomNode := Element "div" [("id", "a")] [].

Definition idThenTag : CssRules :=
  [("#a", {["color" := "red"]}); ("div", {["color" := "blue"]})].

(** The same rules the other way round. *)
Definition tagThenId : CssRules :=
  [("div", {["color" := "blue"]}); ("#a", {["color" := "red"]})].

(** [<div id="a" style="color: green">] under rules that set [color]. *)
Definition divGreen : DomNode :=
  Element "div" [("id", "a"); ("style", "color: green")] [].

(** [<div style="background:url(http://x/y.png)">] *)
Definition urlDiv : DomNode :=
  Element "div" [("style", "background:url(http://x/y.png)")] [].

Definition viewport1000 : Resources.Viewport :=
  Resources.mkViewport (ofZ 1000) (ofZ 800).

(** The auto-layout fields of a converted element. *)
Definition autoLayoutOf (converted : option DesignNode)
  : option (option LayoutMode * option SizingMode * option SizingMode * option num) :=
  match converted with
  | Some n =>
      let f := fieldsOf n in
      Some (layoutMode f, primaryAxisSizingMode f, counterAxisSizingMode f,
            itemSpacing f)
  | None => None
  end.

(** [<div style="display:flex; flex-direction:column; gap:10px">] *)
Definition flexColumnInline : DomNode :=
  Element "div" [("style", "display:flex; flex-direction:column; gap:10px")] [].

(** [<div class="box">], under a rule map with the one rule
    [div { display: flex; flex-direction: column; gap: 10 }]. *)
Definition flexColumnPlain : DomNode := Element "div" [("class", "box")] [].

Definition flexColumnRules : CssRules :=
  [("div", {["display" := "flex"; "flex-direction" := "column"; "gap" := "10"]})].

(** [<div style="display:flex; flexDirection:column">], with the key the
    code reads. *)
Definition flexColumnCamel : DomNode :=
  Element "div" [("style", "display:flex; flexDirection:column")] [].

(** A converter that knows the image [a.png], of unknown size, and whose
    parser of vector markup finds no element. *)
Definition pictureConverter : Converter :=
  mkConverter (fun _ _ _ => None) (fun _ _ => Thrown) (fun _ => Returned []) false
              {["a.png" := Resources.mkImage "a.png" (Resources.TextData "")
                                             "image/png" None None]}
              (fun _ _ _ => None).


(** The tag name [convertSvgChildElement] works with. *)
Definition loweredTag (rawTag : option string) : string :=
  match rawTag with Some t => toLowerCase t | None => EmptyString end.

(** A paint property whose value makes [parseColor] throw: truthy and not a
    string. *)
Definition badPaint (p : option PropValue) : bool :=
  match p with
  | Some (PNumber q) => negb (Qeq_bool q 0)
  | Some PTrue => true
  | _ => false
  end.

(** An element of the parsed markup on which the conversion throws, at the
    element itself or somewhere below it. *)
Inductive Raises : SvgAst -> Prop :=
| raises_here rawTag props kids :
    isEmpty (loweredTag rawTag) = false ->
    badPaint (assoc "fill" props) || badPaint (assoc "stroke" props) = true ->
    Raises (SvgElement rawTag props kids)
| raises_below rawTag props kids child :
    isEmpty (loweredTag rawTag) = false ->
    In child kids ->
    Raises child ->
    Raises (SvgElement rawTag props kids).

(** [<svg><g><path fill="7"/></g></svg>]: svg-parser reads the fill as the
    number 7, and [parseColor] throws two levels down. *)
Definition brokenSvg : DomNode :=
  Element "svg" []
          [Element "g" [] [Element "path" [("fill", "7"); ("d", "M0 0")] []]].

Definition brokenParse : ParseSvg :=
  fun _ =>
    Returned
      [SvgElement (Some "svg") []
         [SvgElement (Some "g") []
            [SvgElement (Some "path") [("fill", PNumber 7); ("d", PString "M0 0")] []]]].

Definition brokenConverter : Converter :=
  mkConverter (fun _ _ _ => None) (fun _ _ => Thrown) brokenParse false ∅
              (fun _ _ _ => None).


(** The document without the elements of the skipped tags, at any depth. *)
Fixpoint prune (n : DomNode) : DomNode :=
  match n with
  | Element t a cs =>
      Element t a
        ((fix go (l : list DomNode) : list DomNode :=
            match l with
            | [] => []
            | c :: r =>
                if isElement c && isSkipped (toLowerCase (tagNameOf c)) then go r
                else prune c :: go r
            end) cs)
  | _ => n
  end.

(** The texts on the canvas, in order; [None] when the conversion
    failed. *)
Definition canvasTexts (result : Outcome Document) : option (list string) :=
  match result with
  | Returned document => Some (flat_map textsOf (canvasChildren document))
  | Thrown => None
  end.

(** The reading under which the subtrees of the skipped tags contribute
    nothing at any depth: removing them all leaves the output as it is. *)
Definition skippedSubtreesInert (this : Converter) (parsedCss : CssTree.Parsed)
           (viewport : Resources.Viewport) : Prop :=
  forall body,
    htmlToFigma this (Some body) parsedCss viewport
    = htmlToFigma this (Some (prune body)) parsedCss viewport.

(** The tree svg-parser returns for well-formed markup whose attribute
    values are not numeric: one parsed element per element. *)
Fixpoint mirror (n : DomNode) : SvgConverter.SvgAst :=
  match n with
  | Element t a cs =>
      SvgConverter.SvgElement (Some t)
        (List.map (fun kv => (fst kv, PString (snd kv))) a)
        (List.map mirror cs)
  | _ => SvgConverter.SvgOther
  end.

Definition mirrorParse : SvgConverter.ParseSvg :=
  fun svg =>
    Returned [SvgConverter.SvgElement (Some "svg") []
                (List.map mirror (childNodesOf svg))].

Definition vectorConverter : Converter :=
  mkConverter (fun _ _ _ => None) (fun _ _ => Thrown) mirrorParse false ∅
              (fun _ _ _ => None).

(** [<body><svg><title>logo</title></svg></body>] *)
Definition titledSvg : DomNode :=
  Element "body" [] [Element "svg" [] [Element "title" [] [TextNode "logo"]]].

(** [<body><div><title>Home</title></div></body>] *)
Definition titledDiv : DomNode :=
  Element "body" [] [Element "div" [] [Element "title" [] [TextNode "Home"]]].




(** The style sheet [div { color: red }] as css-tree parses it. *)
Definition identifier (s : string) : CssTree.Leaf := CssTree.mkLeaf (Some s) None.

Definition redSheet : CssTree.Parsed :=
  Returned (Some
    [CssTree.Rule
       (Some [CssTree.Selector [identifier "div"]])
       (Some [CssTree.Declaration "color" (CssTree.ValueList [identifier "red"])])]).

(** The shape of an output tree: a node of type TEXT has no children, and
    only a node of type TEXT carries characters; and so below. *)
Fixpoint textIsLeaf (n : DesignNode) : Prop :=
  match n with
  | Node f cs =>
      (isText (type f) = true -> cs = None)
      /\ (characters f <> None -> isText (type f) = true)
      /\ match cs with
         | Some l =>
             (fix all (l : list DesignNode) : Prop :=
                match l with
                | [] => True
                | c :: r => textIsLeaf c /\ all r
                end) l
         | None => True
         end
  end.

(** The quotient of two positive integers in binary64, by the
    specification of IEEE 754 arithmetic in the standard library: the
    division of the mantissas, rounded to 53 bits. *)
Definition ieeeQuotient (n d : positive) : SpecFloat.spec_float :=
  let '(q, e, l) := SpecFloat.SFdiv_core_binary 53 1024 (Zpos n) 0 (Zpos d) 0 in
  SpecFloat.binary_round_aux 53 1024 false q e l.

(** The number a floating-point datum stands for. *)
Definition ofSpecFloat (f : SpecFloat.spec_float) : num :=
  match f with
  | SpecFloat.S754_zero _ => Num 0
  | SpecFloat.S754_infinity s => Infinity s
  | SpecFloat.S754_nan => NaN
  | SpecFloat.S754_finite s m e =>
      Num (Qred (if s then - scaled (Zpos m) e else scaled (Zpos m) e))
  end.

(** Fractions on which the two roundings are compared: thirds and tenths,
    ties at 53 bits, the smallest subnormal numbers and halves of them, the
    largest double and the first numbers that round to an infinity. *)
Definition roundingSamples : list (positive * positive) :=
  [ (1, 3); (1, 10); (333, 1000); (7, 100); (123456789, 1000);
    (9007199254740993, 1); (9007199254740995, 1);
    (4503599627370497, 9007199254740992);
    (5858197952790527, 17592186044416);
    (1, Pos.pow 2 1074); (1, Pos.pow 2 1075); (3, Pos.pow 2 1075);
    (Pos.pow 2 1024, 1); (Pos.pow 2 1024 - Pos.pow 2 970, 1);
    (Pos.pow 2 1024 - Pos.pow 2 970 - 1, 1);
    (Pos.pow 10 23, 1); (Pos.pow 10 400, 1); (1, Pos.pow 10 400) ]%positive.


(** [0 <= n <= 1], false on [NaN]. *)
Definition unitRange (n : num) : Prop :=
  match n with
  | NaN => False
  | Num q => (0 <= q)%Q /\ (q <= 1)%Q
  | Infinity _ => False
  end.

(** The hexadecimal digits with their values. *)
Definition hexTable : list (ascii * Z) :=
  [ ("0", 0); ("1", 1); ("2", 2); ("3", 3); ("4", 4); ("5", 5); ("6", 6);
    ("7", 7); ("8", 8); ("9", 9);
    ("a", 10); ("b", 11); ("c", 12); ("d", 13); ("e", 14); ("f", 15);
    ("A", 10); ("B", 11); ("C", 12); ("D", 13); ("E", 14); ("F", 15) ]%char%Z.

(** The channel two hexadecimal digits stand for. *)
Definition hexChannel (hi lo : Z) : num := divLit (ofZ (16 * hi + lo)) 255.

(** The string of the given characters. *)
Fixpoint text_of (chars : list ascii) : string :=
  match chars with
  | [] => EmptyString
  | c :: r => String c (text_of r)
  end.

(** A non-empty string of decimal digits. *)
Definition digitsOnly (s : string) : bool :=
  truthy s && (countChars (fun c => negb (isDigit c)) s =? 0)%nat.

(** The value ends in one of the units [parseSize] looks for. *)
Definition hasUnit (value : string) : bool :=
  endsWith value "px" || endsWith value "%"
  || endsWith value "rem" || endsWith value "em".

(** The names every object inherits that are written in lower case; the
    table answers to them although they are no entries of it. *)
Definition inheritedKeys : list string := ["constructor"; "__proto__"].

(** The family, normalised, is no inherited name. *)
Definition ownKey (family : string) : bool :=
  negb (existsb (String.eqb (trim (toLowerCase family))) inheritedKeys).

(** The families the table and the list of supported fonts name. *)
Definition knownFamilies : list string :=
  List.map snd FontManager.FONT_MAPPING ++ FontManager.FIGMA_FONTS.

(** A mapping read as the description of a font. *)
Definition asFontInfo (mapping : FontManager.FigmaFontMapping) (size : num)
  : FontManager.FontInfo :=
  FontManager.mkFontInfo (FontManager.figmaFamily mapping)
                         (FontManager.figmaWeight mapping)
                         (FontManager.figmaStyle mapping) size.

(** The element is an [svg] element. *)
Definition isSvgRoot (svg : DomNode) : bool :=
  isElement svg && String.eqb (toLowerCase (tagNameOf svg)) "svg".

(** A node of parsed markup that is converted: an element with a tag
    name. *)
Definition hasTag (ast : SvgAst) : bool :=
  match ast with
  | SvgElement rawTag _ _ => negb (isEmpty (loweredTag rawTag))
  | SvgOther => false
  end.

(** The name and the type the conversion gives to such a node. *)
Definition labelOf (ast : SvgAst) : option string * NodeType :=
  match ast with
  | SvgElement rawTag _ _ =>
      (Some (toUpperCase (loweredTag rawTag)),
       if String.eqb (loweredTag rawTag) "g" then GROUP else VECTOR)
  | SvgOther => (None, VECTOR)
  end.

(** Parsed markup with a group, a text node and a circle. *)
Definition drawing : list SvgAst :=
  [ SvgElement (Some "g") [("fill", PString "red")]
      [SvgElement (Some "rect") [("width", PNumber 10); ("height", PNumber 5)] []];
    SvgOther;
    SvgElement (Some "Circle") [("r", PNumber 4)] [] ].

(** The content of an image as [imageToBase64] writes it. *)
Definition encodedData (image : Resources.ImageResource) : string :=
  match Resources.data image with
  | Resources.TextData s => s
  | Resources.BufferData encoded => encoded
  end.

(** The hash of [hashUrl] without the reduction to 32 bits: Horner's rule
    with the factor 31. *)
Fixpoint polyHash (hash : Z) (url : string) : Z :=
  match url with
  | EmptyString => hash
  | String char rest => polyHash (31 * hash + Z.of_nat (code char))%Z rest
  end.

(** A digit or a small letter. *)
Definition isBase36 (c : ascii) : bool :=
  isDigit c || ((97 <=? code c) && (code c <=? 122))%nat.

(** The number a string of such characters writes in base 36. *)
Fixpoint valueOf36 (acc : Z) (s : string) : Z :=
  match s with
  | EmptyString => acc
  | String c r =>
      valueOf36 (36 * acc + (if isDigit c then Z.of_nat (code c) - 48
                             else Z.of_nat (code c) - 87))%Z r
  end.

(** The member of an object, [None] on every other value. *)
Definition field (data : H2DFormat.Json) (key : string) : option H2DFormat.Json :=
  match data with H2DFormat.JObject members => assoc key members | _ => None end.

(** The member of a member. *)
Definition inner (data : H2DFormat.Json) (outer key : string) : option H2DFormat.Json :=
  match field data outer with Some v => field v key | None => None end.

(** A file of the format: the members the validator asks for, with their
    types. *)
Definition conforms (data : H2DFormat.Json) : Prop :=
  exists version html css images fonts resources width height viewport
         url timestamp metadata,
    field data "version" = Some (H2DFormat.JString version)
    /\ field data "html" = Some (H2DFormat.JString html)
    /\ field data "css" = Some (H2DFormat.JString css)
    /\ field data "resources" = Some (H2DFormat.JObject resources)
    /\ assoc "images" resources = Some (H2DFormat.JArray images)
    /\ assoc "fonts" resources = Some (H2DFormat.JArray fonts)
    /\ field data "viewport" = Some (H2DFormat.JObject viewport)
    /\ assoc "width" viewport = Some (H2DFormat.JNumber width)
    /\ assoc "height" viewport = Some (H2DFormat.JNumber height)
    /\ field data "metadata" = Some (H2DFormat.JObject metadata)
    /\ assoc "url" metadata = Some (H2DFormat.JString url)
    /\ assoc "timestamp" metadata = Some (H2DFormat.JString timestamp).

(** The first seven checks of the validator pass: three strings and three
    members of type ['object'], which [null] is. *)
Definition headed (data : H2DFormat.Json) : bool :=
  String.eqb (H2DFormat.typeOf (field data "version")) "string"
  && String.eqb (H2DFormat.typeOf (field data "html")) "string"
  && String.eqb (H2DFormat.typeOf (field data "css")) "string"
  && String.eqb (H2DFormat.typeOf (field data "resources")) "object"
  && String.eqb (H2DFormat.typeOf (field data "viewport")) "object"
  && String.eqb (H2DFormat.typeOf (field data "metadata")) "object".

(** Both lists of the resources are arrays. *)
Definition listed (data : H2DFormat.Json) : bool :=
  H2DFormat.isArray (inner data "resources" "images")
  && H2DFormat.isArray (inner data "resources" "fonts").

(** Both sizes of the viewport are numbers. *)
Definition sized (data : H2DFormat.Json) : bool :=
  String.eqb (H2DFormat.typeOf (inner data "viewport" "width")) "number"
  && String.eqb (H2DFormat.typeOf (inner data "viewport" "height")) "number".

(** The values on which the validator reads a member of [null]. *)
Definition readsNull (data : H2DFormat.Json) : Prop :=
  data = H2DFormat.JNull
  \/ (headed data = true
      /\ (field data "resources" = Some H2DFormat.JNull
          \/ (listed data = true
              /\ (field data "viewport" = Some H2DFormat.JNull
                  \/ (sized data = true
                      /\ field data "metadata" = Some H2DFormat.JNull))))).

(** [P] holds of the fields of every node of the tree. *)
Fixpoint everyNode (P : NodeFields -> Prop) (n : DesignNode) : Prop :=
  match n with
  | Node f cs =>
      P f
      /\ match cs with
         | Some l =>
             (fix all (l : list DesignNode) : Prop :=
                match l with
                | [] => True
                | c :: r => everyNode P c /\ all r
                end) l
         | None => True
         end
  end.

(** The field is set. *)
Definition isSet {A : Type} (o : option A) : bool :=
  match o with Some _ => true | None => false end.

(** Fields that go together: the three fields of auto layout, with the
    spacing only beside them; the four paddings; the strokes and their
    weight; vector paths only on a vector; a text style only on a text. *)
Definition coherent (f : NodeFields) : Prop :=
  isSet (primaryAxisSizingMode f) = isSet (layoutMode f)
  /\ isSet (counterAxisSizingMode f) = isSet (layoutMode f)
  /\ (isSet (itemSpacing f) = true -> isSet (layoutMode f) = true)
  /\ isSet (paddingRight f) = isSet (paddingTop f)
  /\ isSet (paddingBottom f) = isSet (paddingTop f)
  /\ isSet (paddingLeft f) = isSet (paddingTop f)
  /\ isSet (strokeWeight f) = isSet (strokes f)
  /\ (isSet (vectorPaths f) = true -> type f = VECTOR)
  /\ (isSet (Figma.style f) = true -> type f = TEXT).


















End Statements.

(** * Properties *)

(** ** Font weights *)

Module FontFacts.
Import Js FontManager Statements.

Lemma lessThan_spec (x y : Q) : lessThan x y = true <-> (x < y)%Q.
Proof.
  unfold lessThan. rewrite negb_true_iff.
  destruct (Qle_bool y x) eqn:E.
  - apply Qle_bool_iff in E. split; [discriminate|]. intro H.
    exfalso. apply (Qlt_not_le _ _ H E).
  - split; [|reflexivity]. intros _.
    apply Qnot_le_lt. intro H. apply Qle_bool_iff in H. congruence.
Qed.

Lemma clampWeight_bounds (q : Q) : (100 <= clampWeight q)%Q /\ (clampWeight q <= 900)%Q.
Proof.
  unfold clampWeight.
  destruct (lessThan q 100) eqn:E1.
  - replace (lessThan 900 100) with false by reflexivity.
    split; [apply Qle_refl | discriminate].
  - assert (H1 : (100 <= q)%Q).
    { apply Qnot_lt_le. intro H. apply lessThan_spec in H. congruence. }
    destruct (lessThan 900 q) eqn:E2.
    + split; [discriminate | apply Qle_refl].
    + split; [exact H1|].
      apply Qnot_lt_le. intro H. apply lessThan_spec in H. congruence.
Qed.

(** [Math.round(x / 100)] is the integer [k] with [100k - 50 <= x < 100k + 50]. *)
Lemma mathRound_hundredth (x : Q) :
  let k := mathRound (x / 100) in
  (inject_Z (100 * k) - 50 <= x)%Q /\ (x < inject_Z (100 * k) + 50)%Q.
Proof.
  intro k.
  pose proof (Qfloor_le (x / 100 + (1 # 2))) as Hlo.
  pose proof (Qlt_floor (x / 100 + (1 # 2))) as Hhi.
  fold (mathRound (x / 100)) in Hlo, Hhi. fold k in Hlo, Hhi.
  rewrite inject_Z_plus in Hhi.
  rewrite inject_Z_mult.
  assert (Hx : (x == (x / 100) * 100)%Q) by (field).
  change (inject_Z 100) with 100%Q. change (inject_Z 1) with 1%Q in Hhi.
  generalize dependent (x / 100)%Q. intros y k Hlo Hhi Hx.
  split; lra.
Qed.

Lemma mathRound_clamped (q : Q) :
  (1 <= mathRound (clampWeight q / 100) <= 9)%Z.
Proof.
  destruct (clampWeight_bounds q) as [Hlo Hhi].
  destruct (mathRound_hundredth (clampWeight q)) as [H1 H2].
  set (k := mathRound (clampWeight q / 100)) in *.
  rewrite inject_Z_mult in H1, H2. change (inject_Z 100) with 100%Q in H1, H2.
  split.
  - assert (H : (0 < inject_Z k)%Q) by lra.
    change 0%Q with (inject_Z 0) in H. rewrite <- Zlt_Qlt in H. lia.
  - assert (H : (inject_Z k < 10)%Q) by lra.
    change 10%Q with (inject_Z 10) in H. rewrite <- Zlt_Qlt in H. lia.
Qed.

Lemma normalizeWeight_unfold (q : Q) :
  normalizeWeight (Num q) = ofZ (mathRound (clampWeight q / 100) * 100).
Proof. reflexivity. Qed.

(** C9.  For every numeric weight, the weight [mapToFigmaFont] returns is a
    multiple of 100 between 100 and 900, namely the multiple of 100 nearest
    to the weight clamped to [100, 900] (a tie goes up); 650 gives 700, 50
    gives 100 and 1000 gives 900. *)
Theorem figma_weight_clamped_and_rounded :
  (forall (family style : string) (size : num) (q : Q),
      exists k : Z,
        figmaWeight (mapToFigmaFont (mkFontInfo family (Num q) style size))
          = ofZ (100 * k)
        /\ (1 <= k <= 9)%Z
        /\ (100 <= clampWeight q)%Q /\ (clampWeight q <= 900)%Q
        /\ (inject_Z (100 * k) - 50 <= clampWeight q)%Q
        /\ (clampWeight q < inject_Z (100 * k) + 50)%Q)
  /\ normalizeWeight (ofZ 650) = ofZ 700
  /\ normalizeWeight (ofZ 50) = ofZ 100
  /\ normalizeWeight (ofZ 1000) = ofZ 900.
Proof.
  split; [|repeat split; reflexivity].
  intros family style size q.
  exists (mathRound (clampWeight q / 100)).
  destruct (clampWeight_bounds q) as [Hlo Hhi].
  destruct (mathRound_hundredth (clampWeight q)) as [H1 H2].
  repeat split; try assumption; try apply mathRound_clamped.
  unfold mapToFigmaFont. cbn [figmaWeight weight].
  rewrite normalizeWeight_unfold. f_equal. lia.
Qed.

End FontFacts.

(** ** Splitting on white space *)

Module SplitFacts.
Import Js Statements.

Lemma isValue_cons (c : ascii) (s : string) :
  isValue (String c s) = true ->
  isSpace c = false /\ (countChars isSpace s = 0)%nat.
Proof.
  unfold isValue. cbn [truthy isEmpty negb andb countChars].
  destruct (isSpace c); cbn; intro H.
  - discriminate.
  - apply Nat.eqb_eq in H. auto.
Qed.

(** A character that is not white space joins the piece that follows. *)
Lemma splitRuns_cons (skipping : bool) (c : ascii) (r : string) :
  isSpace c = false ->
  splitRuns false skipping (String c r)
  = match splitRuns false false r with
    | piece :: pieces => String c piece :: pieces
    | [] => [String c EmptyString]
    end.
Proof. intro H. cbn. rewrite H. reflexivity. Qed.

(** A string without white space is one piece. *)
Lemma splitRuns_spaceFree (skipping : bool) (s : string) :
  (countChars isSpace s = 0)%nat -> splitRuns false skipping s = [s].
Proof.
  revert skipping. induction s as [|c r IH]; intros skipping H.
  - reflexivity.
  - cbn [countChars] in H. destruct (isSpace c) eqn:Hc; [discriminate|].
    rewrite (splitRuns_cons _ _ _ Hc), (IH false H). reflexivity.
Qed.

(** A string without white space followed by a space: the piece ends
    there. *)
Lemma splitRuns_piece (skipping : bool) (s rest : string) :
  (countChars isSpace s = 0)%nat ->
  (skipping = false \/ s <> EmptyString) ->
  splitRuns false skipping (s ++ String " "%char rest)
  = s :: splitRuns false true rest.
Proof.
  revert skipping. induction s as [|c r IH]; intros skipping H Hs.
  - destruct Hs as [-> | Hs]; [reflexivity | congruence].
  - cbn [countChars] in H. destruct (isSpace c) eqn:Hc; [discriminate|].
    change (String c r ++ String " "%char rest)
      with (String c (r ++ String " "%char rest)).
    rewrite (splitRuns_cons _ _ _ Hc), (IH false H (or_introl eq_refl)).
    reflexivity.
Qed.

Lemma isValue_spaceFree (s : string) :
  isValue s = true -> (countChars isSpace s = 0)%nat.
Proof.
  unfold isValue. intro H. apply andb_true_iff in H as [_ H].
  now apply Nat.eqb_eq in H.
Qed.

Lemma isValue_nonEmpty (s : string) : isValue s = true -> s <> EmptyString.
Proof. intros H ->. discriminate. Qed.

Lemma append_assoc (a b c : string) : (a ++ b) ++ c = a ++ (b ++ c).
Proof.
  induction a as [|x a IH]; [reflexivity|].
  change (String x a ++ b) with (String x (a ++ b)).
  change (String x (a ++ b) ++ c) with (String x ((a ++ b) ++ c)).
  now rewrite IH.
Qed.

Lemma append_empty (a : string) : a ++ EmptyString = a.
Proof.
  induction a as [|x a IH]; [reflexivity|].
  change (String x a ++ EmptyString) with (String x (a ++ EmptyString)).
  now rewrite IH.
Qed.

Lemma isBlank_cons (c : ascii) (s : string) :
  isBlank (String c s) = true -> isSpace c = true /\ isBlank s = true.
Proof.
  unfold isBlank. cbn [countChars]. destruct (isSpace c); cbn; [auto|discriminate].
Qed.

(** While white space is being skipped, more of it changes nothing. *)
Lemma splitRuns_skip (blank rest : string) :
  isBlank blank = true ->
  splitRuns false true (blank ++ rest) = splitRuns false true rest.
Proof.
  induction blank as [|c r IH]; intro H; [reflexivity|].
  apply isBlank_cons in H as [Hc Hr].
  change (String c r ++ rest) with (String c (r ++ rest)).
  cbn [splitRuns]. rewrite Hc. now apply IH.
Qed.

(** A string without white space followed by a gap: the piece ends
    there, and the whole gap is one separator. *)
Lemma splitRuns_gap (skipping : bool) (s gap rest : string) :
  (countChars isSpace s = 0)%nat ->
  isGap gap = true ->
  (skipping = false \/ s <> EmptyString) ->
  splitRuns false skipping (s ++ gap ++ rest)
  = s :: splitRuns false true rest.
Proof.
  intros Hs Hgap. revert skipping. induction s as [|c r IH]; intros skipping Hsk.
  - destruct Hsk as [-> | Hsk]; [|congruence].
    apply andb_true_iff in Hgap as [Hne Hblank].
    destruct gap as [|g gap']; [discriminate|].
    apply isBlank_cons in Hblank as [Hg Hrest].
    change (EmptyString ++ String g gap' ++ rest) with (String g (gap' ++ rest)).
    cbn [splitRuns]. rewrite Hg. f_equal. now apply splitRuns_skip.
  - cbn [countChars] in Hs. destruct (isSpace c) eqn:Hc; [discriminate|].
    change (String c r ++ gap ++ rest) with (String c (r ++ gap ++ rest)).
    rewrite (splitRuns_cons _ _ _ Hc), (IH Hs false (or_introl eq_refl)).
    reflexivity.
Qed.

(** The values of a shorthand and its last piece, from a value on. *)
Lemma splitRuns_spaced (skipping : bool) (first trail : string)
      (rest : list (string * string)) :
  isBlank trail = true ->
  isValue first = true ->
  Forall (fun gv => isGap (fst gv) = true /\ isValue (snd gv) = true) rest ->
  splitRuns false skipping (spaced first rest ++ trail)
  = (first :: List.map snd rest ++ edgePiece trail)%list.
Proof.
  intros Htrail. revert skipping first.
  induction rest as [|[gap value] more IH]; intros skipping first Hfirst Hall.
  - cbn [spaced List.map]. destruct trail as [|t trail'].
    + rewrite append_empty. apply splitRuns_spaceFree.
      now apply isValue_spaceFree.
    + rewrite <- (append_empty (String t trail')) at 1.
      rewrite splitRuns_gap; [reflexivity | now apply isValue_spaceFree | |].
      * unfold isGap. now rewrite Htrail.
      * right. now apply isValue_nonEmpty.
  - inversion Hall as [|? ? [Hgap Hvalue] Hmore]; subst. cbn [fst snd] in *.
    cbn [spaced List.map snd]. rewrite !append_assoc.
    rewrite splitRuns_gap.
    + cbn [app]. f_equal. now apply IH.
    + now apply isValue_spaceFree.
    + exact Hgap.
    + right. now apply isValue_nonEmpty.
Qed.

(** [split(/\s+/)] on a shorthand: the values, with an empty piece for a
    blank at either end. *)
Lemma splitSpaces_spaced (lead first trail : string)
      (rest : list (string * string)) :
  isBlank lead = true ->
  isBlank trail = true ->
  isValue first = true ->
  Forall (fun gv => isGap (fst gv) = true /\ isValue (snd gv) = true) rest ->
  splitSpaces (lead ++ spaced first rest ++ trail)
  = (edgePiece lead ++ first :: List.map snd rest ++ edgePiece trail)%list.
Proof.
  intros Hlead Htrail Hfirst Hall. unfold splitSpaces.
  destruct lead as [|c lead'].
  - change (EmptyString ++ spaced first rest ++ trail)
      with (spaced first rest ++ trail).
    now apply splitRuns_spaced.
  - apply isBlank_cons in Hlead as [Hc Hlead'].
    change (String c lead' ++ spaced first rest ++ trail)
      with (String c (lead' ++ spaced first rest ++ trail)).
    cbn [splitRuns]. rewrite Hc. cbn [edgePiece isEmpty app]. f_equal.
    rewrite splitRuns_skip by exact Hlead'.
    now apply splitRuns_spaced.
Qed.

End SplitFacts.

(** ** Padding, colours, sizes and auto-layout *)

Module LayoutFacts.
Import Js Dom Figma Exn FigmaConverter SplitFacts Statements.

Lemma edge_pieces (blank : string) :
  List.map parseFloat (edgePiece blank) = edge blank.
Proof. destruct blank; reflexivity. Qed.

(** What [parsePadding] reads from a shorthand. *)
Lemma paddingValues_spaced (lead first trail : string)
      (rest : list (string * string)) :
  isBlank lead = true ->
  isBlank trail = true ->
  isValue first = true ->
  Forall (fun gv => isGap (fst gv) = true /\ isValue (snd gv) = true) rest ->
  paddingValues (lead ++ spaced first rest ++ trail)
  = (edge lead ++ List.map parseFloat (first :: List.map snd rest)
     ++ edge trail)%list.
Proof.
  intros Hlead Htrail Hfirst Hall. unfold paddingValues.
  rewrite splitSpaces_spaced by assumption.
  rewrite List.map_app. cbn [List.map]. rewrite List.map_app, !edge_pieces.
  reflexivity.
Qed.

(** C5 (as the code has it).  For values separated by runs of white space,
    with no white space before the first and after the last,
    [parsePadding] gives: for one value, that value on all four sides; for
    two, (vertical, horizontal); for four, (top, right, bottom, left); for
    any other number of values, zero on all sides.  A run of white space
    before the first value or after the last counts as one more value,
    which reads as [NaN].  ["10px"] gives 10 everywhere, ["10px 20px"]
    gives 10/20/10/20 and ["1 2 3 4"] gives 1/2/3/4. *)
Theorem parsePadding_shorthand (lead first trail : string)
        (rest : list (string * string)) :
  isBlank lead = true ->
  isBlank trail = true ->
  isValue first = true ->
  Forall (fun gv => isGap (fst gv) = true /\ isValue (snd gv) = true) rest ->
  let values := List.map parseFloat (first :: List.map snd rest) in
  parsePadding (spaced first rest) = expand values
  /\ (length values <> 1%nat -> length values <> 2%nat ->
      length values <> 4%nat ->
      parsePadding (spaced first rest)
      = mkPadding (ofZ 0) (ofZ 0) (ofZ 0) (ofZ 0))
  /\ parsePadding (lead ++ spaced first rest ++ trail)
     = expand (edge lead ++ values ++ edge trail)
  /\ parsePadding "10px" = mkPadding (ofZ 10) (ofZ 10) (ofZ 10) (ofZ 10)
  /\ parsePadding "10px 20px" = mkPadding (ofZ 10) (ofZ 20) (ofZ 10) (ofZ 20)
  /\ parsePadding "1 2 3 4" = mkPadding (ofZ 1) (ofZ 2) (ofZ 3) (ofZ 4).
Proof.
  intros Hlead Htrail Hfirst Hall values.
  assert (Hedges : parsePadding (lead ++ spaced first rest ++ trail)
                   = expand (edge lead ++ values ++ edge trail)).
  { unfold parsePadding. rewrite paddingValues_spaced by assumption.
    reflexivity. }
  assert (Hmain : parsePadding (spaced first rest) = expand values).
  { unfold parsePadding.
    pose proof (paddingValues_spaced EmptyString first EmptyString rest
                  eq_refl eq_refl Hfirst Hall) as H.
    rewrite append_empty in H.
    change (EmptyString ++ spaced first rest) with (spaced first rest) in H.
    rewrite H. cbn [edge isEmpty app]. rewrite app_nil_r. reflexivity. }
  split; [exact Hmain|]. split; [|split; [exact Hedges|]].
  - intros H1 H2 H4. rewrite Hmain. subst values.
    destruct rest as [|a [|b [|c [|d rest]]]]; cbn in *; congruence.
  - repeat split; vm_compute; reflexivity.
Qed.

Lemma parsePadding_shorthand_witness :
  parsePadding (spaced "10px" [(tab ++ " ", "20px")])
  = mkPadding (ofZ 10) (ofZ 20) (ofZ 10) (ofZ 20)
  /\ parsePadding (tab ++ spaced "10px" [(tab ++ " ", "20px")] ++ " ")
     = mkPadding NaN (ofZ 10) (ofZ 20) NaN.
Proof.
  destruct (parsePadding_shorthand tab "10px" " " [(tab ++ " ", "20px")])
    as (Hmain & _ & Hedges & _);
    [reflexivity | reflexivity | reflexivity | repeat constructor |].
  split; [exact Hmain | exact Hedges].
Defined.

(** C5 (as stated) fails on a value with a blank before it: [" 10px"] is
    read as two values, an empty one and ["10px"], and the top and the
    bottom are [NaN]. *)
Lemma leading_blank_counts_as_value :
  parsePadding " 10px" = mkPadding NaN (ofZ 10) NaN (ofZ 10)
  /\ parsePadding " 10px" <> mkPadding (ofZ 10) (ofZ 10) (ofZ 10) (ofZ 10).
Proof. split; [vm_compute; reflexivity | vm_compute; discriminate]. Qed.

(** A string that begins neither with [#] nor with [rgb] is opaque
    black. *)
Lemma colorToFigma_other (color : string) :
  startsWith color "#" = false ->
  startsWith color "rgb" = false ->
  colorToFigma color = opaqueBlack.
Proof. unfold colorToFigma. intros -> ->. reflexivity. Qed.

(** C3.  [colorToFigma] at the inputs of the claim.  ["#ff0000"] is
    (1, 0, 0, 1) and the name ["red"] is opaque black; but
    ["rgba(0,0,0,0.5)"] gets alpha 0, not 1/2, since the digit pattern cuts
    ["0.5"] into ["0"] and ["5"]; the three-digit forms ["#f00"] and
    ["#333"] are read two digits per channel and get [NaN] for blue; and
    ["rgb(300,0,0)"] gets a red channel above 1. *)
Theorem colorToFigma_at_claimed_inputs :
  colorToFigma "#ff0000" = mkRGBA (ofZ 1) (ofZ 0) (ofZ 0) (ofZ 1)
  /\ colorToFigma "red" = opaqueBlack
  /\ colorToFigma "rgba(0,0,0,0.5)" = mkRGBA (ofZ 0) (ofZ 0) (ofZ 0) (ofZ 0)
  /\ colorToFigma "#f00" = mkRGBA (Num (16 # 17)) (ofZ 0) NaN (ofZ 1)
  /\ colorToFigma "#333" = mkRGBA (Num (1 # 5)) (Num (1 # 85)) NaN (ofZ 1)
  /\ colorToFigma "rgb(300,0,0)" = mkRGBA (Num (20 # 17)) (ofZ 0) (ofZ 0) (ofZ 1).
Proof. repeat split; vm_compute; reflexivity. Qed.

End LayoutFacts.

(** ** The cascade *)

Module CascadeFacts.
Import Js Dom Figma Exn FigmaConverter Statements.

Lemma computeStyles_eq (this : Converter) (position : Path) (element : DomNode)
      (cssRules : CssRules) (parentStyles : Styles) :
  computeStyles this position element cssRules parentStyles
  = applyInline (inlineOf element)
                (applyRules this position element cssRules parentStyles).
Proof.
  unfold computeStyles, inlineOf.
  destruct (attr element "style") as [s|]; [|reflexivity].
  destruct s; reflexivity.
Qed.

Lemma applyRules_app (this : Converter) (position : Path) (element : DomNode)
      (l1 l2 : CssRules) (styles : Styles) :
  applyRules this position element (l1 ++ l2) styles
  = applyRules this position element l2 (applyRules this position element l1 styles).
Proof. unfold applyRules. apply fold_left_app. Qed.

Lemma applyRules_cons (this : Converter) (position : Path) (element : DomNode)
      (rule : string * Styles) (l : CssRules) (styles : Styles) :
  applyRules this position element (rule :: l) styles
  = applyRules this position element l
      (if matchesSelector this position element (fst rule)
       then snd rule ∪ styles else styles).
Proof. reflexivity. Qed.

(** Rules that do not match, or do not declare [p], leave [p] as it is. *)
Lemma applyRules_untouched (this : Converter) (position : Path)
      (element : DomNode) (p : string) (l : CssRules) (styles : Styles) :
  (forall rule, In rule l ->
                matchesSelector this position element (fst rule) = true ->
                snd rule !! p = None) ->
  applyRules this position element l styles !! p = styles !! p.
Proof.
  revert styles. induction l as [|rule l IH]; intros styles H; [reflexivity|].
  rewrite applyRules_cons, IH.
  - destruct (matchesSelector this position element (fst rule)) eqn:Hm; [|reflexivity].
    apply lookup_union_r. apply H; [now left | exact Hm].
  - intros rule' Hin. apply H. now right.
Qed.

Lemma applyInline_app (l1 l2 : list (string * string)) (styles : Styles) :
  applyInline (l1 ++ l2) styles = applyInline l2 (applyInline l1 styles).
Proof. unfold applyInline. apply fold_left_app. Qed.

Lemma applyInline_cons (k v : string) (l : list (string * string))
      (styles : Styles) :
  applyInline ((k, v) :: l) styles = applyInline l (setProperty k v styles).
Proof. reflexivity. Qed.

Lemma setProperty_other (k v p : string) (styles : Styles) :
  k <> p -> setProperty k v styles !! p = styles !! p.
Proof.
  intro H. unfold setProperty. destruct (String.eqb k "__proto__"); [reflexivity|].
  now apply lookup_insert_ne.
Qed.

Lemma setProperty_same (p v : string) (styles : Styles) :
  p <> "__proto__" -> setProperty p v styles !! p = Some v.
Proof.
  intro H. unfold setProperty.
  destruct (String.eqb p "__proto__") eqn:E.
  - apply String.eqb_eq in E. congruence.
  - apply lookup_insert_eq.
Qed.

(** Inline declarations of other properties leave [p] as it is. *)
Lemma applyInline_untouched (p : string) (l : list (string * string))
      (styles : Styles) :
  (forall v, ~ In (p, v) l) ->
  applyInline l styles !! p = styles !! p.
Proof.
  revert styles. induction l as [|[k v] l IH]; intros styles H; [reflexivity|].
  rewrite applyInline_cons, IH.
  - apply setProperty_other. intros ->. apply (H v). now left.
  - intros v' Hin. apply (H v'). now right.
Qed.

(** The last inline declaration of [p] gives its value. *)
Lemma applyInline_last (p v : string) (before after : list (string * string))
      (styles : Styles) :
  p <> "__proto__" ->
  (forall v', ~ In (p, v') after) ->
  applyInline (before ++ (p, v) :: after) styles !! p = Some v.
Proof.
  intros Hp H. rewrite applyInline_app, applyInline_cons.
  rewrite applyInline_untouched by exact H.
  now apply setProperty_same.
Qed.

(** An id outranks a class, a class outranks a tag name, in the number
    [getSelectorSpecificity] computes. *)
Lemma specificity_examples :
  SelectorMatcher.getSelectorSpecificity "#a" = 1000%nat
  /\ SelectorMatcher.getSelectorSpecificity ".b" = 100%nat
  /\ SelectorMatcher.getSelectorSpecificity "div" = 1%nat
  /\ SelectorMatcher.getSelectorSpecificity "div.b > p:hover a[href]" = 303%nat.
Proof. repeat split; vm_compute; reflexivity. Qed.

(** Among the matched rules that declare a property, the one that comes
    last in the iteration order of the rule map gives the resolved value,
    whatever the specificities of the selectors, unless the inline style
    declares the property. *)
Lemma later_rule_wins
      (this : Converter) (position : Path) (element : DomNode)
      (before after : CssRules) (selector : string) (declarations : Styles)
      (parentStyles : Styles) (p v : string) :
  matchesSelector this position element selector = true ->
  declarations !! p = Some v ->
  (forall rule, In rule after ->
                matchesSelector this position element (fst rule) = true ->
                snd rule !! p = None) ->
  (forall v', ~ In (p, v') (inlineOf element)) ->
  computeStyles this position element
                (before ++ (selector, declarations) :: after) parentStyles !! p
  = Some v.
Proof.
  intros Hmatch Hdecl Hafter Hinline.
  rewrite computeStyles_eq, applyInline_untouched by exact Hinline.
  rewrite applyRules_app, applyRules_cons.
  rewrite applyRules_untouched by exact Hafter.
  cbn [fst snd]. rewrite Hmatch.
  now apply lookup_union_Some_l.
Qed.

(** C1.  The cascade does not order rules by specificity.  The selector
    [#a] has specificity 1000 and [div] has 1; wherever both match
    [<div id="a">], the resolved colour is the one of the rule that comes
    later in the rule map: blue for [#a {color: red}] before
    [div {color: blue}], red for the two rules the other way round. *)
Theorem later_rule_beats_specificity
        (this : Converter) (position : Path) (parentStyles : Styles) :
  matchesSelector this position divA "#a" = true ->
  matchesSelector this position divA "div" = true ->
  (SelectorMatcher.getSelectorSpecificity "div"
   < SelectorMatcher.getSelectorSpecificity "#a")%nat
  /\ computeStyles this position divA idThenTag parentStyles !! "color"
     = Some "blue"
  /\ computeStyles this position divA tagThenId parentStyles !! "color"
     = Some "red".
Proof.
  intros Hid Htag. split; [vm_compute; lia|]. split.
  - apply (later_rule_wins this position divA
             [("#a", {["color" := "red"]})] [] "div" {["color" := "blue"]});
      [exact Htag | reflexivity | intros rule [] | intros v' []].
  - apply (later_rule_wins this position divA
             [("div", {["color" := "blue"]})] [] "#a" {["color" := "red"]});
      [exact Hid | reflexivity | intros rule [] | intros v' []].
Qed.

Lemma later_rule_beats_specificity_witness :
  (SelectorMatcher.getSelectorSpecificity "div"
   < SelectorMatcher.getSelectorSpecificity "#a")%nat
  /\ computeStyles plainConverter [] divA idThenTag ∅ !! "color" = Some "blue"
  /\ computeStyles plainConverter [] divA tagThenId ∅ !! "color" = Some "red".
Proof.
  apply (later_rule_beats_specificity plainConverter [] ∅); reflexivity.
Defined.

(** The reading under which specificity decides fails on the same input:
    both rules match, both declare [color], and the resolved colour is the
    one of [div], the later rule. *)
Lemma specificity_does_not_decide :
  ~ specificityDecides plainConverter [] divA idThenTag ∅.
Proof.
  intro H.
  specialize (H "#a" {["color" := "red"]} "color" "red").
  assert (Hblue : computeStyles plainConverter [] divA idThenTag ∅ !! "color"
                  = Some "blue") by (vm_compute; reflexivity).
  rewrite H in Hblue; try discriminate.
  - now left.
  - reflexivity.
  - reflexivity.
  - intros selector' declarations' v' Hin _ _ Hne.
    destruct Hin as [Heq | [Heq | []]]; inversion Heq; subst.
    + congruence.
    + vm_compute. lia.
  - intros v' [].
Qed.

(** A string without separator is one piece. *)
Lemma splitOn_none (isSep : ascii -> bool) (s : string) :
  countChars isSep s = 0%nat -> splitOn isSep s = [s].
Proof.
  induction s as [|c r IH]; [reflexivity|].
  cbn [countChars splitOn]. destruct (isSep c); [discriminate|].
  intro H. now rewrite (IH H).
Qed.

(** Two strings without separator, joined by one, are two pieces. *)
Lemma splitOn_once (isSep : ascii -> bool) (sep : ascii) (s t : string) :
  isSep sep = true ->
  countChars isSep s = 0%nat -> countChars isSep t = 0%nat ->
  splitOn isSep (s ++ String sep t) = [s; t].
Proof.
  intros Hsep Hs Ht. induction s as [|c r IH].
  - change (EmptyString ++ String sep t) with (String sep t).
    cbn [splitOn]. rewrite Hsep. now rewrite splitOn_none.
  - change (String c r ++ String sep t) with (String c (r ++ String sep t)).
    cbn [countChars splitOn] in *. destruct (isSep c); [discriminate|].
    now rewrite (IH Hs).
Qed.

(** An inline style that is one declaration [p:v], where [p] and [v] are
    non-empty, contain neither [;] nor [:] and have no white space at
    their ends, declares exactly [p] with value [v]. *)
Lemma inlineDeclarations_single (p v : string) :
  truthy p = true -> truthy v = true ->
  trim p = p -> trim v = v ->
  countChars (fun c => Ascii.eqb c ";"%char) (p ++ String ":"%char v) = 0%nat ->
  countChars (fun c => Ascii.eqb c ":"%char) p = 0%nat ->
  countChars (fun c => Ascii.eqb c ":"%char) v = 0%nat ->
  inlineDeclarations (p ++ String ":"%char v) = [(p, v)].
Proof.
  intros Hp Hv Htp Htv Hsemi Hcp Hcv.
  unfold inlineDeclarations, split. rewrite (splitOn_none _ _ Hsemi).
  cbn [omap list_omap]. unfold inlineDeclaration, split.
  rewrite (splitOn_once _ ":"%char p v eq_refl Hcp Hcv).
  cbn [List.map]. rewrite Htp, Htv, Hp, Hv. reflexivity.
Qed.

Lemma inlineDeclarations_example :
  inlineDeclarations "color: red; width:10px;"
  = [("color", "red"); ("width", "10px")].
Proof. vm_compute. reflexivity. Qed.

(** When the declarations read from the inline style of an element end,
    for [p], with the value [v], the resolved style maps [p] to [v],
    whatever the rule map, the matcher and the parent's style are. *)
Lemma last_inline_declaration_wins
      (this : Converter) (position : Path) (element : DomNode)
      (cssRules : CssRules) (parentStyles : Styles)
      (before after : list (string * string)) (p v : string) :
  p <> "__proto__" ->
  inlineOf element = (before ++ (p, v) :: after)%list ->
  (forall v', ~ In (p, v') after) ->
  computeStyles this position element cssRules parentStyles !! p = Some v.
Proof.
  intros Hp Hdecls Hlast.
  rewrite computeStyles_eq, Hdecls.
  now apply applyInline_last.
Qed.

(** An inline style that is one declaration [p:v] without [;] and
    without a second [:] overrides every rule. *)
Lemma single_inline_declaration_overrides
      (this : Converter) (position : Path) (tag : string)
      (attribs : list (string * string)) (kids : list DomNode)
      (cssRules : CssRules) (parentStyles : Styles) (p v : string) :
  assoc "style" attribs = Some (p ++ String ":"%char v) ->
  p <> "__proto__" ->
  truthy p = true -> truthy v = true ->
  trim p = p -> trim v = v ->
  countChars (fun c => Ascii.eqb c ";"%char) (p ++ String ":"%char v) = 0%nat ->
  countChars (fun c => Ascii.eqb c ":"%char) p = 0%nat ->
  countChars (fun c => Ascii.eqb c ":"%char) v = 0%nat ->
  computeStyles this position (Element tag attribs kids) cssRules parentStyles
    !! p = Some v.
Proof.
  intros Hattr Hproto Hp Hv Htp Htv Hsemi Hcp Hcv.
  apply (last_inline_declaration_wins this position _ cssRules parentStyles
           [] [] p v Hproto); [|intros v' []].
  unfold inlineOf. cbn [attr]. rewrite Hattr.
  now apply inlineDeclarations_single.
Qed.

Lemma single_inline_declaration_overrides_witness :
  computeStyles plainConverter []
                (Element "div" [("id", "a"); ("style", "color:green")] [])
                idThenTag {["color" := "black"]}
    !! "color" = Some "green".
Proof.
  apply (single_inline_declaration_overrides plainConverter [] "div"
           [("id", "a"); ("style", "color:green")] [] idThenTag
           {["color" := "black"]} "color" "green");
    first [reflexivity | discriminate].
Defined.

(** C2.  The value of an inline declaration is cut at its second colon:
    for [<div style="background:url(http://x/y.png)">] the resolved
    [background] is [url(http], whatever the rule map, the matcher and
    the parent's style are.  A value without colon overrides them as
    claimed: [<div id="a" style="color: green">] resolves [color] to
    [green]. *)
Theorem inline_value_is_cut_at_colon
        (this : Converter) (position : Path) (cssRules : CssRules)
        (parentStyles : Styles) :
  inlineDeclarations "background:url(http://x/y.png)"
  = [("background", "url(http")]
  /\ computeStyles this position urlDiv cssRules parentStyles !! "background"
     = Some "url(http"
  /\ computeStyles this position divGreen cssRules parentStyles !! "color"
     = Some "green".
Proof.
  split; [vm_compute; reflexivity|]. split.
  - apply (last_inline_declaration_wins this position urlDiv cssRules
             parentStyles [] [] "background" "url(http");
      [discriminate | vm_compute; reflexivity | intros v' []].
  - apply (last_inline_declaration_wins this position divGreen cssRules
             parentStyles [] [] "color" "green");
      [discriminate | vm_compute; reflexivity | intros v' []].
Qed.

End CascadeFacts.

(** ** Auto-layout and sizes of converted elements *)

Module ElementFacts.
Import Js Dom Figma Exn FigmaConverter CascadeFacts Statements.

(** With [display: flex], the layout mode is read from the key
    [flexDirection] of the style object; both sizing modes are [AUTO]; a
    non-empty [gap] gives the item spacing. *)
Lemma getLayoutProperties_flex (styles : Styles) (viewport : Resources.Viewport) :
  styles !! "display" = Some "flex" ->
  let props := getLayoutProperties styles viewport in
  propsLayoutMode props
  = Some (if sameOpt (styles !! "flexDirection") "column" then VERTICAL else HORIZONTAL)
  /\ propsPrimaryAxisSizingMode props = Some AUTO
  /\ propsCounterAxisSizingMode props = Some AUTO
  /\ (forall gap, styles !! "gap" = Some gap -> truthy gap = true ->
                  propsItemSpacing props = Some (parseFloat gap)).
Proof.
  intros Hd. unfold getLayoutProperties. rewrite Hd. cbn.
  repeat split. intros gap Hg Ht. rewrite Hg, Ht. reflexivity.
Qed.

(** C4.  An element whose effective style has [display: flex] and
    [flex-direction: column] gets layout mode HORIZONTAL, from an inline
    style as well as from a style sheet rule: the cascade stores the
    property under the key [flex-direction] and [getLayoutProperties] reads
    the key [flexDirection].  The sizing modes are AUTO and the gap becomes
    the item spacing.  Only a declaration spelled [flexDirection] gives
    VERTICAL. *)
Theorem flex_column_gets_horizontal :
  computeStyles plainConverter [] flexColumnInline [] ∅ !! "flex-direction"
    = Some "column"
  /\ autoLayoutOf (convertElement plainConverter [] viewport1000 []
                                  flexColumnInline ∅)
     = Some (Some HORIZONTAL, Some AUTO, Some AUTO, Some (ofZ 10))
  /\ computeStyles plainConverter [] flexColumnPlain flexColumnRules ∅
       !! "flex-direction"
     = Some "column"
  /\ autoLayoutOf (convertElement plainConverter flexColumnRules viewport1000 []
                                  flexColumnPlain ∅)
     = Some (Some HORIZONTAL, Some AUTO, Some AUTO, Some (ofZ 10))
  /\ autoLayoutOf (convertElement plainConverter [] viewport1000 []
                                  flexColumnCamel ∅)
     = Some (Some VERTICAL, Some AUTO, Some AUTO, None).
Proof. repeat split; vm_compute; reflexivity. Qed.

(** *** Sizes *)


(** The attributes of an image and of vector markup are read in the same
    way: [<img src="a.png" width="-5">], for an image of unknown size, and
    [<svg width="-5" height="3">] get width -5. *)
Lemma negative_attribute_gives_negative_size :
  (exists node,
      convertElement pictureConverter [] viewport1000 []
                     (Element "img" [("src", "a.png"); ("width", "-5")] []) ∅
      = Some node
      /\ Figma.width (fieldsOf node) = Some (ofZ (-5)))
  /\ (exists node,
         convertElement pictureConverter [] viewport1000 []
                        (Element "svg" [("width", "-5"); ("height", "3")] []) ∅
         = Some node
         /\ Figma.width (fieldsOf node) = Some (ofZ (-5))).
Proof.
  split; eexists; (split; [vm_compute; reflexivity | reflexivity]).
Qed.

End ElementFacts.

(** ** Vector markup *)

Module SvgFacts.
Import Js Dom Figma Exn FigmaConverter SvgConverter Statements.

Lemma paintOf_bad (p : option PropValue) :
  badPaint p = true -> paintOf p = Thrown.
Proof.
  destruct p as [[s|q|]|]; cbn; try discriminate.
  - intros ->. reflexivity.
  - reflexivity.
Qed.

(** [convertSvgChildElement] on an element, in terms of
    [convertSvgChildren]. *)
Lemma convertSvgChildElement_eq (rawTag : option string)
      (props : list (string * PropValue)) (kids : list SvgAst) :
  convertSvgChildElement (SvgElement rawTag props kids)
  = if isEmpty (loweredTag rawTag) then Returned None
    else
      let! fillPaints := paintOf (assoc "fill" props) in
      let! strokePaints := paintOf (assoc "stroke" props) in
      let fields := childFields (loweredTag rawTag) props fillPaints strokePaints in
      match kids with
      | [] => Returned (Some (Node fields None))
      | _ :: _ =>
          let! converted := convertSvgChildren kids in
          Returned (Some (Node fields (Some converted)))
      end.
Proof. destruct kids; reflexivity. Qed.

Lemma convertSvgChildElement_kids (rawTag : option string)
      (props : list (string * PropValue)) (kids : list SvgAst) :
  isEmpty (loweredTag rawTag) = false ->
  convertSvgChildren kids = Thrown ->
  convertSvgChildElement (SvgElement rawTag props kids) = Thrown.
Proof.
  intros Htag Hkids.
  rewrite convertSvgChildElement_eq, Htag.
  destruct (paintOf (assoc "fill" props)); [|reflexivity].
  destruct (paintOf (assoc "stroke" props)); [|reflexivity].
  cbn [bind].
  destruct kids as [|k kids']; [discriminate|].
  rewrite Hkids. reflexivity.
Qed.

Lemma convertSvgChildren_thrown (l : list SvgAst) (child : SvgAst) :
  In child l ->
  convertSvgChildElement child = Thrown ->
  convertSvgChildren l = Thrown.
Proof.
  induction l as [|c rest IH]; intros Hin Hthrown; [destruct Hin|].
  cbn [convertSvgChildren].
  destruct Hin as [-> | Hin].
  - rewrite Hthrown. reflexivity.
  - destruct (convertSvgChildElement c); [|reflexivity].
    cbn [bind]. rewrite (IH Hin Hthrown). reflexivity.
Qed.

(** An exception raised at any depth reaches the top of the element. *)
Lemma raises_thrown (ast : SvgAst) :
  Raises ast -> convertSvgChildElement ast = Thrown.
Proof.
  induction 1 as [rawTag props kids Htag Hbad
                 | rawTag props kids child Htag Hin _ IH].
  - rewrite convertSvgChildElement_eq, Htag.
    apply orb_true_iff in Hbad as [Hbad | Hbad].
    + rewrite (paintOf_bad _ Hbad). reflexivity.
    + rewrite (paintOf_bad _ Hbad).
      destruct (paintOf (assoc "fill" props)); reflexivity.
  - apply convertSvgChildElement_kids; [exact Htag|].
    now apply (convertSvgChildren_thrown kids child).
Qed.

(** The body of [convertSvgElement] throws when the parser throws, and when
    the conversion of a parsed element throws at any depth. *)
Lemma convertSvgBody_thrown (parse : ParseSvg) (svg : DomNode) :
  parse svg = Thrown
  \/ (exists parsed ast, parse svg = Returned parsed /\ In ast parsed /\ Raises ast) ->
  convertSvgBody parse svg = Thrown.
Proof.
  unfold convertSvgBody. intros [-> | (parsed & ast & -> & Hin & Hraises)].
  - reflexivity.
  - cbn [bind]. destruct parsed as [|a rest]; [destruct Hin|].
    rewrite (convertSvgChildren_thrown (a :: rest) ast Hin (raises_thrown _ Hraises)).
    reflexivity.
Qed.

Lemma svg_is_tag (tag : string) (attribs : list (string * string))
      (kids : list DomNode) :
  toLowerCase tag = "svg" -> isTagKind (Element tag attribs kids) = true.
Proof.
  intro H. unfold isTagKind, kindOf.
  destruct (String.eqb tag "script") eqn:E1.
  { apply String.eqb_eq in E1. subst. discriminate. }
  destruct (String.eqb tag "style") eqn:E2.
  { apply String.eqb_eq in E2. subst. discriminate. }
  reflexivity.
Qed.

(** [convertElement] on an [svg] element is the renamed result of
    [convertSvgElement]. *)
Lemma convertElement_svg (this : Converter) (cssRules : CssRules)
      (viewport : Resources.Viewport) (position : Path) (tag : string)
      (attribs : list (string * string)) (kids : list DomNode)
      (parentStyles : Styles) :
  toLowerCase tag = "svg" ->
  convertElement this cssRules viewport position (Element tag attribs kids)
                 parentStyles
  = Some (renamed (tryCatch (convertSvgBody (parseSVG this) (Element tag attribs kids))
                            placeholder)
                  (Element tag attribs kids)).
Proof.
  intro H. cbn [convertElement].
  rewrite (svg_is_tag _ attribs kids H). cbn [negb]. rewrite H.
  cbn [isSkipped skippedTags existsb String.eqb Ascii.eqb Bool.eqb orb].
  unfold convertSvgElement, isSvgElement.
  cbn [isElement tagNameOf andb]. rewrite H. reflexivity.
Qed.

(** C7.  Conversion of an [svg] element always returns a node.  When the
    conversion of the subtree throws (the parser, or the conversion of a
    parsed element at any depth), [convertSvgElement] returns the
    placeholder, and [convertElement] returns it under the element's label:
    one VECTOR node of width 100 and height 100 with one flat grey fill and
    no children. *)
Theorem svg_failure_gives_placeholder
        (this : Converter) (cssRules : CssRules) (viewport : Resources.Viewport)
        (position : Path) (tag : string) (attribs : list (string * string))
        (kids : list DomNode) (parentStyles : Styles) :
  let svg := Element tag attribs kids in
  toLowerCase tag = "svg" ->
  (exists node, convertElement this cssRules viewport position svg parentStyles
                = Some node)
  /\ (parseSVG this svg = Thrown
      \/ (exists parsed ast,
             parseSVG this svg = Returned parsed /\ In ast parsed /\ Raises ast) ->
      convertSvgElement (parseSVG this) svg = Some placeholder
      /\ exists node,
           convertElement this cssRules viewport position svg parentStyles = Some node
           /\ node = renamed placeholder svg
           /\ type (fieldsOf node) = VECTOR
           /\ Figma.width (fieldsOf node) = Some (ofZ 100)
           /\ Figma.height (fieldsOf node) = Some (ofZ 100)
           /\ fills (fieldsOf node)
              = Some [Solid (mkRGBA (Num (4 # 5)) (Num (4 # 5)) (Num (4 # 5)) (ofZ 1))]
           /\ childrenOf node = []).
Proof.
  intros svg Hsvg. split.
  - eexists. apply convertElement_svg. exact Hsvg.
  - intro Hthrow. apply convertSvgBody_thrown in Hthrow.
    split.
    + unfold convertSvgElement, svg. cbn [isElement tagNameOf andb].
      rewrite Hsvg. cbn [String.eqb negb]. fold svg. rewrite Hthrow. reflexivity.
    + exists (renamed placeholder svg).
      unfold svg at 1. rewrite (convertElement_svg _ _ _ _ _ _ _ _ Hsvg).
      fold svg. rewrite Hthrow. repeat split.
Qed.

Lemma svg_failure_gives_placeholder_witness :
  convertSvgElement (parseSVG brokenConverter) brokenSvg = Some placeholder.
Proof.
  apply (svg_failure_gives_placeholder brokenConverter []
           viewport1000 [] "svg" []
           [Element "g" [] [Element "path" [("fill", "7"); ("d", "M0 0")] []]] ∅).
  - reflexivity.
  - right. eexists. eexists. split; [reflexivity|]. split; [left; reflexivity|].
    eapply raises_below; [reflexivity | left; reflexivity |].
    eapply raises_below; [reflexivity | left; reflexivity |].
    apply raises_here; reflexivity.
Defined.

End SvgFacts.

(** ** The tree builder *)

Module TreeFacts.
Import Js Dom Figma Exn FigmaConverter CascadeFacts Statements.

(** Induction on a document node, with the hypothesis for every child. *)
Lemma DomNode_induction (P : DomNode -> Prop) :
  (forall tag attribs kids, Forall P kids -> P (Element tag attribs kids)) ->
  (forall d, P (TextNode d)) ->
  (forall d, P (CommentNode d)) ->
  forall n, P n.
Proof.
  intros Helem Htext Hcomment.
  fix IH 1. intros [tag attribs kids | d | d].
  - apply Helem. induction kids as [|k kids IHkids]; constructor.
    + apply IH.
    + exact IHkids.
  - apply Htext.
  - apply Hcomment.
Qed.





(** *** Skipped tags *)

Lemma convertElement_skipped (this : Converter) (cssRules : CssRules)
      (viewport : Resources.Viewport) (position : Path) (element : DomNode)
      (parentStyles : Styles) :
  isSkipped (toLowerCase (tagNameOf element)) = true ->
  convertElement this cssRules viewport position element parentStyles = None.
Proof.
  destruct element as [tag attribs kids | d | d]; [|reflexivity|reflexivity].
  cbn [tagNameOf]. intro H. cbn [convertElement].
  destruct (negb (isTagKind (Element tag attribs kids))); [reflexivity|].
  rewrite H. reflexivity.
Qed.

(** [convertElement] on an element, with the loop over its children
    written as [convertChildren]. *)
Lemma convertElement_eq (this : Converter) (cssRules : CssRules)
      (viewport : Resources.Viewport) (position : Path) (rawTag : string)
      (attribs : list (string * string)) (childNodes : list DomNode)
      (parentStyles : Styles) :
  let element := Element rawTag attribs childNodes in
  let tagName := toLowerCase rawTag in
  let computedStyles := computeStyles this position element cssRules parentStyles in
  convertElement this cssRules viewport position element parentStyles
  = if negb (isTagKind element) then None
    else if isSkipped tagName then None
    else if SvgConverter.isSvgElement tagName then
      match SvgConverter.convertSvgElement (parseSVG this) element with
      | Some svgNode => Some (renamed svgNode element)
      | None => None
      end
    else
      match (if String.eqb tagName "img" then imageFor this element else None) with
      | Some image =>
          Some (createImageNode this element image computedStyles viewport)
      | None =>
          let converted :=
            convertChildren this cssRules viewport position computedStyles
                            childNodes O in
          let content := trim (text element) in
          Some (assemble tagName computedStyles viewport
                  match converted with
                  | [] => if truthy content
                          then [textChild this content computedStyles] else []
                  | _ :: _ => converted
                  end)
      end.
Proof.
  intros element tagName computedStyles. subst element.
  cbn [convertElement]. fold tagName.
  destruct (negb (isTagKind (Element rawTag attribs childNodes))); [reflexivity|].
  fold computedStyles.
  destruct (isSkipped tagName); [reflexivity|].
  destruct (SvgConverter.isSvgElement tagName); [reflexivity|].
  destruct (if String.eqb tagName "img"
            then imageFor this (Element rawTag attribs childNodes) else None);
    [reflexivity|].
  cbv zeta.
  match goal with
  | |- context [?visit childNodes O] =>
      assert (Hloop : forall l i,
                 visit l i
                 = convertChildren this cssRules viewport position computedStyles l i)
  end.
  { induction l as [|child rest IH]; intro i; [reflexivity|].
    cbn [convertChildren]. destruct child as [t a k | d | d].
    - rewrite <- !IH. reflexivity.
    - rewrite <- IH. reflexivity.
    - rewrite <- IH. reflexivity. }
  rewrite Hloop. reflexivity.
Qed.

(** [<div><p>Hello</p></div>] without style sheet: a frame named [div]
    with one child, a text node named [p] whose characters are [Hello]. *)
Lemma hello_example :
  exists frame paragraph,
    convertElement plainConverter [] viewport1000 []
                   (Element "div" [] [Element "p" [] [TextNode "Hello"]]) ∅
    = Some frame
    /\ name (fieldsOf frame) = Some "div"
    /\ type (fieldsOf frame) = FRAME
    /\ childrenOf frame = [paragraph]
    /\ type (fieldsOf paragraph) = TEXT
    /\ characters (fieldsOf paragraph) = Some "Hello".
Proof. do 2 eexists. vm_compute. repeat split. Qed.

Lemma convertChildren_skipped (this : Converter) (cssRules : CssRules)
      (viewport : Resources.Viewport) (position : Path) (styles : Styles)
      (child : DomNode) (rest : list DomNode) (i : nat) :
  isElement child = true ->
  isSkipped (toLowerCase (tagNameOf child)) = true ->
  convertChildren this cssRules viewport position styles (child :: rest) i
  = convertChildren this cssRules viewport position styles rest (S i).
Proof.
  intros He Hs. destruct child as [tag attribs kids | d | d]; try discriminate.
  cbn [convertChildren]. now rewrite convertElement_skipped.
Qed.

(** An element tagged [script], [style], [meta], [link], [title] or
    [head] that the tree builder visits gives no node, whatever its
    attributes and children are: [convertElement] returns [null] for it and
    it adds nothing to the converted children of its parent. *)
Lemma skipped_element_yields_nothing
      (this : Converter) (cssRules : CssRules) (viewport : Resources.Viewport)
      (tag : string) (attribs : list (string * string)) (kids : list DomNode) :
  isSkipped (toLowerCase tag) = true ->
  (forall position parentStyles,
      convertElement this cssRules viewport position (Element tag attribs kids)
                     parentStyles = None)
  /\ (forall position styles rest i,
         convertChildren this cssRules viewport position styles
                         (Element tag attribs kids :: rest) i
         = convertChildren this cssRules viewport position styles rest (S i)).
Proof.
  intro Hs. split; intros.
  - now apply convertElement_skipped.
  - now apply convertChildren_skipped.
Qed.

(** C6.  The text under a skipped tag reaches the output.  The [title] of
    [<div><title>Home</title></div>] gives no node of its own, and the
    [div], left without converted children, takes the text of its whole
    subtree: it gets a text child whose characters are [Home], whatever
    the converter, the rules, the viewport and the parent's style are.
    On the canvas of [<body><div><title>Home</title></div></body>] the
    text [Home] appears, and without the [title] it does not. *)
Theorem skipped_title_text_reaches_output
        (this : Converter) (cssRules : CssRules) (viewport : Resources.Viewport)
        (position : Path) (parentStyles : Styles) :
  convertElement this cssRules viewport (position ++ [O])%list
                 (Element "title" [] [TextNode "Home"])
                 (computeStyles this position
                    (Element "div" [] [Element "title" [] [TextNode "Home"]])
                    cssRules parentStyles)
  = None
  /\ (exists frame label,
         convertElement this cssRules viewport position
                        (Element "div" [] [Element "title" [] [TextNode "Home"]])
                        parentStyles
         = Some frame
         /\ childrenOf frame = [label]
         /\ type (fieldsOf label) = TEXT
         /\ characters (fieldsOf label) = Some "Home")
  /\ canvasTexts (htmlToFigma plainConverter (Some titledDiv) (Returned None)
                              viewport1000)
     = Some ["Home"]
  /\ canvasTexts (htmlToFigma plainConverter (Some (prune titledDiv))
                              (Returned None) viewport1000)
     = Some []
  /\ ~ skippedSubtreesInert plainConverter (Returned None) viewport1000.
Proof.
  split; [reflexivity|]. split.
  { do 2 eexists. rewrite convertElement_eq. cbn [negb isTagKind kindOf].
    split; [reflexivity|]. repeat split. }
  split; [vm_compute; reflexivity|]. split; [vm_compute; reflexivity|].
  intro H. specialize (H titledDiv).
  apply (f_equal canvasTexts) in H.
  vm_compute in H. discriminate.
Qed.

(** *** The children of body *)





(** The loop over the children of [body] ends at the first exception. *)
Lemma mapAll_thrown {A B : Type} (f : A -> Outcome B) (l : list A) (a : A) :
  In a l -> f a = Thrown -> mapAll f l = Thrown.
Proof.
  intros Hin Ha. induction l as [|x rest IH]; [destruct Hin|].
  cbn [mapAll]. destruct Hin as [-> | Hin].
  - now rewrite Ha.
  - destruct (f x); [|reflexivity]. cbn [bind]. now rewrite (IH Hin).
Qed.

Lemma mapAll_returned {A B : Type} (f : A -> Outcome B) (l : list A) :
  Forall (fun a => exists b, f a = Returned b) l ->
  exists bs, mapAll f l = Returned bs.
Proof.
  induction 1 as [|a rest [b Hb] _ [bs Hbs]]; [now exists []|].
  exists (b :: bs). cbn [mapAll]. now rewrite Hb, Hbs.
Qed.

(** A child of [body] whose tag name the selection engine cannot read
    makes the whole conversion fail: nothing catches the exception. *)
Lemma unreadable_tag_name_fails
      (this : Converter) (parsedCss : CssTree.Parsed)
      (viewport : Resources.Viewport) (body child : DomNode) :
  In child (children body) ->
  isTagKind child = true ->
  findByTagName this body (tagNameOf child) = Thrown ->
  htmlToFigma this (Some body) parsedCss viewport = Thrown.
Proof.
  intros Hin Hkind Hfind. unfold htmlToFigma.
  rewrite (mapAll_thrown _ _ child Hin); [reflexivity|].
  unfold convertTopLevel. now rewrite Hkind, Hfind.
Qed.

Lemma unreadable_tag_name_fails_witness :
  htmlToFigma plainConverter
              (Some (Element "body" []
                       [Element "p" [] [TextNode "a"];
                        Element "o:p" [] [TextNode "b"]]))
              (Returned None) viewport1000
  = Thrown.
Proof.
  apply (unreadable_tag_name_fails plainConverter (Returned None) viewport1000 _
           (Element "o:p" [] [TextNode "b"])).
  - right. now left.
  - reflexivity.
  - reflexivity.
Defined.

(** When the children of [body] have plain names, the conversion returns
    a document. *)
Lemma plain_names_convert
      (this : Converter) (parsedCss : CssTree.Parsed)
      (viewport : Resources.Viewport) (body : DomNode) :
  Forall (fun child => isPlainName (tagNameOf child) = true) (children body) ->
  exists document,
    htmlToFigma this (Some body) parsedCss viewport = Returned document.
Proof.
  intro Hplain. unfold htmlToFigma.
  destruct (mapAll_returned
              (convertTopLevel this (parseCssRules parsedCss) viewport body)
              (children body)) as [pushed Hpushed].
  - eapply Forall_impl; [exact Hplain|]. intros child Hchild.
    unfold convertTopLevel, findByTagName. rewrite Hchild.
    destruct (isTagKind child); eexists; reflexivity.
  - rewrite Hpushed. eexists. reflexivity.
Qed.

End TreeFacts.

(** ** Selectors *)

Module SelectorFacts.
Import Js Dom SelectorMatcher Statements.

(** Case analysis on all 256 characters. *)
Ltac each_char c := destruct c as [[] [] [] [] [] [] [] []].

Lemma letter_is_plain (c : ascii) :
  isLetter c = true ->
  isHash c = false /\ isClassLike c = false /\ isBoundary c = false.
Proof. each_char c; vm_compute; intro H; try discriminate H; auto. Qed.

Lemma boundary_is_plain (c : ascii) :
  isBoundary c = true ->
  isHash c = false /\ isClassLike c = false /\ isLetter c = false.
Proof. each_char c; vm_compute; intro H; try discriminate H; auto. Qed.

Lemma countChars_app (p : ascii -> bool) (a b : string) :
  countChars p (a ++ b) = (countChars p a + countChars p b)%nat.
Proof.
  induction a as [|c r IH]; [reflexivity|].
  change (String c r ++ b) with (String c (r ++ b)).
  cbn [countChars]. rewrite IH. lia.
Qed.

(** In a word of letters nothing counts as an id or a class, and no tag
    begins after the first letter. *)
Lemma letters_count (s : string) :
  countChars (fun c => negb (isLetter c)) s = 0%nat ->
  countChars isHash s = 0%nat /\ countChars isClassLike s = 0%nat
  /\ countTags false s = 0%nat.
Proof.
  induction s as [|c r IH]; [auto|].
  cbn [countChars countTags]. destruct (isLetter c) eqn:Hc; [|discriminate].
  cbn [negb]. intro H. destruct (IH H) as (H1 & H2 & H3).
  destruct (letter_is_plain c Hc) as (-> & -> & ->).
  cbn [andb]. rewrite H1, H2, H3. auto.
Qed.

Lemma word_is_one_tag (s : string) :
  isBareTag s = true -> countTags true s = 1%nat.
Proof.
  unfold isBareTag. destruct s as [|c r]; [discriminate|].
  cbn [truthy isEmpty negb andb countChars countTags].
  destruct (isLetter c) eqn:Hc; cbn [negb]; [|discriminate].
  intro H. apply Nat.eqb_eq in H.
  destruct (letter_is_plain c Hc) as (_ & _ & ->).
  destruct (letters_count r H) as (_ & _ & ->). reflexivity.
Qed.

(** X1.  For every name made of letters, [getSelectorSpecificity] gives
    1000 to the id selector, 100 to the class selector and 1 to the type
    selector of that name. *)
Theorem specificity_of_simple_selectors (name : string) :
  isBareTag name = true ->
  getSelectorSpecificity (String "#" name) = 1000%nat
  /\ getSelectorSpecificity (String "." name) = 100%nat
  /\ getSelectorSpecificity name = 1%nat.
Proof.
  intro H. pose proof (word_is_one_tag name H) as Htag.
  unfold isBareTag in H. apply andb_true_iff in H as [_ H].
  apply Nat.eqb_eq in H. destruct (letters_count name H) as (H1 & H2 & H3).
  unfold getSelectorSpecificity. repeat split.
  - change (countChars isHash (String "#" name)) with (S (countChars isHash name)).
    change (countChars isClassLike (String "#" name))
      with (countChars isClassLike name).
    change (countTags true (String "#" name)) with (countTags false name).
    rewrite H1, H2, H3. reflexivity.
  - change (countChars isHash (String "." name)) with (countChars isHash name).
    change (countChars isClassLike (String "." name))
      with (S (countChars isClassLike name)).
    change (countTags true (String "." name)) with (countTags false name).
    rewrite H1, H2, H3. reflexivity.
  - rewrite H1, H2, Htag. reflexivity.
Qed.

Lemma specificity_of_simple_selectors_witness :
  getSelectorSpecificity "#main" = 1000%nat.
Proof. apply (specificity_of_simple_selectors "main"). reflexivity. Defined.

Lemma countTags_app (atStart : bool) (a : string) (sep : ascii) (b : string) :
  isBoundary sep = true ->
  countTags atStart (a ++ String sep b)
  = (countTags atStart a + countTags true b)%nat.
Proof.
  intro Hsep. revert atStart. induction a as [|c r IH]; intro atStart.
  - change (EmptyString ++ String sep b) with (String sep b).
    cbn [countTags]. destruct (boundary_is_plain sep Hsep) as (_ & _ & ->).
    rewrite Hsep, andb_false_r. reflexivity.
  - change (String c r ++ String sep b) with (String c (r ++ String sep b)).
    cbn [countTags]. rewrite IH. lia.
Qed.

(** X2.  Joining two selectors with a combinator (white space, [>], [+] or
    [~]) adds their specificities. *)
Theorem specificity_adds_over_combinator (a b : string) (sep : ascii) :
  isBoundary sep = true ->
  getSelectorSpecificity (a ++ String sep b)
  = (getSelectorSpecificity a + getSelectorSpecificity b)%nat.
Proof.
  intro Hsep. unfold getSelectorSpecificity.
  rewrite !countChars_app, (countTags_app _ _ _ _ Hsep).
  cbn [countChars]. destruct (boundary_is_plain sep Hsep) as (-> & -> & _).
  lia.
Qed.

Lemma specificity_adds_over_combinator_witness :
  getSelectorSpecificity ("#nav" ++ String ">" "li.item")
  = (getSelectorSpecificity "#nav" + getSelectorSpecificity "li.item")%nat.
Proof. apply specificity_adds_over_combinator. reflexivity. Defined.

Lemma span_stops (p : ascii -> bool) (a : string) (d : ascii) (rest : string) :
  countChars (fun c => negb (p c)) a = 0%nat -> p d = false ->
  span p (a ++ String d rest) = (a, String d rest).
Proof.
  intros Ha Hd. induction a as [|c r IH].
  - change (EmptyString ++ String d rest) with (String d rest).
    cbn [span]. rewrite Hd. reflexivity.
  - change (String c r ++ String d rest) with (String c (r ++ String d rest)).
    cbn [span countChars] in *. destruct (p c); [|discriminate].
    rewrite (IH Ha). reflexivity.
Qed.

Lemma span_all (p : ascii -> bool) (a : string) :
  countChars (fun c => negb (p c)) a = 0%nat -> span p a = (a, EmptyString).
Proof.
  induction a as [|c r IH]; [reflexivity|].
  cbn [span countChars]. destruct (p c); [|discriminate].
  intro H. rewrite (IH H). reflexivity.
Qed.

Lemma leadingName_cut (name : string) (d : ascii) (rest : string) :
  countChars isDelimiter name = 0%nat -> isDelimiter d = true ->
  leadingName (name ++ String d rest) = name /\ leadingName name = name.
Proof.
  intros Hn Hd. unfold leadingName.
  assert (H : countChars (fun c => negb (negb (isDelimiter c))) name = 0%nat).
  { rewrite <- Hn. clear. induction name as [|c r IH]; [reflexivity|].
    cbn [countChars]. rewrite IH, negb_involutive. reflexivity. }
  rewrite (span_stops _ _ _ _ H), (span_all _ _ H); [auto|].
  now rewrite Hd.
Qed.

Lemma simpleMatch_id (element : DomNode) (s : string) :
  simpleMatch element (String "#" s) = sameOpt (attr element "id") (leadingName s).
Proof. destruct s; reflexivity. Qed.

Lemma simpleMatch_class (element : DomNode) (s : string) :
  simpleMatch element (String "." s) = hasClass element (leadingName s).
Proof. destruct s; reflexivity. Qed.

(** X3.  The restricted matcher judges an id or class selector by its first
    component only: whatever follows the first delimiter (a combinator, a
    comma, another class, a pseudo-class) is ignored. *)
Theorem simpleMatch_reads_first_component
        (element : DomNode) (name : string) (d : ascii) (rest : string) :
  countChars isDelimiter name = 0%nat ->
  isDelimiter d = true ->
  simpleMatch element (String "#" (name ++ String d rest))
  = simpleMatch element (String "#" name)
  /\ simpleMatch element (String "." (name ++ String d rest))
     = simpleMatch element (String "." name).
Proof.
  intros Hn Hd. destruct (leadingName_cut name d rest Hn Hd) as [H1 H2].
  rewrite !simpleMatch_id, !simpleMatch_class, H1, H2. split; reflexivity.
Qed.

Lemma simpleMatch_reads_first_component_witness :
  simpleMatch divA (String "#" ("a" ++ String " " ".missing"))
  = simpleMatch divA (String "#" "a").
Proof.
  apply (simpleMatch_reads_first_component divA "a" " " ".missing");
    reflexivity.
Defined.

Lemma letter_starts_nothing (c : ascii) (r : string) :
  isLetter c = true ->
  startsWith (String c r) "#" = false
  /\ startsWith (String c r) "." = false
  /\ bracketBody (String c r) = None.
Proof.
  each_char c; vm_compute; intro H; try discriminate H; auto.
Qed.

(** X27.  The fallback matcher matches nothing through a selector that
    goes on after a tag name: a tag followed by a combinator, a class, a
    pseudo-class, an attribute or a comma is never matched, whatever the
    element. *)
Theorem fallback_rejects_compound_tag
        (element : DomNode) (tag : string) (d : ascii) (rest : string) :
  isBareTag tag = true ->
  isLetter d = false ->
  simpleMatch element (tag ++ String d rest) = false.
Proof.
  intros Htag Hd. unfold isBareTag in Htag.
  apply andb_true_iff in Htag as [Hne Hall].
  destruct tag as [|c r]; [discriminate|].
  change (String c r ++ String d rest) with (String c (r ++ String d rest)).
  apply Nat.eqb_eq in Hall. cbn [countChars] in Hall.
  destruct (isLetter c) eqn:Hc; [|discriminate].
  destruct (letter_starts_nothing c (r ++ String d rest) Hc) as (H1 & H2 & H3).
  unfold simpleMatch. rewrite H1, H2, H3.
  assert (Hbare : isBareTag (String c (r ++ String d rest)) = false).
  { unfold isBareTag. apply andb_false_iff. right. apply Nat.eqb_neq.
    cbn [countChars]. rewrite Hc, countChars_app. cbn [countChars].
    rewrite Hd. cbn. lia. }
  rewrite Hbare. reflexivity.
Qed.

Lemma fallback_rejects_compound_tag_witness :
  simpleMatch (Element "a" [("class", "link")] []) ("a" ++ ":hover") = false
  /\ simpleMatch (Element "li" [("class", "item")] []) ("li" ++ ".item") = false.
Proof.
  split.
  - apply (fallback_rejects_compound_tag _ "a" ":" "hover"); reflexivity.
  - apply (fallback_rejects_compound_tag _ "li" "." "item"); reflexivity.
Defined.

End SelectorFacts.

(** ** The rule map *)

Module RuleMapFacts.
Import Js Dom Figma Exn FigmaConverter Statements.

(** A prelude with children makes [selectorToString] raise; without
    children the selector is empty. *)
Lemma selectorToString_cases (prelude : option (list CssTree.PreludeItem)) :
  selectorToString prelude
  = match prelude with Some _ => Thrown | None => Returned "" end.
Proof.
  destruct prelude as [items|]; [|reflexivity].
  unfold selectorToString.
  match goal with |- bind ?c _ = _ => destruct c; reflexivity end.
Qed.

(** The callback for a rule raises or leaves the map as it is. *)
Lemma addRule_sets_nothing (prelude : option (list CssTree.PreludeItem))
      (block : option (list CssTree.BlockItem)) (rules : CssRules) :
  addRule prelude block rules = Thrown
  \/ addRule prelude block rules = Returned rules.
Proof.
  unfold addRule. rewrite selectorToString_cases.
  destruct prelude as [items|]; [now left|].
  cbn [bind]. destruct (declarationsOf block); [now right | now left].
Qed.

Lemma addRules_keeps (items : list CssTree.TopItem) (rules : CssRules) :
  addRules items rules = rules.
Proof.
  induction items as [|[prelude block|] rest IH]; [reflexivity| |exact IH].
  cbn [addRules].
  destruct (addRule_sets_nothing prelude block rules) as [-> | ->];
    [reflexivity | exact IH].
Qed.

Lemma parseCssRules_nil (parsed : CssTree.Parsed) : parseCssRules parsed = [].
Proof.
  destruct parsed as [[items|]|]; try reflexivity.
  apply addRules_keeps.
Qed.

(** X4.  Whatever css-tree returns for a style sheet, the rule map built
    by [parseCssRules] is empty: the selector of a rule is either empty
    (a prelude without children) or never computed, since [join] is called
    on a [List] of css-tree and raises inside the [try]; so no colour
    style is extracted either.  The style sheet [div { color: red }] is an
    example. *)
Theorem rule_map_is_always_empty
        (parsed : CssTree.Parsed) (prelude : option (list CssTree.PreludeItem)) :
  parseCssRules parsed = []
  /\ extractStyles (parseCssRules parsed) = []
  /\ (selectorToString prelude = Thrown \/ selectorToString prelude = Returned "")
  /\ selectorToString (Some [CssTree.Selector [identifier "div"]]) = Thrown
  /\ parseCssRules redSheet = [].
Proof.
  rewrite parseCssRules_nil. repeat split.
  rewrite selectorToString_cases. destruct prelude; [now left | now right].
Qed.

(** X5.  The conversion ignores the style sheet: [htmlToFigma] gives the
    same result for any two of them, and the document it returns carries
    no colour style. *)
Theorem style_sheet_is_ignored
        (this : Converter) (body : option DomNode)
        (parsedCss parsedCss' : CssTree.Parsed) (viewport : Resources.Viewport) :
  htmlToFigma this body parsedCss viewport
  = htmlToFigma this body parsedCss' viewport
  /\ (forall document,
         htmlToFigma this body parsedCss viewport = Returned document ->
         colorStyles document = []).
Proof.
  split.
  - unfold htmlToFigma. now rewrite !parseCssRules_nil.
  - intros document. unfold htmlToFigma. rewrite parseCssRules_nil.
    match goal with |- bind ?c _ = _ -> _ => destruct c end; [|discriminate].
    cbn [bind]. intros [= <-]. reflexivity.
Qed.

End RuleMapFacts.

(** ** Inheritance *)

Module InheritanceFacts.
Import Js Dom Figma Exn FigmaConverter Statements CascadeFacts.

(** X6.  A property that no matching rule and no inline declaration sets
    has, in the computed style of an element, the value it has in the
    parent's computed style (or none): every property is inherited. *)
Theorem undeclared_property_is_inherited
        (this : Converter) (position : Path) (element : DomNode)
        (cssRules : CssRules) (parentStyles : Styles) (p : string) :
  (forall rule, In rule cssRules ->
                matchesSelector this position element (fst rule) = true ->
                snd rule !! p = None) ->
  (forall v, ~ In (p, v) (inlineOf element)) ->
  computeStyles this position element cssRules parentStyles !! p
  = parentStyles !! p.
Proof.
  intros Hrules Hinline.
  rewrite computeStyles_eq, applyInline_untouched by exact Hinline.
  now apply applyRules_untouched.
Qed.

Lemma undeclared_property_is_inherited_witness :
  computeStyles plainConverter [] divGreen idThenTag {["width" := "10px"]}
    !! "width" = ({["width" := "10px"]} : Styles) !! "width".
Proof.
  apply undeclared_property_is_inherited.
  - intros rule Hin _. destruct Hin as [<- | [<- | []]]; reflexivity.
  - intros v Hin. vm_compute in Hin. destruct Hin as [Hin | []]. discriminate.
Defined.

Lemma applyRules_keeps (this : Converter) (position : Path) (element : DomNode)
      (p : string) (l : CssRules) (styles : Styles) :
  is_Some (styles !! p) ->
  is_Some (applyRules this position element l styles !! p).
Proof.
  revert styles. induction l as [|rule l IH]; intros styles H; [exact H|].
  rewrite applyRules_cons. apply IH.
  destruct (matchesSelector this position element (fst rule)); [|exact H].
  apply lookup_union_is_Some. now right.
Qed.

Lemma applyInline_keeps (p : string) (l : list (string * string)) (styles : Styles) :
  is_Some (styles !! p) -> is_Some (applyInline l styles !! p).
Proof.
  revert styles. induction l as [|[k v] l IH]; intros styles H; [exact H|].
  rewrite applyInline_cons. apply IH. unfold setProperty.
  destruct (String.eqb k "__proto__"); [exact H|].
  apply lookup_insert_is_Some'. now right.
Qed.

(** X7.  The cascade never removes a property: whatever is set in the
    parent's computed style is set in the element's computed style. *)
Theorem computed_style_keeps_parent_keys
        (this : Converter) (position : Path) (element : DomNode)
        (cssRules : CssRules) (parentStyles : Styles) (p : string) :
  is_Some (parentStyles !! p) ->
  is_Some (computeStyles this position element cssRules parentStyles !! p).
Proof.
  intro Hp. rewrite computeStyles_eq. apply applyInline_keeps.
  now apply applyRules_keeps.
Qed.

Lemma computed_style_keeps_parent_keys_witness :
  is_Some (computeStyles plainConverter [] divGreen idThenTag
                         {["width" := "10px"]} !! "width").
Proof.
  apply computed_style_keeps_parent_keys. vm_compute. eexists. reflexivity.
Defined.

End InheritanceFacts.

(** ** What the tree builder returns *)

Module BuilderFacts.
Import Js Dom Figma Exn FigmaConverter SvgConverter Statements TreeFacts SvgFacts.

Lemma lowerChar_idempotent (c : ascii) : lowerChar (lowerChar c) = lowerChar c.
Proof. SelectorFacts.each_char c; reflexivity. Qed.

Lemma toLowerCase_idempotent (s : string) :
  toLowerCase (toLowerCase s) = toLowerCase s.
Proof.
  induction s as [|c r IH]; [reflexivity|].
  cbn [toLowerCase mapString] in *. now rewrite lowerChar_idempotent, IH.
Qed.

(** X8.  [convertElement] returns [null] exactly for the nodes that are not
    tag-typed elements and for the elements with one of the six skipped tag
    names; every other element gives a node. *)
Theorem convertElement_null_iff
        (this : Converter) (cssRules : CssRules) (viewport : Resources.Viewport)
        (position : Path) (element : DomNode) (parentStyles : Styles) :
  convertElement this cssRules viewport position element parentStyles = None
  <-> isTagKind element = false
      \/ isSkipped (toLowerCase (tagNameOf element)) = true.
Proof.
  destruct element as [rawTag attribs kids | d | d];
    [|split; [now left | reflexivity] | split; [now left | reflexivity]].
  rewrite convertElement_eq. cbn [tagNameOf].
  destruct (isTagKind (Element rawTag attribs kids)) eqn:Hkind; cbn [negb];
    [|split; [now left | reflexivity]].
  destruct (isSkipped (toLowerCase rawTag)) eqn:Hskip;
    [split; [now right | reflexivity]|].
  assert (Hno' : forall n : DesignNode, Some n = None <-> true = false \/ false = true).
  { intro n. split; [discriminate | intros [H | H]; discriminate]. }
  destruct (isSvgElement (toLowerCase rawTag)) eqn:Hsvg.
  - unfold isSvgElement in Hsvg. rewrite toLowerCase_idempotent in Hsvg.
    unfold convertSvgElement. cbn [isElement tagNameOf andb]. rewrite Hsvg.
    cbn [negb]. apply Hno'.
  - destruct (if String.eqb (toLowerCase rawTag) "img"
              then imageFor this (Element rawTag attribs kids) else None);
      apply Hno'.
Qed.

Lemma textIsLeaf_node (f : NodeFields) (cs : option (list DesignNode)) :
  textIsLeaf (Node f cs)
  <-> (isText (type f) = true -> cs = None)
      /\ (characters f <> None -> isText (type f) = true)
      /\ Forall textIsLeaf (default [] cs).
Proof.
  cbn [textIsLeaf].
  assert (H : forall l,
             (fix all (l : list DesignNode) : Prop :=
                match l with
                | [] => True
                | c :: r => textIsLeaf c /\ all r
                end) l <-> Forall textIsLeaf l).
  { induction l as [|c r IH]; [split; [constructor | auto]|].
    rewrite Forall_cons_iff, IH. reflexivity. }
  destruct cs as [l|]; cbn [default].
  - rewrite H. reflexivity.
  - split; intros (H1 & H2 & _); repeat split; auto.
Qed.

(** Induction on parsed vector markup, with the hypothesis for every
    child. *)
Lemma SvgAst_induction (P : SvgAst -> Prop) :
  (forall rawTag props kids, Forall P kids -> P (SvgElement rawTag props kids)) ->
  P SvgOther ->
  forall ast, P ast.
Proof.
  intros Helem Hother. fix IH 1. intros [rawTag props kids|].
  - apply Helem. induction kids as [|k kids IHkids]; constructor.
    + apply IH.
    + exact IHkids.
  - exact Hother.
Qed.

Lemma childFields_type (tagName : string) (props : list (string * PropValue))
      (fillPaints strokePaints : option (list Paint)) :
  isText (type (childFields tagName props fillPaints strokePaints)) = false
  /\ characters (childFields tagName props fillPaints strokePaints) = None.
Proof. cbn. destruct (String.eqb tagName "g"); auto. Qed.

(** Reduces the shape of a node to the shape of its children. *)
Ltac node_shape :=
  apply textIsLeaf_node; cbn [type characters isText default];
  split; [intros ?; first [discriminate | congruence | reflexivity]|];
  split; [intros ?; first [discriminate | congruence | reflexivity]|].

Lemma svgChildren_shape (l : list SvgAst) :
  Forall (fun ast => forall n, convertSvgChildElement ast = Returned (Some n) ->
                               textIsLeaf n) l ->
  forall nodes, convertSvgChildren l = Returned nodes -> Forall textIsLeaf nodes.
Proof.
  induction 1 as [|ast rest Hast _ IH]; intros nodes H.
  - injection H as <-. constructor.
  - cbn [convertSvgChildren] in H.
    destruct (convertSvgChildElement ast) as [node|] eqn:E; [|discriminate].
    cbn [bind] in H.
    destruct (convertSvgChildren rest) as [others|]; [|discriminate].
    cbn [bind] in H. injection H as <-.
    destruct node as [n|]; [constructor|]; auto.
Qed.

Lemma svgChild_shape (ast : SvgAst) :
  forall n, convertSvgChildElement ast = Returned (Some n) -> textIsLeaf n.
Proof.
  induction ast as [rawTag props kids IHkids|] using SvgAst_induction;
    intros n H; [|discriminate].
  rewrite convertSvgChildElement_eq in H.
  destruct (isEmpty (loweredTag rawTag)); [discriminate|].
  destruct (paintOf (assoc "fill" props)) as [fp|]; [|discriminate].
  destruct (paintOf (assoc "stroke" props)) as [sp|]; [|discriminate].
  cbn [bind] in H. cbv zeta in H.
  destruct (childFields_type (loweredTag rawTag) props fp sp) as [Ht Hc].
  destruct kids as [|k kids'].
  - injection H as <-. node_shape. constructor.
  - destruct (convertSvgChildren (k :: kids')) as [converted|] eqn:E;
      [|discriminate].
    cbn [bind] in H. injection H as <-. node_shape.
    exact (svgChildren_shape _ IHkids _ E).
Qed.

Lemma svgRoot_shape (parse : ParseSvg) (svg svgNode : DomNode) (node : DesignNode) :
  convertSvgElement parse svg = Some node -> textIsLeaf (renamed node svgNode).
Proof.
  unfold convertSvgElement.
  destruct (negb (isElement svg && String.eqb (toLowerCase (tagNameOf svg)) "svg"));
    [discriminate|].
  intros [= <-]. unfold convertSvgBody.
  destruct (parse svg) as [parsed|]; cbn [bind tryCatch];
    [|unfold placeholder; cbn [renamed]; node_shape; constructor].
  destruct (match parsed with
            | [] => Returned []
            | _ :: _ => convertSvgChildren parsed
            end) as [kids|] eqn:E; cbn [bind tryCatch];
    [|unfold placeholder; cbn [renamed]; node_shape; constructor].
  cbn [renamed]. node_shape.
  destruct parsed as [|a rest].
  - injection E as <-. constructor.
  - apply (svgChildren_shape (a :: rest)); [|exact E].
    apply Forall_forall. intros ast _. apply svgChild_shape.
Qed.

Lemma assemble_shape (tagName : string) (styles : Styles)
      (viewport : Resources.Viewport) (children : list DesignNode) :
  Forall textIsLeaf children ->
  textIsLeaf (assemble tagName styles viewport children).
Proof.
  intro H. unfold assemble. apply textIsLeaf_node. cbn [type characters].
  destruct (isText (getElementType tagName)) eqn:Ht;
    destruct children as [|c r]; cbn [andb negb when default];
    (split; [intros ?; first [discriminate | congruence | reflexivity]|]);
    (split; [intros ?; first [discriminate | congruence | reflexivity]|]);
    first [exact H | constructor].
Qed.

Lemma convertChildren_shape (this : Converter) (cssRules : CssRules)
      (viewport : Resources.Viewport) (position : Path) (styles : Styles)
      (l : list DomNode) :
  Forall (fun child =>
            forall position parentStyles node,
              convertElement this cssRules viewport position child parentStyles
              = Some node -> textIsLeaf node) l ->
  forall i, Forall textIsLeaf
                   (convertChildren this cssRules viewport position styles l i).
Proof.
  induction 1 as [|child rest Hchild _ IH]; intro i; [constructor|].
  cbn [convertChildren]. destruct child as [t a k | d | d]; try apply IH.
  destruct (convertElement this cssRules viewport (position ++ [i])%list
                           (Element t a k) styles) as [node|] eqn:E;
    [constructor; [exact (Hchild _ _ _ E) | apply IH] | apply IH].
Qed.

(** X9.  In every tree [convertElement] returns, at every depth, a node of
    type TEXT has no children, and only nodes of type TEXT carry
    characters. *)
Theorem converted_text_is_leaf
        (this : Converter) (cssRules : CssRules) (viewport : Resources.Viewport)
        (element : DomNode) :
  forall position parentStyles node,
    convertElement this cssRules viewport position element parentStyles = Some node ->
    textIsLeaf node.
Proof.
  induction element as [rawTag attribs kids IHkids | d | d] using DomNode_induction;
    intros position parentStyles node H; try discriminate.
  rewrite convertElement_eq in H.
  destruct (negb (isTagKind (Element rawTag attribs kids))); [discriminate|].
  destruct (isSkipped (toLowerCase rawTag)); [discriminate|].
  destruct (isSvgElement (toLowerCase rawTag)).
  { destruct (convertSvgElement (parseSVG this) (Element rawTag attribs kids))
      as [svgNode|] eqn:E; [|discriminate].
    injection H as <-. exact (svgRoot_shape _ _ _ _ E). }
  destruct (if String.eqb (toLowerCase rawTag) "img"
            then imageFor this (Element rawTag attribs kids) else None).
  { injection H as <-. unfold createImageNode. node_shape. constructor. }
  cbv zeta in H. injection H as <-. apply assemble_shape.
  pose proof (convertChildren_shape this cssRules viewport position
                (computeStyles this position (Element rawTag attribs kids)
                               cssRules parentStyles) kids IHkids O) as Hkids.
  destruct (convertChildren this cssRules viewport position
              (computeStyles this position (Element rawTag attribs kids)
                             cssRules parentStyles) kids O) as [|c r].
  - match goal with |- context [if ?c then _ else _] => destruct c end;
      [|constructor].
    constructor; [|constructor]. unfold textChild. node_shape. constructor.
  - exact Hkids.
Qed.

Lemma converted_text_is_leaf_witness :
  exists node,
    convertElement plainConverter [] viewport1000 []
                   (Element "div" [] [Element "p" [] [TextNode "Hello"]]) ∅
    = Some node
    /\ textIsLeaf node.
Proof.
  eexists. split; [vm_compute; reflexivity|].
  apply (converted_text_is_leaf plainConverter [] viewport1000
           (Element "div" [] [Element "p" [] [TextNode "Hello"]]) [] ∅).
  vm_compute. reflexivity.
Defined.

End BuilderFacts.

(** ** Hexadecimal colours *)

Module ColourFacts.
Import Js Dom Figma Exn FigmaConverter SvgConverter Statements.

Lemma hexValue_cases (c : ascii) (v : Z) :
  hexValue c = Some v -> In (c, v) hexTable.
Proof.
  SelectorFacts.each_char c; vm_compute; intro H; try discriminate H;
    injection H as <-; repeat (first [left; reflexivity | right]).
Qed.

(** Two hexadecimal digits are read by [parseInt(pair, 16)] as the number
    they write, and the channel it gives lies between 0 and 1. *)
Lemma hex_pair (hi lo : ascii) (h l : Z) :
  hexValue hi = Some h -> hexValue lo = Some l ->
  parseInt true (String hi (String lo EmptyString)) = ofZ (16 * h + l)
  /\ unitRange (hexChannel h l).
Proof.
  intros Hhi Hlo.
  apply hexValue_cases in Hhi. apply hexValue_cases in Hlo.
  unfold hexTable in Hhi, Hlo. cbn [In] in Hhi, Hlo.
  repeat match goal with
         | H : _ \/ _ |- _ => destruct H as [H | H]
         | H : False |- _ => destruct H
         end;
    injection Hhi as <- <-; injection Hlo as <- <-;
    (split; [vm_compute; reflexivity | vm_compute; split; discriminate]).
Qed.

Lemma startsWith_hash (s : string) : startsWith (String "#" s) "#" = true.
Proof. destruct s; reflexivity. Qed.

(** X10.  For a colour written [#] and six hexadecimal digits,
    [colorToFigma] gives the three channels the pairs of digits write,
    divided by 255, and alpha 1; with eight digits, the fourth pair gives
    alpha.  All these values lie between 0 and 1. *)
Theorem hex_colour_channels
        (c1 c2 c3 c4 c5 c6 c7 c8 : ascii) (v1 v2 v3 v4 v5 v6 v7 v8 : Z) :
  hexValue c1 = Some v1 -> hexValue c2 = Some v2 ->
  hexValue c3 = Some v3 -> hexValue c4 = Some v4 ->
  hexValue c5 = Some v5 -> hexValue c6 = Some v6 ->
  hexValue c7 = Some v7 -> hexValue c8 = Some v8 ->
  colorToFigma (String "#" (text_of [c1; c2; c3; c4; c5; c6]))
  = mkRGBA (hexChannel v1 v2) (hexChannel v3 v4) (hexChannel v5 v6) (ofZ 1)
  /\ colorToFigma (String "#" (text_of [c1; c2; c3; c4; c5; c6; c7; c8]))
     = mkRGBA (hexChannel v1 v2) (hexChannel v3 v4) (hexChannel v5 v6)
              (hexChannel v7 v8)
  /\ unitRange (hexChannel v1 v2) /\ unitRange (hexChannel v3 v4)
  /\ unitRange (hexChannel v5 v6) /\ unitRange (hexChannel v7 v8).
Proof.
  intros H1 H2 H3 H4 H5 H6 H7 H8.
  destruct (hex_pair c1 c2 v1 v2 H1 H2) as [P12 U12].
  destruct (hex_pair c3 c4 v3 v4 H3 H4) as [P34 U34].
  destruct (hex_pair c5 c6 v5 v6 H5 H6) as [P56 U56].
  destruct (hex_pair c7 c8 v7 v8 H7 H8) as [P78 U78].
  split; [|split; [|tauto]].
  - unfold colorToFigma. rewrite startsWith_hash.
    cbn [sliceFrom text_of slice String.substring Nat.sub String.length Nat.eqb].
    rewrite P12, P34, P56. reflexivity.
  - unfold colorToFigma. rewrite startsWith_hash.
    cbn [sliceFrom text_of slice String.substring Nat.sub String.length Nat.eqb].
    rewrite P12, P34, P56, P78. reflexivity.
Qed.

Lemma hex_colour_channels_witness :
  colorToFigma (String "#" (text_of ["3"; "3"; "6"; "6"; "9"; "9"]%char))
  = mkRGBA (hexChannel 3 3) (hexChannel 6 6) (hexChannel 9 9) (ofZ 1).
Proof.
  apply (hex_colour_channels "3" "3" "6" "6" "9" "9" "f" "f" 3 3 6 6 9 9 15 15);
    reflexivity.
Defined.

(** X11.  The colour parser of the vector converter and [colorToFigma]
    give the same colour for every string that is not one of the five
    colour names the vector converter knows.  The table of names is an
    object literal: the inherited names are left out. *)
Theorem colour_parsers_agree (color : string) :
  assoc (toLowerCase color) namedColors = None ->
  existsb (String.eqb (toLowerCase color)) inheritedKeys = false ->
  parseColorString color = colorToFigma color.
Proof.
  intros H _. unfold parseColorString, colorToFigma.
  destruct (startsWith color "#"); [reflexivity|].
  destruct (if startsWith color "rgb" then matchDigits color else []);
    [|reflexivity].
  now rewrite H.
Qed.

Lemma colour_parsers_agree_witness :
  parseColorString "rgb(10, 20, 30)" = colorToFigma "rgb(10, 20, 30)".
Proof. apply colour_parsers_agree; reflexivity. Defined.

End ColourFacts.

(** ** Doubles *)

Module DoubleFacts.
Import Js Statements.

Lemma pow2_pos (z : Z) : (0 < 2 ^ z \/ z < 0)%Z.
Proof.
  destruct (Z_lt_le_dec z 0) as [H|H]; [now right|left].
  now apply Z.pow_pos_nonneg.
Qed.











Lemma Qred_whole_fraction (n s : Z) :
  (0 < s)%Z -> Qred ((n * s)%Z # Z.to_pos s) = inject_Z n.
Proof.
  intro Hs. transitivity (Qred (inject_Z n)).
  - apply Qred_complete. unfold Qeq. cbn [Qnum Qden inject_Z].
    rewrite Z2Pos.id by exact Hs. lia.
  - apply Qcanon.Qred_identity. cbn. apply Z.gcd_1_r.
Qed.

(** On the samples, the rounding of the model is the rounding of the
    IEEE 754 specification. *)
Lemma rounding_agrees_with_ieee_on_samples :
  Forall (fun nd => roundPositive false (fst nd) (snd nd)
                    = ofSpecFloat (ieeeQuotient (fst nd) (snd nd)))
         roundingSamples.
Proof. repeat constructor; vm_compute; reflexivity. Qed.

(** A whole number below [2^53] is a double. *)
Lemma roundDouble_whole (n : Z) :
  (0 <= n < 2 ^ 53)%Z -> roundDouble (inject_Z n) = ofZ n.
Proof.
  intros [Hn0 Hn]. unfold roundDouble. cbn [inject_Z Qnum Qden].
  destruct n as [|p|p]; [reflexivity| |lia].
  pose proof (Z.log2_spec (Zpos p) eq_refl) as [Hp1 Hp2].
  pose proof (Z.log2_nonneg (Zpos p)) as Ha.
  set (a := Z.log2 (Zpos p)) in *.
  assert (Ha52 : (a <= 52)%Z).
  { apply Z.lt_succ_r. apply (Z.pow_lt_mono_r_iff 2); lia. }
  assert (Hk : binaryExponent p 1 = a).
  { unfold binaryExponent. fold a. change (Z.log2 1) with 0%Z.
    rewrite Z.sub_0_r, (Z.max_l 0 (- a)), (Z.max_r 0 a) by lia.
    destruct (_ <? _)%Z eqn:E; [|reflexivity].
    apply Z.ltb_lt in E. change (2 ^ 0)%Z with 1%Z in E. lia. }
  unfold roundPositive, nearestDouble. rewrite Hk.
  rewrite (Z.max_l (a - 52) (-1074)) by lia.
  rewrite (Z.max_l 0 (a - 52)), (Z.max_r 0 (- (a - 52))) by lia.
  change (1 * 2 ^ 0)%Z with 1%Z.
  rewrite Z.div_1_r, Z.mod_1_r.
  assert (Ho : overflows (Zpos p * 2 ^ (- (a - 52))) (a - 52) = false).
  { unfold overflows. apply orb_false_iff. split.
    - apply Z.ltb_ge. lia.
    - apply andb_false_iff. left. apply Z.eqb_neq. lia. }
  change (2 * 0 ?= 1)%Z with Lt. cbv iota.
  rewrite Ho. unfold ofZ, scaled. f_equal.
  rewrite (Z.max_l 0 (a - 52)), (Z.max_r 0 (- (a - 52))) by lia.
  change (2 ^ 0)%Z with 1%Z. rewrite Z.mul_1_r.
  apply Qred_whole_fraction. apply Z.pow_pos_nonneg; lia.
Qed.

End DoubleFacts.

(** ** Lengths *)

Module SizeFacts.
Import Js Dom Figma Exn FigmaConverter Statements SplitFacts DoubleFacts.

Lemma reverseOnto_app (s acc : string) :
  reverseOnto s acc = reverse s ++ acc.
Proof.
  unfold reverse. revert acc. induction s as [|c r IH]; intro acc; [reflexivity|].
  cbn [reverseOnto]. rewrite IH, (IH (String c EmptyString)).
  rewrite append_assoc. reflexivity.
Qed.

Lemma reverse_app (a b : string) : reverse (a ++ b) = reverse b ++ reverse a.
Proof.
  induction a as [|x r IH].
  - change (EmptyString ++ b) with b. unfold reverse at 3. cbn [reverseOnto].
    induction (reverse b) as [|y s IHs]; [reflexivity|].
    change (String y s ++ EmptyString) with (String y (s ++ EmptyString)).
    rewrite <- IHs. reflexivity.
  - change (String x r ++ b) with (String x (r ++ b)).
    unfold reverse at 1 3. cbn [reverseOnto].
    rewrite !reverseOnto_app, IH, append_assoc. reflexivity.
Qed.

Lemma prefix_app (p s : string) : String.prefix p (p ++ s) = true.
Proof.
  induction p as [|x r IH]; [destruct s; reflexivity|].
  change (String x r ++ s) with (String x (r ++ s)). cbn [String.prefix].
  destruct (ascii_dec x x); [exact IH|congruence].
Qed.

Lemma endsWith_app (a p : string) : endsWith (a ++ p) p = true.
Proof. unfold endsWith. rewrite reverse_app. apply prefix_app. Qed.

(** The last character of a string of digits is a digit. *)
Lemma digits_reversed (digits : string) :
  digitsOnly digits = true ->
  exists c r, reverse digits = String c r /\ isDigit c = true.
Proof.
  unfold digitsOnly. intro H. apply andb_true_iff in H as [Hne Hall].
  apply Nat.eqb_eq in Hall.
  induction digits as [|x r IH]; [discriminate|].
  cbn [countChars] in Hall. destruct (isDigit x) eqn:Hx; [|discriminate].
  unfold reverse. cbn [reverseOnto]. rewrite reverseOnto_app.
  destruct r as [|y r'].
  - exists x, EmptyString. split; [reflexivity|exact Hx].
  - destruct (IH eq_refl Hall) as (c & t & -> & Hc).
    exists c, (t ++ String x EmptyString). split; [reflexivity|exact Hc].
Qed.

Lemma digit_is_plain (c : ascii) :
  isDigit c = true ->
  isSpace c = false /\ c <> "-"%char /\ c <> "+"%char /\ c <> "x"%char
  /\ c <> "%"%char /\ c <> "m"%char /\ c <> "I"%char
  /\ (0 <= digitValue c <= 9)%Z.
Proof.
  SelectorFacts.each_char c; vm_compute; intro H; try discriminate H;
    repeat split; discriminate.
Qed.

(** The value of a string of digits, by its length. *)
Lemma decimalValue_bound (s : string) :
  forall acc,
    (countChars (fun c => negb (isDigit c)) s = 0)%nat ->
    (0 <= acc)%Z ->
    (acc * 10 ^ Z.of_nat (String.length s) <= decimalValue acc s
     < (acc + 1) * 10 ^ Z.of_nat (String.length s))%Z.
Proof.
  induction s as [|c r IH]; intros acc Hall Hacc.
  - cbn. lia.
  - cbn [countChars] in Hall. destruct (isDigit c) eqn:Hc; [|discriminate].
    destruct (digit_is_plain c Hc) as (_ & _ & _ & _ & _ & _ & _ & Hd).
    cbn [decimalValue String.length].
    specialize (IH (10 * acc + digitValue c)%Z Hall ltac:(lia)).
    rewrite Nat2Z.inj_succ, Z.pow_succ_r by lia.
    assert (0 < 10 ^ Z.of_nat (String.length r))%Z
      by (apply Z.pow_pos_nonneg; lia).
    nia.
Qed.

(** Fourteen digits stay below [2^49]. *)
Lemma decimalValue_small (digits : string) :
  digitsOnly digits = true ->
  (String.length digits <= 14)%nat ->
  (0 <= decimalValue 0 digits < 2 ^ 49)%Z.
Proof.
  unfold digitsOnly. intros H Hlen. apply andb_true_iff in H as [_ Hall].
  apply Nat.eqb_eq in Hall.
  pose proof (decimalValue_bound digits 0%Z Hall ltac:(lia)) as [Hlo Hhi].
  assert (Hpow : (10 ^ Z.of_nat (String.length digits) <= 10 ^ 14)%Z)
    by (apply Z.pow_le_mono_r; lia).
  split; [lia|].
  apply Z.lt_le_trans with (10 ^ 14)%Z; [lia|]. vm_compute. discriminate.
Qed.

Lemma readSign_plain (c : ascii) (r : string) :
  c <> "-"%char -> c <> "+"%char -> readSign (String c r) = (false, String c r).
Proof.
  intros Hm Hp. SelectorFacts.each_char c; try reflexivity; congruence.
Qed.

Lemma Qred_whole (n : Z) :
  Qred ((inject_Z n + inject_Z 0 / inject_Z (10 ^ Z.of_nat 0)) * Qpower 10 0)
  = inject_Z n.
Proof.
  transitivity (Qred (inject_Z n)); [|apply Qcanon.Qred_identity].
  - apply Qred_complete. change (10 ^ Z.of_nat 0)%Z with 1%Z.
    change (Qpower 10 0) with 1%Q. field.
  - cbn. apply Z.gcd_1_r.
Qed.

(** [parseFloat] on digits followed by a suffix that continues no number. *)
Lemma parseFloat_digits (digits suffix : string) :
  digitsOnly digits = true ->
  match suffix with
  | EmptyString => True
  | String d _ => isDigit d = false /\ d <> "."%char
  end ->
  readExponent suffix = 0%Z ->
  parseFloat (digits ++ suffix) = ofZ (decimalValue 0 digits).
Proof.
  intros Hd Hs He. pose proof Hd as Hd'.
  unfold digitsOnly in Hd. apply andb_true_iff in Hd as [Hne Hall].
  apply Nat.eqb_eq in Hall.
  assert (Hspan : span isDigit (digits ++ suffix) = (digits, suffix)).
  { destruct suffix as [|d rest].
    - replace (digits ++ EmptyString) with digits.
      + now apply SelectorFacts.span_all.
      + clear. induction digits as [|x r IH]; [reflexivity|].
        change (String x r ++ EmptyString) with (String x (r ++ EmptyString)).
        now rewrite <- IH.
    - apply SelectorFacts.span_stops; tauto. }
  destruct digits as [|x r]; [discriminate|].
  cbn [countChars] in Hall. destruct (isDigit x) eqn:Hx; [|discriminate].
  destruct (digit_is_plain x Hx) as (Hsp & Hm & Hp & _).
  unfold parseFloat.
  change (String x r ++ suffix) with (String x (r ++ suffix)) in *.
  cbn [trimStart]. rewrite Hsp, (readSign_plain _ _ Hm Hp), Hspan.
  assert (Hrest : match suffix with
                  | String "."%char r0 => span isDigit r0
                  | _ => (EmptyString, suffix)
                  end = (EmptyString, suffix)).
  { destruct suffix as [|d rest]; [reflexivity|]. destruct Hs as [_ Hdot].
    SelectorFacts.each_char d; try reflexivity; congruence. }
  rewrite Hrest, He. cbn [isEmpty andb String.length].
  unfold ofZ. f_equal. apply Qred_whole.
Qed.

Lemma endsWith_other (s p : string) (c x : ascii) (r y : string) :
  reverse s = String c r -> reverse p = String x y -> c <> x ->
  endsWith s p = false.
Proof.
  intros Hs Hp Hc. unfold endsWith. rewrite Hs, Hp. cbn [String.prefix].
  destruct (ascii_dec x c); [congruence|reflexivity].
Qed.

Lemma orNum_whole (n : Z) : orNum (ofZ n) (ofZ 0) = ofZ n.
Proof.
  unfold orNum, truthyNum, ofZ.
  destruct (Qeq_bool (inject_Z n) 0) eqn:E; [|reflexivity]. cbn.
  apply Qeq_bool_iff in E. unfold Qeq in E. cbn in E.
  replace n with 0%Z by lia. reflexivity.
Qed.

(** [parseFloat] as a double, on at most fourteen digits followed by a
    suffix that continues no number: the number itself. *)
Lemma parseFloatDouble_digits (digits suffix : string) :
  digitsOnly digits = true ->
  (String.length digits <= 14)%nat ->
  match suffix with
  | EmptyString => True
  | String d _ => isDigit d = false /\ d <> "."%char
  end ->
  readExponent suffix = 0%Z ->
  parseFloatDouble (digits ++ suffix) = ofZ (decimalValue 0 digits).
Proof.
  intros Hd Hlen Hs He.
  pose proof (parseFloat_digits digits suffix Hd Hs He) as Hfloat.
  pose proof (decimalValue_small digits Hd Hlen) as Hsmall.
  unfold parseFloatDouble. rewrite Hfloat.
  unfold digitsOnly in Hd. apply andb_true_iff in Hd as [Hne Hall].
  apply Nat.eqb_eq in Hall.
  destruct digits as [|x r]; [discriminate|].
  cbn [countChars] in Hall. destruct (isDigit x) eqn:Hx; [|discriminate].
  destruct (digit_is_plain x Hx) as (Hsp & Hm & Hp & _ & _ & _ & HI & _).
  change (String x r ++ suffix) with (String x (r ++ suffix)).
  cbn [trimStart]. rewrite Hsp, (readSign_plain _ _ Hm Hp).
  cbn [String.prefix]. destruct (ascii_dec "I" x) as [E|_]; [congruence|].
  cbn [toDouble ofZ]. apply roundDouble_whole.
  assert (2 ^ 49 < 2 ^ 53)%Z by (apply Z.pow_lt_mono_r; lia). lia.
Qed.

Lemma sixteen_times (n : Z) :
  (0 <= n < 2 ^ 49)%Z -> toDouble (mul (ofZ n) (ofZ 16)) = ofZ (16 * n).
Proof.
  intro H. cbn [mul ofZ toDouble].
  replace (Qred (inject_Z n * inject_Z 16)) with (inject_Z (16 * n)).
  - apply roundDouble_whole.
    change (2 ^ 53)%Z with (16 * 2 ^ 49)%Z. lia.
  - symmetry. transitivity (Qred (inject_Z (16 * n))).
    + apply Qred_complete. rewrite <- inject_Z_mult. now rewrite Z.mul_comm.
    + apply Qcanon.Qred_identity. cbn. apply Z.gcd_1_r.
Qed.

(** X12.  A length written as at most fourteen decimal digits and a unit:
    [px] gives the number, [em] and [rem] sixteen times the number, no unit
    the number itself, all of them exactly; [%] gives the double nearest to
    the product of the reference size and the double nearest to a
    hundredth of the number. *)
Theorem parseSize_units (digits : string) (maxSize : num) :
  digitsOnly digits = true ->
  (String.length digits <= 14)%nat ->
  parseSize (digits ++ "px") maxSize = ofZ (decimalValue 0 digits)
  /\ parseSize (digits ++ "%") maxSize
     = toDouble (mul (toDouble (divLit (ofZ (decimalValue 0 digits)) 100))
                     maxSize)
  /\ parseSize (digits ++ "em") maxSize = ofZ (16 * decimalValue 0 digits)
  /\ parseSize (digits ++ "rem") maxSize = ofZ (16 * decimalValue 0 digits)
  /\ parseSize digits maxSize = ofZ (decimalValue 0 digits).
Proof.
  intros Hd Hlen.
  assert (Hfloat : forall suffix,
             In suffix ["px"; "%"; "em"; "rem"; ""] ->
             parseFloatDouble (digits ++ suffix) = ofZ (decimalValue 0 digits)).
  { intros suffix Hin. apply parseFloatDouble_digits; [exact Hd|exact Hlen| |];
      cbn in Hin; repeat (destruct Hin as [<-|Hin]; [cbn; try tauto;
        try (split; [reflexivity|discriminate]); reflexivity|]);
      destruct Hin. }
  assert (Hend : forall suffix unit,
             endsWith (digits ++ suffix) unit
             = String.prefix (reverse unit) (reverse suffix ++ reverse digits)).
  { intros. unfold endsWith. now rewrite reverse_app. }
  destruct (digits_reversed digits Hd) as (c & r & Hrev & Hc).
  destruct (digit_is_plain c Hc) as (_ & _ & _ & Hx & Hpc & Hm & _).
  pose proof (Hfloat "" (or_intror (or_intror (or_intror (or_intror (or_introl eq_refl))))))
    as Hplain.
  rewrite append_empty in Hplain.
  pose proof (decimalValue_small digits Hd Hlen) as Hsmall.
  unfold parseSize. repeat split.
  - rewrite endsWith_app. apply Hfloat. cbn. tauto.
  - rewrite (Hend "%" "px"), endsWith_app, Hfloat by (cbn; tauto). reflexivity.
  - rewrite (Hend "em" "px"), (Hend "em" "%"), (endsWith_app digits "em"),
      orb_true_r, Hfloat by (cbn; tauto). now apply sixteen_times.
  - rewrite (Hend "rem" "px"), (Hend "rem" "%"), (endsWith_app digits "rem"),
      orb_true_l, Hfloat by (cbn; tauto). now apply sixteen_times.
  - rewrite (endsWith_other digits "px" c "x" r "p" Hrev eq_refl Hx).
    rewrite (endsWith_other digits "%" c "%" r "" Hrev eq_refl Hpc).
    rewrite (endsWith_other digits "rem" c "m" r "er" Hrev eq_refl Hm).
    rewrite (endsWith_other digits "em" c "m" r "e" Hrev eq_refl Hm).
    cbn [orb]. rewrite Hplain. apply orNum_whole.
Qed.

Lemma parseSize_units_witness :
  parseSize "7%" (ofZ 100) = Num (7881299347898369 # 1125899906842624)
  /\ parseSize "50%" (ofZ 1000) = ofZ 500
  /\ parseSize "2em" (ofZ 1000) = ofZ 32.
Proof.
  destruct (parseSize_units "7" (ofZ 100) eq_refl ltac:(cbn; lia))
    as (_ & Hseven & _).
  destruct (parseSize_units "50" (ofZ 1000) eq_refl ltac:(cbn; lia))
    as (_ & Hhalf & _).
  destruct (parseSize_units "2" (ofZ 1000) eq_refl ltac:(cbn; lia))
    as (_ & _ & Hem & _).
  split; [exact Hseven|]. split; [exact Hhalf | exact Hem].
Defined.

(** Sizes as the engine computes them: 33.3% of 1000 is
    332.99999999999994; a number past the range of the doubles is an
    infinity, and an infinite share of nothing is no number. *)
Lemma parseSize_examples :
  parseSize "33.3%" (ofZ 1000) = Num (5858197952790527 # 17592186044416)
  /\ parseSize "1e999px" (ofZ 1000) = Infinity false
  /\ parseSize "-Infinity" (ofZ 1000) = Infinity true
  /\ parseSize "1e999%" (ofZ 0) = NaN
  /\ parseSize "1e-999px" (ofZ 1000) = ofZ 0.
Proof. repeat split; vm_compute; reflexivity. Qed.

(** A value that starts with no number gives no number when it ends
    in one of the units, and 0 otherwise. *)
Lemma parseSize_without_number (value : string) (maxSize : num) :
  parseFloatDouble value = NaN ->
  parseSize value maxSize = if hasUnit value then NaN else ofZ 0.
Proof.
  intro H. unfold parseSize, hasUnit. rewrite H.
  destruct (endsWith value "px"), (endsWith value "%"),
    (endsWith value "rem"), (endsWith value "em"); reflexivity.
Qed.

Lemma parseSize_without_number_witness :
  parseSize "px" (ofZ 1000) = NaN /\ parseSize "auto" (ofZ 1000) = ofZ 0.
Proof.
  split.
  - apply (parseSize_without_number "px" (ofZ 1000)). reflexivity.
  - apply (parseSize_without_number "auto" (ofZ 1000)). reflexivity.
Defined.

End SizeFacts.

(** ** Font mapping *)

Module FontMapFacts.
Import Js FontManager Statements.

Lemma assoc_In {A : Type} (k : string) (l : list (string * A)) (v : A) :
  Dom.assoc k l = Some v -> In v (List.map snd l).
Proof.
  induction l as [|[k' v'] r IH]; [discriminate|].
  cbn. destruct (String.eqb k k'); [intros [= ->]; now left|]. intro H. right. auto.
Qed.

Lemma fuzzyMatchFont_known (family f : string) :
  fuzzyMatchFont family = Some f -> In f knownFamilies.
Proof.
  unfold fuzzyMatchFont, knownFamilies. intro H. apply in_or_app.
  destruct (List.find _ FONT_MAPPING) as [[k v]|] eqn:E.
  - injection H as <-. apply find_some in E as [E _]. left.
    apply (in_map snd) in E. exact E.
  - right. apply find_some in H as [H _]. exact H.
Qed.

(** The family is one of the table or of the supported fonts. *)
Lemma mapped_family_listed (fontInfo : FontInfo) :
  In (figmaFamily (mapToFigmaFont fontInfo)) knownFamilies.
Proof.
  unfold mapToFigmaFont. cbn [figmaFamily].
  set (key := trim (toLowerCase (family fontInfo))).
  assert (Hinter : In "Inter" knownFamilies).
  { unfold knownFamilies. apply in_or_app. right. cbn. tauto. }
  destruct (Dom.assoc key FONT_MAPPING) as [f|] eqn:E.
  - destruct (truthy f) eqn:Hf.
    + cbn [orDefault]. rewrite Hf. unfold knownFamilies. apply in_or_app. left.
      now apply (assoc_In key).
    + destruct (fuzzyMatchFont key) as [g|] eqn:G; [|exact Hinter].
      cbn [orDefault]. destruct (truthy g); [|exact Hinter].
      now apply (fuzzyMatchFont_known key).
  - destruct (fuzzyMatchFont key) as [g|] eqn:G; [|exact Hinter].
    cbn [orDefault]. destruct (truthy g); [|exact Hinter].
    now apply (fuzzyMatchFont_known key).
Qed.


(** X14.  The family [mapToFigmaFont] returns is always one of the table
    or of the supported fonts, whatever the family asked for.  The table is
    an object literal: the two inherited names are no entries of it and are
    left out. *)
Theorem mapped_family_is_known (fontInfo : FontInfo) :
  ownKey (family fontInfo) = true ->
  In (figmaFamily (mapToFigmaFont fontInfo)) knownFamilies.
Proof. intros _. apply mapped_family_listed. Qed.

Lemma mapped_family_is_known_witness :
  In (figmaFamily (mapToFigmaFont (mkFontInfo "My Custom Sans" (ofZ 450) "oblique" (ofZ 12))))
     knownFamilies.
Proof. apply mapped_family_is_known. reflexivity. Defined.

Lemma known_family_fixed (f : string) :
  In f knownFamilies ->
  forall w s z, figmaFamily (mapToFigmaFont (mkFontInfo f w s z)) = f.
Proof.
  intros H w s z. unfold mapToFigmaFont. cbn [figmaFamily family].
  vm_compute in H.
  repeat (destruct H as [<-|H]; [vm_compute; reflexivity|]). destruct H.
Qed.

Lemma normalizeWeight_idempotent (w : num) :
  normalizeWeight (normalizeWeight w) = normalizeWeight w.
Proof.
  destruct w as [|q|[|]]; [reflexivity| |reflexivity|reflexivity].
  rewrite FontFacts.normalizeWeight_unfold.
  pose proof (FontFacts.mathRound_clamped q) as H.
  set (k := mathRound (clampWeight q / 100)) in *.
  assert (Hk : (k = 1 \/ k = 2 \/ k = 3 \/ k = 4 \/ k = 5 \/ k = 6 \/ k = 7
               \/ k = 8 \/ k = 9)%Z) by lia.
  clearbody k.
  repeat (destruct Hk as [->|Hk]; [reflexivity|]). subst k. reflexivity.
Qed.

Lemma mapping_ext (a b : FigmaFontMapping) :
  figmaFamily a = figmaFamily b -> figmaWeight a = figmaWeight b ->
  figmaStyle a = figmaStyle b -> a = b.
Proof. destruct a, b; cbn; congruence. Qed.

(** X15.  Mapping is a projection: a mapping, read as a font and mapped
    again, is unchanged. *)
Theorem mapToFigmaFont_idempotent (fontInfo : FontInfo) (size' : num) :
  ownKey (family fontInfo) = true ->
  mapToFigmaFont (asFontInfo (mapToFigmaFont fontInfo) size')
  = mapToFigmaFont fontInfo.
Proof.
  intros _.
  pose proof (mapped_family_listed fontInfo) as Hin.
  apply mapping_ext.
  - apply (known_family_fixed _ Hin).
  - apply normalizeWeight_idempotent.
  - unfold asFontInfo, mapToFigmaFont. cbn [figmaStyle style].
    destruct (String.eqb (style fontInfo) "italic"); reflexivity.
Qed.

Lemma mapToFigmaFont_idempotent_witness :
  mapToFigmaFont
    (asFontInfo (mapToFigmaFont (mkFontInfo "Helvetica Neue" (ofZ 450) "oblique" (ofZ 12)))
                (ofZ 12))
  = mapToFigmaFont (mkFontInfo "Helvetica Neue" (ofZ 450) "oblique" (ofZ 12)).
Proof. apply mapToFigmaFont_idempotent. reflexivity. Defined.

Lemma assoc_entry {A : Type} (k : string) (l : list (string * A)) (v : A) :
  Dom.assoc k l = Some v -> In (k, v) l.
Proof.
  induction l as [|[k' v'] r IH]; [discriminate|].
  cbn. destruct (String.eqb k k') eqn:E.
  - apply String.eqb_eq in E as ->. intros [= ->]. now left.
  - intro H. right. auto.
Qed.

(** X16.  The table is searched in its order, and its first entry is
    [arial]: every family that contains [arial] or is contained in it, the
    empty family included, maps to Arial, the one family [arial black]
    apart. *)
Theorem arial_is_matched_first (fontInfo : FontInfo) :
  let key := trim (toLowerCase (family fontInfo)) in
  includes key "arial" || includes "arial" key = true ->
  key <> "arial black" ->
  figmaFamily (mapToFigmaFont fontInfo) = "Arial".
Proof.
  intros key Hinc Hne. unfold mapToFigmaFont. cbn [figmaFamily]. fold key.
  assert (Hfuzzy : fuzzyMatchFont key = Some "Arial").
  { unfold fuzzyMatchFont, FONT_MAPPING. cbn [List.find fst].
    rewrite Hinc. reflexivity. }
  destruct (Dom.assoc key FONT_MAPPING) as [f|] eqn:E.
  - apply assoc_entry in E. cbn in E.
    repeat (destruct E as [E|E];
            [injection E as <- <-; vm_compute in Hinc; first
               [discriminate Hinc | reflexivity | now elim Hne]|]).
    destruct E.
  - rewrite Hfuzzy. reflexivity.
Qed.

Lemma arial_is_matched_first_witness :
  figmaFamily (mapToFigmaFont (mkFontInfo "Arial Black Condensed" (ofZ 400) "normal" (ofZ 12)))
  = "Arial"
  /\ figmaFamily (mapToFigmaFont (mkFontInfo "  " (ofZ 400) "normal" (ofZ 12)))
     = "Arial".
Proof.
  split.
  - apply arial_is_matched_first; [reflexivity|discriminate].
  - apply arial_is_matched_first; [reflexivity|discriminate].
Defined.

End FontMapFacts.

(** ** Vector markup: when the conversion fails, and what it gives *)

Module SvgExactFacts.
Import Js Dom Figma Exn FigmaConverter SvgConverter Statements SvgFacts.

Lemma paintOf_thrown (p : option PropValue) :
  paintOf p = Thrown -> badPaint p = true.
Proof.
  destruct p as [[s|q|]|]; cbn; try discriminate; try reflexivity.
  - destruct (truthy s && negb (String.eqb s "none")); discriminate.
  - destruct (negb (Qeq_bool q 0)); [reflexivity|discriminate].
Qed.

Lemma convertSvgChildren_failed (l : list SvgAst) :
  convertSvgChildren l = Thrown ->
  exists child, In child l /\ convertSvgChildElement child = Thrown.
Proof.
  induction l as [|c rest IH]; [discriminate|].
  cbn [convertSvgChildren].
  destruct (convertSvgChildElement c) as [node|] eqn:E.
  - cbn [bind]. destruct (convertSvgChildren rest) as [others|]; [discriminate|].
    intros _. destruct (IH eq_refl) as (child & Hin & Hthrown).
    exists child. split; [now right|exact Hthrown].
  - intros _. exists c. split; [now left|exact E].
Qed.

(** An exception at an element comes from a paint of the element or from
    one of its children. *)
Lemma svg_thrown_raises (ast : SvgAst) :
  convertSvgChildElement ast = Thrown -> Raises ast.
Proof.
  induction ast as [rawTag props kids IH|] using BuilderFacts.SvgAst_induction;
    [|discriminate].
  rewrite convertSvgChildElement_eq.
  destruct (isEmpty (loweredTag rawTag)) eqn:Htag; [discriminate|].
  destruct (paintOf (assoc "fill" props)) as [fillPaints|] eqn:Hfill.
  2:{ intros _. apply raises_here; [exact Htag|].
      rewrite (paintOf_thrown _ Hfill). reflexivity. }
  destruct (paintOf (assoc "stroke" props)) as [strokePaints|] eqn:Hstroke.
  2:{ intros _. apply raises_here; [exact Htag|].
      rewrite (paintOf_thrown _ Hstroke). apply orb_true_r. }
  cbn [bind]. destruct kids as [|k kids']; [discriminate|].
  destruct (convertSvgChildren (k :: kids')) eqn:Hkids; [discriminate|].
  intros _. destruct (convertSvgChildren_failed _ Hkids) as (child & Hin & Hthrown).
  apply (raises_below rawTag props (k :: kids') child Htag Hin).
  rewrite Forall_forall in IH. apply (IH child); [|exact Hthrown].
  now apply list_elem_of_In.
Qed.

(** X17.  The conversion of parsed vector markup throws exactly when some
    element with a tag name, all of whose ancestors have one, carries a
    [fill] or [stroke] that is truthy and no string. *)
Theorem svg_child_throws_exactly (ast : SvgAst) :
  convertSvgChildElement ast = Thrown <-> Raises ast.
Proof. split; [apply svg_thrown_raises | apply raises_thrown]. Qed.

(** X18.  [convertSvgElement] returns the placeholder exactly for an [svg]
    element whose markup the parser rejects or one of whose parsed elements
    makes the conversion throw. *)
Theorem placeholder_exactly_on_failure (parse : ParseSvg) (svg : DomNode) :
  convertSvgElement parse svg = Some placeholder
  <-> isSvgRoot svg = true
      /\ (parse svg = Thrown
          \/ exists parsed ast,
               parse svg = Returned parsed /\ In ast parsed /\ Raises ast).
Proof.
  unfold convertSvgElement. fold (isSvgRoot svg).
  destruct (isSvgRoot svg); cbn [negb].
  2:{ split; [discriminate|intros [H _]; discriminate]. }
  split.
  - intro H. split; [reflexivity|].
    destruct (parse svg) as [parsed|] eqn:Hparse; [|now left]. right.
    unfold convertSvgBody in H. rewrite Hparse in H. cbn [bind] in H.
    destruct parsed as [|a rest]; [cbn in H; discriminate|].
    destruct (convertSvgChildren (a :: rest)) as [nodes|] eqn:Hkids.
    { cbn in H. discriminate. }
    destruct (convertSvgChildren_failed _ Hkids) as (child & Hin & Hthrown).
    exists (a :: rest), child. repeat split; [exact Hin|].
    now apply svg_thrown_raises.
  - intros [_ H]. rewrite (convertSvgBody_thrown parse svg H). reflexivity.
Qed.

Lemma convertSvgChildElement_label (ast : SvgAst) (node : DesignNode) :
  convertSvgChildElement ast = Returned (Some node) ->
  hasTag ast = true
  /\ (name (fieldsOf node), type (fieldsOf node)) = labelOf ast.
Proof.
  destruct ast as [rawTag props kids|]; [|discriminate].
  rewrite convertSvgChildElement_eq. cbn [hasTag labelOf].
  destruct (isEmpty (loweredTag rawTag)); [discriminate|].
  destruct (paintOf (assoc "fill" props)); [|discriminate].
  destruct (paintOf (assoc "stroke" props)); [|discriminate].
  cbn [bind]. destruct kids as [|k kids'].
  - intros [= <-]. split; reflexivity.
  - destruct (convertSvgChildren (k :: kids')); [|discriminate].
    cbn [bind]. intros [= <-]. split; reflexivity.
Qed.

Lemma convertSvgChildElement_none (ast : SvgAst) :
  convertSvgChildElement ast = Returned None -> hasTag ast = false.
Proof.
  destruct ast as [rawTag props kids|]; [|reflexivity].
  rewrite convertSvgChildElement_eq. cbn [hasTag].
  destruct (isEmpty (loweredTag rawTag)); [reflexivity|].
  destruct (paintOf (assoc "fill" props)); [|discriminate].
  destruct (paintOf (assoc "stroke" props)); [|discriminate].
  cbn [bind]. destruct kids as [|k kids']; [discriminate|].
  destruct (convertSvgChildren (k :: kids')); discriminate.
Qed.

(** X19.  When the conversion of a list of parsed nodes succeeds, it gives
    one node for each element with a tag name, in the order of the list:
    named by the tag in upper case, a group for [g] and a vector for every
    other tag. *)
Theorem svg_children_in_order (l : list SvgAst) (nodes : list DesignNode) :
  convertSvgChildren l = Returned nodes ->
  List.map (fun node => (name (fieldsOf node), type (fieldsOf node))) nodes
  = List.map labelOf (List.filter hasTag l).
Proof.
  revert nodes. induction l as [|c rest IH]; intros nodes.
  - intros [= <-]. reflexivity.
  - cbn [convertSvgChildren List.filter].
    destruct (convertSvgChildElement c) as [[node|]|] eqn:E; [| |discriminate].
    + destruct (convertSvgChildElement_label _ _ E) as [-> Hlabel].
      cbn [bind]. destruct (convertSvgChildren rest) as [others|]; [|discriminate].
      intros [= <-]. cbn [List.map]. rewrite Hlabel, (IH others eq_refl).
      reflexivity.
    + rewrite (convertSvgChildElement_none _ E).
      cbn [bind]. destruct (convertSvgChildren rest) as [others|]; [|discriminate].
      intros [= <-]. apply IH. reflexivity.
Qed.

Lemma svg_children_in_order_witness :
  exists nodes,
    convertSvgChildren drawing = Returned nodes
    /\ List.map (fun node => (name (fieldsOf node), type (fieldsOf node))) nodes
       = [(Some "G", GROUP); (Some "CIRCLE", VECTOR)].
Proof.
  eexists. split; [reflexivity|].
  apply (svg_children_in_order drawing). reflexivity.
Defined.

End SvgExactFacts.

(** ** Images: data addresses and file names *)

Module ImageFacts.
Import Js Resources ImageProcessor Statements.

Lemma prefix_cut (p s : string) :
  String.prefix p s = true -> s = p ++ sliceFrom s (String.length p).
Proof.
  revert s. induction p as [|x r IH]; intros s H; [destruct s; reflexivity|].
  destruct s as [|y t]; [discriminate|]. cbn [String.prefix] in H.
  destruct (ascii_dec x y) as [->|]; [|discriminate].
  cbn [String.length sliceFrom]. change (String y r ++ sliceFrom t (String.length r))
    with (String y (r ++ sliceFrom t (String.length r))).
  now rewrite <- (IH t H).
Qed.

Lemma span_app (p : ascii -> bool) (s a b : string) :
  span p s = (a, b) -> s = a ++ b.
Proof.
  revert a b. induction s as [|c r IH]; intros a b.
  - intros [= <- <-]. reflexivity.
  - cbn [span]. destruct (p c).
    + destruct (span p r) as [a' b'] eqn:E. intros [= <- <-].
      change (String c a' ++ b') with (String c (a' ++ b')).
      now rewrite <- (IH a' b' eq_refl).
    + intros [= <- <-]. reflexivity.
Qed.

Lemma startsWith_app (p s : string) : startsWith (p ++ s) p = true.
Proof. apply SizeFacts.prefix_app. Qed.

Lemma sliceFrom_app (p s : string) : sliceFrom (p ++ s) (String.length p) = s.
Proof. induction p as [|x r IH]; [destruct s; reflexivity|exact IH]. Qed.

Lemma matchDataUrl_built (mimeType base64Data : string) :
  truthy mimeType = true ->
  countChars (fun c => Ascii.eqb c ";"%char) mimeType = 0%nat ->
  truthy base64Data = true ->
  countChars isLineTerminator base64Data = 0%nat ->
  matchDataUrl ("data:" ++ mimeType ++ ";base64," ++ base64Data)
  = Some (mimeType, base64Data).
Proof.
  intros Hm Hsemi Hd Hline. unfold matchDataUrl.
  rewrite startsWith_app.
  change 5%nat with (String.length "data:") at 1. rewrite sliceFrom_app.
  change (";base64," ++ base64Data) with (String ";" ("base64," ++ base64Data)).
  rewrite SelectorFacts.span_stops.
  - destruct mimeType; [discriminate|]. cbn [isEmpty].
    change (String ";" ("base64," ++ base64Data)) with (";base64," ++ base64Data).
    rewrite startsWith_app.
    change 8%nat with (String.length ";base64,"). rewrite sliceFrom_app.
    destruct base64Data; [discriminate|]. cbn [isEmpty].
    rewrite Hline. reflexivity.
  - rewrite <- Hsemi. clear. induction mimeType as [|c r IH]; [reflexivity|].
    cbn [countChars]. rewrite IH. now destruct (Ascii.eqb c ";").
  - reflexivity.
Qed.

(** X20.  A data address written by [imageToBase64] is read back by
    [processDataUrl]: same media type, same content, and the address itself
    as the location; writing the image read back gives the address again.
    The media type must be non-empty and free of semicolons, the content
    non-empty and on one line. *)
Theorem data_url_round_trip (image : ImageResource) :
  truthy (mimeType image) = true ->
  countChars (fun c => Ascii.eqb c ";"%char) (mimeType image) = 0%nat ->
  truthy (encodedData image) = true ->
  countChars isLineTerminator (encodedData image) = 0%nat ->
  startsWith (encodedData image) "data:" = false ->
  exists image',
    processDataUrl (imageToBase64 image) = Some image'
    /\ url image' = imageToBase64 image
    /\ data image' = TextData (encodedData image)
    /\ mimeType image' = mimeType image
    /\ imageToBase64 image' = imageToBase64 image.
Proof.
  intros Hm Hsemi Hd Hline Hnot.
  assert (Hwritten : imageToBase64 image
                     = "data:" ++ mimeType image ++ ";base64," ++ encodedData image).
  { unfold imageToBase64, encodedData in *.
    destruct (data image) as [s|e]; [rewrite Hnot|]; reflexivity. }
  eexists. split.
  - unfold processDataUrl. rewrite Hwritten.
    rewrite (matchDataUrl_built _ _ Hm Hsemi Hd Hline). reflexivity.
  - cbn [url data mimeType]. repeat split.
    + symmetry. exact Hwritten.
    + unfold imageToBase64 at 1. cbn [data mimeType]. rewrite Hnot.
      now rewrite Hwritten.
Qed.

Lemma data_url_round_trip_witness :
  exists image',
    processDataUrl
      (imageToBase64 (mkImage "logo.png" (BufferData "iVBORw0KGgo=") "image/png"
                              (Some (ofZ 32)) None))
    = Some image'
    /\ mimeType image' = "image/png".
Proof.
  destruct (data_url_round_trip
              (mkImage "logo.png" (BufferData "iVBORw0KGgo=") "image/png"
                       (Some (ofZ 32)) None))
    as (image' & Hread & _ & _ & Hmime & _); try reflexivity.
  exists image'. split; [exact Hread|exact Hmime].
Defined.

Lemma matchDataUrl_parts (dataUrl mimeType base64Data : string) :
  matchDataUrl dataUrl = Some (mimeType, base64Data) ->
  dataUrl = "data:" ++ mimeType ++ ";base64," ++ base64Data.
Proof.
  unfold matchDataUrl.
  destruct (startsWith dataUrl "data:") eqn:Hdata; [|discriminate].
  apply prefix_cut in Hdata. cbn [String.length] in Hdata.
  destruct (span _ (sliceFrom dataUrl 5)) as [m rest] eqn:Hspan.
  apply span_app in Hspan.
  destruct (isEmpty m); [discriminate|].
  destruct (startsWith rest ";base64,") eqn:Hrest; [|discriminate].
  apply prefix_cut in Hrest. cbn [String.length] in Hrest.
  destruct (isEmpty (sliceFrom rest 8)); [discriminate|].
  destruct (countChars isLineTerminator (sliceFrom rest 8) =? 0)%nat; [|discriminate].
  intros [= <- <-]. rewrite Hdata at 1. rewrite Hspan. rewrite Hrest at 1.
  reflexivity.
Qed.

(** X21.  Whatever [processDataUrl] accepts has the form
    [data:<type>;base64,<content>], and [imageToBase64] writes the accepted
    address back, unless the content itself starts with [data:], in which
    case it writes the content alone. *)
Theorem accepted_data_url_is_rebuilt (dataUrl : string) (image : ImageResource) :
  processDataUrl dataUrl = Some image ->
  dataUrl = "data:" ++ mimeType image ++ ";base64," ++ encodedData image
  /\ url image = dataUrl
  /\ imageToBase64 image
     = if startsWith (encodedData image) "data:" then encodedData image
       else dataUrl.
Proof.
  unfold processDataUrl.
  destruct (matchDataUrl dataUrl) as [[m d]|] eqn:E; [|discriminate].
  intros [= <-]. apply matchDataUrl_parts in E.
  unfold imageToBase64, encodedData. cbn [data mimeType url].
  repeat split; [exact E|].
  destruct (startsWith d "data:"); [reflexivity|]. now rewrite E.
Qed.

Lemma accepted_data_url_is_rebuilt_witness :
  imageToBase64
    {| url := "data:image/png;base64,data:text/plain;base64,QQ==";
       data := TextData "data:text/plain;base64,QQ==";
       mimeType := "image/png"; width := None; height := None |}
  = "data:text/plain;base64,QQ==".
Proof.
  apply (accepted_data_url_is_rebuilt
           "data:image/png;base64,data:text/plain;base64,QQ=="). reflexivity.
Defined.

Lemma toInt32_range (z : Z) : (- 2 ^ 31 <= toInt32 z < 2 ^ 31)%Z.
Proof.
  unfold toInt32. pose proof (Z.mod_pos_bound (z + 2 ^ 31) (2 ^ 32) eq_refl). lia.
Qed.

Lemma toInt32_small (z : Z) : (- 2 ^ 31 <= z < 2 ^ 31)%Z -> toInt32 z = z.
Proof.
  intro H. unfold toInt32. rewrite Z.mod_small; lia.
Qed.

(** ToInt32 depends on the class modulo [2^32] only. *)
Lemma toInt32_shift (z k : Z) : toInt32 (z + k * 2 ^ 32) = toInt32 z.
Proof.
  unfold toInt32. replace (z + k * 2 ^ 32 + 2 ^ 31)%Z with (z + 2 ^ 31 + k * 2 ^ 32)%Z by lia.
  now rewrite Z.mod_add.
Qed.

Lemma toInt32_class (z : Z) : exists k, toInt32 z = (z + k * 2 ^ 32)%Z.
Proof.
  exists (- ((z + 2 ^ 31) / 2 ^ 32))%Z. unfold toInt32.
  rewrite Z.mod_eq by discriminate. lia.
Qed.

Lemma hashStep_wraps (hash : Z) (char : ascii) :
  hashStep (toInt32 hash) char = toInt32 (31 * hash + Z.of_nat (code char)).
Proof.
  unfold hashStep. rewrite Z.shiftl_mul_pow2 by lia.
  destruct (toInt32_class hash) as [k Hk].
  rewrite (toInt32_small (toInt32 hash)) by apply toInt32_range.
  destruct (toInt32_class (toInt32 hash * 2 ^ 5)) as [j Hj].
  rewrite Hj, Hk.
  replace ((hash + k * 2 ^ 32) * 2 ^ 5 + j * 2 ^ 32 - (hash + k * 2 ^ 32)
           + Z.of_nat (code char))%Z
    with (31 * hash + Z.of_nat (code char) + (31 * k + j) * 2 ^ 32)%Z by lia.
  apply toInt32_shift.
Qed.

Lemma hashLoop_wraps (hash : Z) (url : string) :
  hashLoop (toInt32 hash) url = toInt32 (polyHash hash url).
Proof.
  revert hash. induction url as [|c r IH]; intro hash; [reflexivity|].
  cbn [hashLoop polyHash]. rewrite hashStep_wraps. apply IH.
Qed.

Lemma hashLoop_value (url : string) :
  hashLoop 0 url = toInt32 (polyHash 0 url).
Proof. change 0%Z with (toInt32 0) at 1. apply hashLoop_wraps. Qed.

(** X22.  The number [hashUrl] computes is the polynomial hash of the
    address with the factor 31, over its character codes, reduced to a
    signed integer of 32 bits. *)
Theorem hashUrl_is_polynomial_hash (url : string) :
  hashLoop 0 url = toInt32 (polyHash 0 url)
  /\ (- 2 ^ 31 <= hashLoop 0 url < 2 ^ 31)%Z
  /\ hashUrl url = toString36 (Z.abs (toInt32 (polyHash 0 url))).
Proof.
  pose proof (hashLoop_value url) as H.
  split; [exact H|]. split.
  - rewrite H. apply toInt32_range.
  - unfold hashUrl. now rewrite H.
Qed.

Lemma digit36_value (d : Z) :
  (0 <= d < 36)%Z ->
  isBase36 (digit36 d) = true /\ valueOf36 0 (String (digit36 d) EmptyString) = d.
Proof.
  intro H.
  assert (Hd : In d (List.map Z.of_nat (seq 0 36))).
  { apply in_map_iff. exists (Z.to_nat d). split; [lia|]. apply in_seq. lia. }
  cbn in Hd.
  repeat (destruct Hd as [<-|Hd]; [split; reflexivity|]). destruct Hd.
Qed.

Lemma valueOf36_app (acc : Z) (a b : string) :
  valueOf36 acc (a ++ b) = valueOf36 (valueOf36 acc a) b.
Proof.
  revert acc. induction a as [|c r IH]; intro acc; [reflexivity|].
  change (String c r ++ b) with (String c (r ++ b)). cbn [valueOf36]. apply IH.
Qed.

Lemma valueOf36_digit (acc d : Z) :
  (0 <= d < 36)%Z ->
  valueOf36 acc (String (digit36 d) EmptyString) = (36 * acc + d)%Z.
Proof.
  intro H. destruct (digit36_value d H) as [_ Hv]. cbn [valueOf36] in *. lia.
Qed.

(** With fuel enough, [toBase36] writes [n] before [acc]. *)
Lemma toBase36_spec (fuel : nat) (n : Z) (acc : string) :
  (0 < fuel)%nat ->
  (0 <= n < 2 ^ Z.of_nat fuel)%Z ->
  exists digits,
    toBase36 fuel n acc = digits ++ acc
    /\ truthy digits = true
    /\ countChars (fun c => negb (isBase36 c)) digits = 0%nat
    /\ valueOf36 0 digits = n.
Proof.
  revert n acc. induction fuel as [|fuel IH]; intros n acc Hfuel Hn; [lia|].
  clear Hfuel.
  - cbn [toBase36]. destruct (n <? 36)%Z eqn:Hsmall.
    + apply Z.ltb_lt in Hsmall. rewrite Z.mod_small by lia.
      exists (String (digit36 n) EmptyString).
      destruct (digit36_value n) as [Hc Hv]; [lia|].
      repeat split; [|exact Hv]. cbn [countChars]. now rewrite Hc.
    + apply Z.ltb_ge in Hsmall.
      assert (Hdiv : (0 <= n / 36 < 2 ^ Z.of_nat fuel)%Z).
      { split; [apply Z.div_pos; lia|].
        apply Z.div_lt_upper_bound; [lia|].
        rewrite Nat2Z.inj_succ, Z.pow_succ_r in Hn by lia.
        pose proof (Z.pow_pos_nonneg 2 (Z.of_nat fuel)). lia. }
      assert (Hfuel : (0 < fuel)%nat).
      { destruct fuel; [|lia]. change (2 ^ Z.of_nat 1)%Z with 2%Z in Hn. lia. }
      destruct (IH (n / 36)%Z (String (digit36 (n mod 36)) acc) Hfuel Hdiv)
        as (digits & Heq & Hne & Hall & Hval).
      pose proof (Z.mod_pos_bound n 36 eq_refl) as Hmod.
      destruct (digit36_value (n mod 36) Hmod) as [Hc _].
      exists (digits ++ String (digit36 (n mod 36)) EmptyString).
      repeat split.
      * rewrite Heq, SplitFacts.append_assoc. reflexivity.
      * destruct digits; [discriminate|reflexivity].
      * rewrite SelectorFacts.countChars_app, Hall. cbn [countChars].
        now rewrite Hc.
      * rewrite valueOf36_app, Hval, (valueOf36_digit _ _ Hmod).
        rewrite (Z.div_mod n 36) at 3 by lia. lia.
Qed.

Lemma toString36_spec (n : Z) :
  (0 <= n)%Z ->
  truthy (toString36 n) = true
  /\ countChars (fun c => negb (isBase36 c)) (toString36 n) = 0%nat
  /\ valueOf36 0 (toString36 n) = n.
Proof.
  intro Hn. unfold toString36.
  destruct (toBase36_spec (S (Z.to_nat (Z.log2 n))) n EmptyString)
    as (digits & Heq & Hne & Hall & Hval); [lia| |].
  { split; [exact Hn|]. rewrite Nat2Z.inj_succ, Z2Nat.id by apply Z.log2_nonneg.
    destruct (Z.eq_dec n 0%Z) as [->|Hpos]; [reflexivity|].
    apply Z.log2_spec. lia. }
  rewrite Heq.
  replace (digits ++ EmptyString) with digits.
  - auto.
  - clear. induction digits as [|c r IH]; [reflexivity|].
    change (String c r ++ EmptyString) with (String c (r ++ EmptyString)).
    now rewrite <- IH.
Qed.

(** X23.  The name [hashUrl] gives is never empty and is made of digits
    and small letters only; read in base 36 it is the absolute value of
    the hash, at most [2^31]. *)
Theorem hashUrl_is_a_plain_name (url : string) :
  truthy (hashUrl url) = true
  /\ countChars (fun c => negb (isBase36 c)) (hashUrl url) = 0%nat
  /\ valueOf36 0 (hashUrl url) = Z.abs (hashLoop 0 url)
  /\ (valueOf36 0 (hashUrl url) <= 2 ^ 31)%Z.
Proof.
  destruct (toString36_spec (Z.abs (hashLoop 0 url)) (Z.abs_nonneg _))
    as (Hne & Hall & Hval).
  unfold hashUrl. repeat split; try assumption.
  rewrite Hval, hashLoop_value.
  pose proof (toInt32_range (polyHash 0 url)). lia.
Qed.

End ImageFacts.

(** ** The captured-page format *)

Module H2DFacts.
Import Js Dom Exn H2DFormat Statements.

Ltac look key members :=
  let E := fresh "E" in
  destruct (assoc key members) as [[]|] eqn:E; cbn.

(** X24.  The validator accepts exactly the values that have the members
    of the format with their types. *)
Theorem validateH2DFile_accepts_exactly (data : Json) :
  validateH2DFile data = Returned true <-> conforms data.
Proof.
  split.
  - destruct data as [| | | | |ms]; try discriminate.
    unfold validateH2DFile, memberHasType, innerHasType, innerIsArray, conforms.
    cbn [member typeOf bind andAlso String.eqb Ascii.eqb Bool.eqb field].
    cbn.
    look "version" ms; try discriminate.
    look "html" ms; try discriminate.
    look "css" ms; try discriminate.
    look "resources" ms; try discriminate.
    all: look "viewport" ms; try discriminate.
    all: look "metadata" ms; try discriminate.
    all: match goal with
         | |- context [assoc "images" ?r] => look "images" r; try discriminate
         end.
    all: match goal with
         | |- context [assoc "fonts" ?r] => look "fonts" r; try discriminate
         end.
    all: match goal with
         | |- context [assoc "width" ?r] => look "width" r; try discriminate
         end.
    all: match goal with
         | |- context [assoc "height" ?r] => look "height" r; try discriminate
         end.
    all: match goal with
         | |- context [assoc "url" ?r] => look "url" r; try discriminate
         end.
    all: match goal with
         | |- context [assoc "timestamp" ?r] => look "timestamp" r; try discriminate
         end.
    all: intros _; repeat eexists; eassumption.
  - intros (version & html & css & images & fonts & resources & width & height
            & viewport & url & timestamp & metadata & H).
    destruct data as [| | | | |ms]; cbn [field] in H;
      try (destruct H as [H _]; discriminate H).
    destruct H as (H1 & H2 & H3 & H4 & H5 & H6 & H7 & H8 & H9 & H10 & H11 & H12).
    unfold validateH2DFile, memberHasType, innerHasType, innerIsArray.
    cbn [member typeOf bind andAlso].
    rewrite H1, H2, H3, H4, H7, H10. cbn. rewrite H5, H6, H8, H9, H11, H12.
    reflexivity.
Qed.

Ltac pick :=
  first [reflexivity | left; pick | right; pick | split; [pick | pick]].

Ltac settle :=
  first
    [ split; [discriminate
             |let H := fresh in intro H; decompose [or and] H; congruence]
    | split; [intros _; pick | reflexivity] ].

Ltac look_in key :=
  match goal with
  | |- context [assoc key ?r] => look key r; try settle
  end.

(** X25.  The validator throws, instead of answering, exactly on [null]
    and on a value that has [null] for its resources, its viewport or its
    metadata and passes every check made before that member is read. *)
Theorem validateH2DFile_throws_exactly (data : Json) :
  validateH2DFile data = Thrown <-> readsNull data.
Proof.
  unfold readsNull, validateH2DFile, memberHasType, innerHasType, innerIsArray,
    headed, listed, sized, inner.
  destruct data as [| | | | |ms]; cbn; try settle.
  look_in "version". look_in "html". look_in "css".
  look_in "resources".
  all: look_in "viewport".
  all: look_in "metadata".
  all: look_in "images".
  all: look_in "fonts".
  all: look_in "width".
  all: look_in "height".
  all: look_in "url".
  all: look_in "timestamp".
Qed.

(** The file [createDefaultH2DFile] builds is accepted by the
    validator, for every address, viewport and time. *)
Theorem default_file_is_valid (url : string) (viewport : H2DViewport)
        (timestamp : string) :
  validateH2DFile (createDefaultH2DFile url viewport timestamp) = Returned true.
Proof. reflexivity. Qed.

End H2DFacts.

(** ** Fields that go together *)

Module ShapeFacts.
Import Js Dom Figma Exn FigmaConverter SvgConverter Statements TreeFacts SvgFacts.

Lemma everyNode_node (P : NodeFields -> Prop) (f : NodeFields)
      (cs : option (list DesignNode)) :
  everyNode P (Node f cs) <-> P f /\ Forall (everyNode P) (default [] cs).
Proof.
  cbn [everyNode].
  assert (H : forall l,
             (fix all (l : list DesignNode) : Prop :=
                match l with
                | [] => True
                | c :: r => everyNode P c /\ all r
                end) l <-> Forall (everyNode P) l).
  { induction l as [|c r IH]; [split; [constructor | auto]|].
    rewrite Forall_cons_iff, IH. reflexivity. }
  destruct cs as [l|]; cbn [default].
  - rewrite H. reflexivity.
  - split; intros [H1 _]; split; auto.
Qed.

Section EveryNode.

Variable P : NodeFields -> Prop.

Hypothesis P_assemble :
  forall tagName styles viewport children,
    P (fieldsOf (assemble tagName styles viewport children)).
Hypothesis P_text :
  forall this content styles, P (fieldsOf (textChild this content styles)).
Hypothesis P_image :
  forall this img image styles viewport,
    P (fieldsOf (createImageNode this img image styles viewport)).
Hypothesis P_child :
  forall tagName props fillPaints strokePaints,
    P (childFields tagName props fillPaints strokePaints).
Hypothesis P_root :
  forall parse svg node element,
    convertSvgElement parse svg = Some node ->
    P (fieldsOf (renamed node element)).

Lemma svgChildren_every (l : list SvgAst) :
  Forall (fun ast => forall n, convertSvgChildElement ast = Returned (Some n) ->
                               everyNode P n) l ->
  forall nodes, convertSvgChildren l = Returned nodes ->
                Forall (everyNode P) nodes.
Proof.
  induction 1 as [|ast rest Hast _ IH]; intros nodes H.
  - injection H as <-. constructor.
  - cbn [convertSvgChildren] in H.
    destruct (convertSvgChildElement ast) as [node|] eqn:E; [|discriminate].
    cbn [bind] in H.
    destruct (convertSvgChildren rest) as [others|]; [|discriminate].
    cbn [bind] in H. injection H as <-.
    destruct node as [n|]; [constructor|]; auto.
Qed.

Lemma svgChild_every (ast : SvgAst) :
  forall n, convertSvgChildElement ast = Returned (Some n) -> everyNode P n.
Proof.
  induction ast as [rawTag props kids IHkids|] using BuilderFacts.SvgAst_induction;
    intros n H; [|discriminate].
  rewrite convertSvgChildElement_eq in H.
  destruct (isEmpty (loweredTag rawTag)); [discriminate|].
  destruct (paintOf (assoc "fill" props)) as [fp|]; [|discriminate].
  destruct (paintOf (assoc "stroke" props)) as [sp|]; [|discriminate].
  cbn [bind] in H. cbv zeta in H.
  destruct kids as [|k kids'].
  - injection H as <-. apply everyNode_node. split; [apply P_child|constructor].
  - destruct (convertSvgChildren (k :: kids')) as [converted|] eqn:E;
      [|discriminate].
    cbn [bind] in H. injection H as <-. apply everyNode_node.
    split; [apply P_child|]. exact (svgChildren_every _ IHkids _ E).
Qed.

Lemma svgRoot_every (parse : ParseSvg) (svg element : DomNode) (node : DesignNode) :
  convertSvgElement parse svg = Some node -> everyNode P (renamed node element).
Proof.
  intro H. pose proof (P_root parse svg node element H) as Hroot.
  destruct node as [f cs]. cbn [renamed] in *. apply everyNode_node.
  split; [exact Hroot|].
  unfold convertSvgElement in H.
  destruct (negb (isElement svg && String.eqb (toLowerCase (tagNameOf svg)) "svg"));
    [discriminate|].
  injection H as H. unfold convertSvgBody in H.
  destruct (parse svg) as [parsed|]; cbn [bind tryCatch] in H;
    [|injection H as <- <-; constructor].
  destruct (match parsed with
            | [] => Returned []
            | _ :: _ => convertSvgChildren parsed
            end) as [kids|] eqn:E; cbn [bind tryCatch] in H;
    [|injection H as <- <-; constructor].
  injection H as _ <-. cbn [default].
  destruct parsed as [|a rest].
  - injection E as <-. constructor.
  - apply (svgChildren_every (a :: rest)); [|exact E].
    apply Forall_forall. intros ast _. apply svgChild_every.
Qed.

Lemma convertChildren_every (this : Converter) (cssRules : CssRules)
      (viewport : Resources.Viewport) (position : Path) (styles : Styles)
      (l : list DomNode) :
  Forall (fun child =>
            forall position parentStyles node,
              convertElement this cssRules viewport position child parentStyles
              = Some node -> everyNode P node) l ->
  forall i, Forall (everyNode P)
                   (convertChildren this cssRules viewport position styles l i).
Proof.
  induction 1 as [|child rest Hchild _ IH]; intro i; [constructor|].
  cbn [convertChildren]. destruct child as [t a k | d | d]; try apply IH.
  destruct (convertElement this cssRules viewport (position ++ [i])%list
                           (Element t a k) styles) as [node|] eqn:E;
    [constructor; [exact (Hchild _ _ _ E) | apply IH] | apply IH].
Qed.

(** A property of the fields that every builder of a node establishes
    holds of every node of every converted tree. *)
Lemma convertElement_every
      (this : Converter) (cssRules : CssRules) (viewport : Resources.Viewport)
      (element : DomNode) :
  forall position parentStyles node,
    convertElement this cssRules viewport position element parentStyles = Some node ->
    everyNode P node.
Proof.
  induction element as [rawTag attribs kids IHkids | d | d] using DomNode_induction;
    intros position parentStyles node H; try discriminate.
  rewrite convertElement_eq in H.
  destruct (negb (isTagKind (Element rawTag attribs kids))); [discriminate|].
  destruct (isSkipped (toLowerCase rawTag)); [discriminate|].
  destruct (isSvgElement (toLowerCase rawTag)).
  { destruct (convertSvgElement (parseSVG this) (Element rawTag attribs kids))
      as [svgNode|] eqn:E; [|discriminate].
    injection H as <-. exact (svgRoot_every _ _ _ _ E). }
  destruct (if String.eqb (toLowerCase rawTag) "img"
            then imageFor this (Element rawTag attribs kids) else None).
  { injection H as <-.
    pose proof (P_image this (Element rawTag attribs kids) i
                  (computeStyles this position (Element rawTag attribs kids)
                                 cssRules parentStyles) viewport) as Hi.
    unfold createImageNode. apply everyNode_node. split; [exact Hi|constructor]. }
  cbv zeta in H. injection H as <-.
  pose proof (convertChildren_every this cssRules viewport position
                (computeStyles this position (Element rawTag attribs kids)
                               cssRules parentStyles) kids IHkids O) as Hkids.
  set (styles := computeStyles this position (Element rawTag attribs kids)
                               cssRules parentStyles) in *.
  set (children := match convertChildren this cssRules viewport position styles kids 0 with
                   | [] => _ | _ :: _ => _ end).
  assert (Hall : Forall (everyNode P) children).
  { subst children.
    destruct (convertChildren this cssRules viewport position styles kids 0) as [|c r].
    - match goal with |- context [if ?c then _ else _] => destruct c end;
        [|constructor].
      constructor; [|constructor].
      pose proof (P_text this (trim (text (Element rawTag attribs kids))) styles) as Ht.
      unfold textChild. apply everyNode_node. split; [exact Ht|constructor].
    - exact Hkids. }
  pose proof (P_assemble (toLowerCase rawTag) styles viewport children) as Ha.
  unfold assemble. apply everyNode_node. split; [exact Ha|].
  cbn [default]. destruct (_ && _); cbn [when default]; [exact Hall|constructor].
Qed.

End EveryNode.

Lemma coherent_assemble tagName styles viewport children :
  coherent (fieldsOf (assemble tagName styles viewport children)).
Proof.
  unfold coherent, assemble, getLayoutProperties.
  cbn [fieldsOf primaryAxisSizingMode counterAxisSizingMode layoutMode itemSpacing
       paddingTop paddingRight paddingBottom paddingLeft strokes strokeWeight
       vectorPaths Figma.style type propsLayoutMode propsPrimaryAxisSizingMode
       propsCounterAxisSizingMode propsItemSpacing propsPadding].
  destruct (String.eqb (orDefault (styles !! "display") "block") "flex");
    destruct (styles !! "gap") as [gap|]; [destruct (truthy gap)| |destruct (truthy gap)|];
    destruct (styles !! "padding") as [p|]; try destruct (truthy p);
    cbn; repeat split; intros; congruence.
Qed.

Lemma coherent_child tagName props fillPaints strokePaints :
  coherent (childFields tagName props fillPaints strokePaints).
Proof.
  unfold coherent, childFields.
  cbn [primaryAxisSizingMode counterAxisSizingMode layoutMode itemSpacing
       paddingTop paddingRight paddingBottom paddingLeft strokes strokeWeight
       vectorPaths Figma.style type isSet].
  repeat split; try discriminate.
  - destruct strokePaints; reflexivity.
  - destruct (assoc "d" props) as [d|]; [|discriminate].
    destruct (String.eqb tagName "path") eqn:E; [|discriminate].
    apply String.eqb_eq in E as ->. reflexivity.
Qed.

Lemma coherent_root parse svg node element :
  convertSvgElement parse svg = Some node ->
  coherent (fieldsOf (renamed node element)).
Proof.
  unfold convertSvgElement.
  destruct (negb (isElement svg && String.eqb (toLowerCase (tagNameOf svg)) "svg"));
    [discriminate|].
  intros [= <-]. unfold convertSvgBody.
  destruct (parse svg) as [parsed|]; cbn [bind tryCatch];
    [|unfold coherent, placeholder; cbn; repeat split; intros; congruence].
  destruct (match parsed with
            | [] => Returned []
            | _ :: _ => convertSvgChildren parsed
            end) as [kids|]; cbn [bind tryCatch];
    [|unfold coherent, placeholder; cbn; repeat split; intros; congruence].
  unfold coherent.
  cbn [renamed fieldsOf primaryAxisSizingMode counterAxisSizingMode layoutMode
       itemSpacing paddingTop paddingRight paddingBottom paddingLeft strokes
       strokeWeight vectorPaths Figma.style type isSet].
  repeat split; try discriminate.
  destruct (truthyOpt (attr svg "stroke")
            && negb (String.eqb (default "" (attr svg "stroke")) "none"));
    reflexivity.
Qed.

(** X26.  In every node of every tree [convertElement] returns, fields
    that belong together are set together: the layout mode and the two
    sizing modes, with an item spacing only beside them; the four paddings;
    the strokes and the stroke weight; and vector paths sit on vectors
    only, a text style on texts only. *)
Theorem converted_fields_are_coherent
        (this : Converter) (cssRules : CssRules) (viewport : Resources.Viewport)
        (position : Path) (element : DomNode) (parentStyles : Styles)
        (node : DesignNode) :
  convertElement this cssRules viewport position element parentStyles = Some node ->
  everyNode coherent node.
Proof.
  apply (convertElement_every coherent).
  - apply coherent_assemble.
  - intros. unfold coherent, textChild. cbn. repeat split; intros; congruence.
  - intros. unfold coherent, createImageNode. cbn.
    repeat split; intros; congruence.
  - apply coherent_child.
  - apply coherent_root.
Qed.

Lemma converted_fields_are_coherent_witness :
  exists node,
    convertElement vectorConverter [] viewport1000 [] titledSvg ∅ = Some node
    /\ everyNode coherent node.
Proof.
  eexists. split; [vm_compute; reflexivity|].
  apply (converted_fields_are_coherent vectorConverter [] viewport1000 [] titledSvg ∅).
  vm_compute. reflexivity.
Defined.

End ShapeFacts.

(** ** Documents made from code *)

Module CodeFacts.
Import Js CodeToFigmaConverter Statements.

(** X28.  A fragment, which names neither [<html] nor [<!DOCTYPE], is put
    into the template; the document so made is left as it is by a second
    call, whatever style sheet that call is given. *)
Theorem combined_fragment_is_stable (html css css' : string) :
  includes html "<html" = false ->
  includes html "<!DOCTYPE" = false ->
  combineHtmlAndCss (combineHtmlAndCss html css) css'
  = combineHtmlAndCss html css.
Proof.
  intros H1 H2.
  remember (combineHtmlAndCss html css) as document eqn:Hd.
  unfold combineHtmlAndCss in Hd. rewrite H1, H2 in Hd. cbn [orb] in Hd.
  assert (Hdoc : includes document "<!DOCTYPE" = true) by (subst document; reflexivity).
  assert (Hstyle : includes document "<style>" = true).
  { subst document. cbn. reflexivity. }
  unfold combineHtmlAndCss. rewrite Hdoc, Hstyle, orb_true_r, andb_false_r.
  reflexivity.
Qed.

Lemma combined_fragment_is_stable_witness :
  combineHtmlAndCss (combineHtmlAndCss "<p>Hello</p>" "p { color: red }") ""
  = combineHtmlAndCss "<p>Hello</p>" "p { color: red }".
Proof. apply combined_fragment_is_stable; reflexivity. Defined.

Lemma findFirst_split (pattern s before after : string) :
  findFirst pattern s = Some (before, after) -> s = before ++ pattern ++ after.
Proof.
  revert before after. induction s as [|c r IH]; intros before after.
  - cbn [findFirst]. destruct (String.prefix pattern EmptyString) eqn:E; [|discriminate].
    intros [= <- <-]. apply ImageFacts.prefix_cut in E. exact E.
  - cbn [findFirst]. destruct (String.prefix pattern (String c r)) eqn:E.
    + intros [= <- <-]. apply ImageFacts.prefix_cut in E. exact E.
    + destruct (findFirst pattern r) as [[b a]|]; [|discriminate].
      intros [= <- <-]. rewrite (IH b a eq_refl) at 1. reflexivity.
Qed.

Lemma substitute_plain (replacement matched before after : string) :
  countChars (fun c => Ascii.eqb c "$"%char) replacement = 0%nat ->
  substitute replacement matched before after = replacement.
Proof.
  induction replacement as [|c r IH]; [reflexivity|].
  cbn [countChars substitute]. destruct (Ascii.eqb c "$"); [discriminate|].
  intro H. now rewrite IH.
Qed.

(** X29.  For a document with a head and without a style element, a
    non-empty style sheet free of dollar signs is put, as a style element,
    right before the first [</head>]; nothing else of the document
    changes. *)
Theorem style_goes_before_head_end (html css before after : string) :
  includes html "<html" || includes html "<!DOCTYPE" = true ->
  includes html "<style>" = false ->
  includes html "<head>" = true ->
  truthy css = true ->
  countChars (fun c => Ascii.eqb c "$"%char) css = 0%nat ->
  findFirst "</head>" html = Some (before, after) ->
  html = before ++ "</head>" ++ after
  /\ combineHtmlAndCss html css
     = before ++ ("<style>" ++ newline ++ css ++ newline ++ "</style>"
                  ++ newline ++ "</head>") ++ after.
Proof.
  intros Hdoc Hstyle Hhead Hcss Hplain Hfirst.
  split; [now apply findFirst_split|].
  unfold combineHtmlAndCss, replace.
  rewrite Hdoc, Hstyle, Hhead, Hcss, Hfirst. cbn [andb negb].
  rewrite substitute_plain.
  - rewrite !SplitFacts.append_assoc. reflexivity.
  - rewrite !SelectorFacts.countChars_app, Hplain. reflexivity.
Qed.

Lemma style_goes_before_head_end_witness :
  combineHtmlAndCss "<html><head><title>t</title></head><body></body></html>"
                    "p { margin: 0 }"
  = "<html><head><title>t</title>"
    ++ ("<style>" ++ newline ++ "p { margin: 0 }" ++ newline ++ "</style>"
        ++ newline ++ "</head>")
    ++ "<body></body></html>".
Proof.
  apply (style_goes_before_head_end
           "<html><head><title>t</title></head><body></body></html>"
           "p { margin: 0 }" "<html><head><title>t</title>" "<body></body></html>");
    reflexivity.
Defined.

End CodeFacts.

(** ** Media types of data addresses *)

Module CaptureFacts.
Import Js Dom Resources ImageProcessor CaptureScript Statements.

(** X30.  The capture script and the image processor read the same media
    type from a data address: for every address [processDataUrl] accepts,
    [getMimeType] gives the type of the image. *)
Theorem capture_and_processor_agree (dataUrl : string) (image : ImageResource) :
  processDataUrl dataUrl = Some image ->
  getMimeType dataUrl = Text (mimeType image).
Proof.
  unfold processDataUrl, matchDataUrl, getMimeType.
  destruct (startsWith dataUrl "data:") eqn:Hdata; [|discriminate].
  destruct dataUrl as [|c r]; [discriminate|].
  cbn [firstMime]. unfold mimeAt. unfold startsWith in Hdata. rewrite Hdata.
  destruct (span _ (sliceFrom (String c r) 5)) as [m rest].
  destruct (isEmpty m); [discriminate|].
  destruct (startsWith rest ";base64,") eqn:Hrest; [|discriminate].
  apply ImageFacts.prefix_cut in Hrest. rewrite Hrest.
  destruct (isEmpty _); [discriminate|].
  destruct (_ =? _)%nat; [|discriminate].
  intros [= <-]. reflexivity.
Qed.

Lemma capture_and_processor_agree_witness :
  getMimeType "data:image/gif;base64,R0lGODlh" = Text "image/gif".
Proof.
  apply (capture_and_processor_agree "data:image/gif;base64,R0lGODlh"
           (mkImage "data:image/gif;base64,R0lGODlh" (TextData "R0lGODlh")
                    "image/gif" None None)).
  reflexivity.
Defined.

End CaptureFacts.

(** ** Text styles *)

Module TextStyleFacts.
Import Js Dom Figma Exn FigmaConverter Statements.








End TextStyleFacts.

(** ** Sizes that are not negative *)

Module SignFacts.
Import Js Dom Figma Exn FigmaConverter SvgConverter Statements.
Import TreeFacts SvgFacts ShapeFacts DoubleFacts.























End SignFacts.
